(** * clitoolkit: the media module (src/clitoolkit/media.py)

    A shallow embedding of the window monitor, the window snapshot and the
    video scan, and the properties of the specification proved about them.

    Conventions of the embedding:
    - a Python [str] is a [string]; only its ASCII white space is recognised
      by [split] and [strip];
    - a [datetime] is an integer number of clock ticks ([Z]);
    - the dictionary [last] of the monitor is a [gmap]; the dictionary built
      by [list_windows] is an association list in insertion order, because the
      monitor iterates over its items;
    - everything outside the process (the clock, the two shell pipes, the file
      system, whether the database accepts a commit) is an oracle of the
      [World]; the [State] counts how many times each one was consulted;
    - a Python exception is the [Raise] outcome of a computation; the state
      survives it, as the mutable objects of the program do;
    - reading a pipe and running a SELECT return; of the database, only a
      commit can be refused;
    - the interrupt that ends the loop of the monitor is taken between two
      polls, during the sleep. *)

From Stdlib Require Import ZArith String Ascii List Bool Lia.
From stdpp Require Import base option list gmap strings.
Import ListNotations.

Local Open Scope string_scope.
Local Open Scope Z_scope.

(** ** Python string and path primitives *)

Module Py.

(** White space of [str.split()] and [str.strip()], ASCII part. *)
Definition isspace (c : ascii) : bool :=
  let n := nat_of_ascii c in
  ((9 <=? n) && (n <=? 13) || (28 <=? n) && (n <=? 32))%nat.

(** [s.split(sep)] for a one-character separator: empty pieces are kept. *)
Fixpoint split_on (sep : ascii) (s : string) : list string :=
  match s with
  | EmptyString => [EmptyString]
  | String c s' =>
      if Ascii.eqb c sep then EmptyString :: split_on sep s'
      else match split_on sep s' with
           | [] => [String c EmptyString]
           | p :: ps => String c p :: ps
           end
  end.

(** [s.split()]: pieces between runs of white space, none of them empty. *)
Fixpoint split_ws_aux (cur : string) (s : string) : list string :=
  match s with
  | EmptyString => if String.eqb cur "" then [] else [cur]
  | String c s' =>
      if isspace c
      then (if String.eqb cur "" then split_ws_aux "" s'
            else cur :: split_ws_aux "" s')
      else split_ws_aux (cur ++ String c "") s'
  end.

Definition split_ws (s : string) : list string := split_ws_aux "" s.

(** [sep.join(l)]. *)
Fixpoint join (sep : string) (l : list string) : string :=
  match l with
  | [] => ""
  | [x] => x
  | x :: rest => x ++ sep ++ join sep rest
  end.

(** [s.startswith(p)]. *)
Definition startswith (p s : string) : bool := String.prefix p s.

Definition endswith_char (c : ascii) (s : string) : bool :=
  match String.length s with
  | O => false
  | S n => match String.get n s with
           | Some d => Ascii.eqb c d
           | None => false
           end
  end.

(** [s[1:]]. *)
Definition tail (s : string) : string :=
  match s with
  | EmptyString => EmptyString
  | String _ s' => s'
  end.

Fixpoint lstrip (s : string) : string :=
  match s with
  | EmptyString => EmptyString
  | String c s' => if isspace c then lstrip s' else s
  end.

Fixpoint rstrip (s : string) : string :=
  match s with
  | EmptyString => EmptyString
  | String c s' =>
      match rstrip s' with
      | EmptyString => if isspace c then EmptyString else String c EmptyString
      | r => String c r
      end
  end.

(** [s.strip()]. *)
Definition strip (s : string) : string := rstrip (lstrip s).

(** [s.replace(old, new)]: leftmost occurrences, not overlapping.  [skip]
    counts the characters of a matched occurrence still to be dropped. *)
Fixpoint replace_aux (old new : string) (skip : nat) (s : string) : string :=
  match s with
  | EmptyString => EmptyString
  | String c s' =>
      match skip with
      | S k => replace_aux old new k s'
      | O =>
          if String.prefix old s
          then new ++ replace_aux old new (Nat.pred (String.length old)) s'
          else String c (replace_aux old new O s')
      end
  end.

Fixpoint intersperse (new : string) (s : string) : string :=
  match s with
  | EmptyString => new
  | String c s' => new ++ String c (intersperse new s')
  end.

Definition replace (old new : string) (s : string) : string :=
  if String.eqb old "" then intersperse new s else replace_aux old new O s.

Definition lower_char (c : ascii) : ascii :=
  let n := nat_of_ascii c in
  if ((65 <=? n) && (n <=? 90))%nat then ascii_of_nat (n + 32) else c.

(** [s.lower()], ASCII letters. *)
Fixpoint lower (s : string) : string :=
  match s with
  | EmptyString => EmptyString
  | String c s' => String (lower_char c) (lower s')
  end.

(** Truth value of a string: the empty string is false. *)
Definition truthy (s : string) : bool := negb (String.eqb s "").

(** [os.path.join(a, b)] of posixpath, two arguments. *)
Definition path_join (a b : string) : string :=
  if startswith "/" b then b
  else if String.eqb a "" || endswith_char "/" a then a ++ b
  else a ++ "/" ++ b.

(** Index of the last occurrence of [c] in [s], counted from [i]. *)
Fixpoint rfind_from (c : ascii) (i : nat) (s : string) : option nat :=
  match s with
  | EmptyString => None
  | String d s' =>
      match rfind_from c (S i) s' with
      | Some j => Some j
      | None => if Ascii.eqb c d then Some i else None
      end
  end.

Definition rfind (c : ascii) (s : string) : option nat := rfind_from c O s.

(** Is some character of [s] at a position in [[lo, hi)] different from a dot? *)
Fixpoint has_non_dot (lo hi : nat) (i : nat) (s : string) : bool :=
  match s with
  | EmptyString => false
  | String d s' =>
      ((lo <=? i)%nat && (i <? hi)%nat && negb (Ascii.eqb d "."))
      || has_non_dot lo hi (S i) s'
  end.

(** [os.path.splitext(p)[1]] of posixpath: the text from the last dot of the
    last component on, unless that component has only dots before it. *)
Definition splitext_ext (p : string) : string :=
  let first := match rfind "/" p with Some i => S i | None => O end in
  match rfind "." p with
  | Some dot =>
      if (first <=? dot)%nat && has_non_dot first dot O p
      then String.substring dot (String.length p - dot) p
      else ""
  | None => ""
  end.

End Py.

(** ** Exceptions and the computation monad *)

Inductive exn : Type :=
  | IndexError            (* words[2] on a short line *)
  | KeyError              (* d[k] on a missing key of a plain dict *)
  | ValueError            (* check_video_root_path *)
  | OSError               (* os.stat on a missing file *)
  | NoResultFound         (* Query.one() on no row *)
  | MultipleResultsFound  (* Query.one() on several rows *)
  | IntegrityError        (* commit refused by a constraint of the schema *)
  | OperationalError.     (* commit refused by the storage engine *)

Inductive result (A : Type) : Type :=
  | Ok (a : A)
  | Raise (e : exn).
Arguments Ok {A} a.
Arguments Raise {A} e.

Definition exn_eqb (a b : exn) : bool :=
  match a, b with
  | IndexError, IndexError | KeyError, KeyError
  | ValueError, ValueError | OSError, OSError
  | NoResultFound, NoResultFound | MultipleResultsFound, MultipleResultsFound
  | IntegrityError, IntegrityError | OperationalError, OperationalError => true
  | _, _ => false
  end.

(** ** Rows of the two tables (classes [Video] and [WindowLog]) *)

Record Video : Type := mkVideo {
  video_id : Z;
  path : string;
  size : Z
}.

Record WindowLog : Type := mkWindowLog {
  start_dt : Z;
  end_dt : Z;
  app_name : string;
  title : string;
  log_video_id : option Z
}.

(** What [print] writes, before formatting. *)
Inductive Output : Type :=
  | Starting (t : Z)
  | OpenWindow (t : Z) (app : string) (new_title : string)
  | LogLine (l : WindowLog).

(** ** The world outside the process, and the state of the process *)

Record World : Type := mkWorld {
  env_VIDEO_ROOT_PATH : string;            (* os.environ.get('VIDEO_ROOT_PATH', '') *)
  now : nat -> Z;                          (* the n-th datetime.now() *)
  wmctrl : nat -> string;                  (* text of the n-th wmctrl | grep pipe *)
  lsof : nat -> string;                    (* text of the n-th lsof | grep pipe *)
  commit_ok : nat -> bool;                 (* does the engine accept the n-th commit *)
  os_walk : string -> list (string * list string);  (* (root, files) of os.walk *)
  os_stat : string -> option Z             (* st_size, None when stat fails *)
}.

(** A value of [defaultdict(tuple)]: [None] is the empty tuple. *)
Abbreviation info := (option (Z * string)).

Record State : Type := mkState {
  last : gmap string (gmap nat info);
  stdout : list Output;
  video_table : list Video;
  window_log_table : list WindowLog;
  now_calls : nat;
  wmctrl_calls : nat;
  lsof_calls : nat;
  commit_calls : nat
}.

Definition set_last (f : gmap string (gmap nat info) -> gmap string (gmap nat info))
    (st : State) : State :=
  mkState (f (last st)) (stdout st) (video_table st) (window_log_table st)
          (now_calls st) (wmctrl_calls st) (lsof_calls st) (commit_calls st).

Definition M (A : Type) : Type := State -> result A * State.

Definition ret {A} (a : A) : M A := fun st => (Ok a, st).

Definition raise {A} (e : exn) : M A := fun st => (Raise e, st).

Definition bind {A B} (c : M A) (k : A -> M B) : M B :=
  fun st =>
    match c st with
    | (Ok a, st') => k a st'
    | (Raise e, st') => (Raise e, st')
    end.

(** [try: c  except e: h]. *)
Definition try_except {A} (c : M A) (e : exn) (h : M A) : M A :=
  fun st =>
    match c st with
    | (Raise e', st') => if exn_eqb e e' then h st' else (Raise e', st')
    | r => r
    end.

Declare Scope py_scope.
Delimit Scope py_scope with py.
Notation "'let*' x ':=' c 'in' k" := (bind c (fun x => k))
  (at level 10, x pattern, c at level 100, k at level 200) : py_scope.
Notation "c ;;; k" := (bind c (fun _ => k))
  (at level 100, k at level 200, right associativity) : py_scope.
Local Open Scope py_scope.

(** [for x in l: body x]. *)
Fixpoint for_ {A} (l : list A) (body : A -> M unit) : M unit :=
  match l with
  | [] => ret tt
  | x :: rest => body x ;;; for_ rest body
  end.

(** [enumerate(l)], counting from [i]. *)
Fixpoint enumerate_from {A} (i : nat) (l : list A) : list (nat * A) :=
  match l with
  | [] => []
  | x :: rest => (i, x) :: enumerate_from (S i) rest
  end.

Definition enumerate {A} (l : list A) : list (nat * A) := enumerate_from O l.

(** ** Primitive effects *)

Definition print (o : Output) : M unit :=
  fun st => (Ok tt,
    mkState (last st) (stdout st ++ [o]) (video_table st) (window_log_table st)
            (now_calls st) (wmctrl_calls st) (lsof_calls st) (commit_calls st)).

Definition datetime_now (w : World) : M Z :=
  fun st => (Ok (now w (now_calls st)),
    mkState (last st) (stdout st) (video_table st) (window_log_table st)
            (S (now_calls st)) (wmctrl_calls st) (lsof_calls st) (commit_calls st)).

Definition read_wmctrl (w : World) : M string :=
  fun st => (Ok (wmctrl w (wmctrl_calls st)),
    mkState (last st) (stdout st) (video_table st) (window_log_table st)
            (now_calls st) (S (wmctrl_calls st)) (lsof_calls st) (commit_calls st)).

Definition read_lsof (w : World) : M string :=
  fun st => (Ok (lsof w (lsof_calls st)),
    mkState (last st) (stdout st) (video_table st) (window_log_table st)
            (now_calls st) (wmctrl_calls st) (S (lsof_calls st)) (commit_calls st)).

(** ** Constants of the module *)

Definition EXTENSIONS : list string :=
  [".asf"; ".avi"; ".divx"; ".f4v"; ".flc"; ".flv"; ".m4v"; ".mkv";
   ".mov"; ".mp4"; ".mpa"; ".mpeg"; ".mpg"; ".ogv"; ".wmv"].

Definition MINIMUM_VIDEO_SIZE : Z := 10 * 1000 * 1000.

Definition VIDEO_ROOT_PATH (w : World) : string :=
  Py.path_join (env_VIDEO_ROOT_PATH w) "".

Definition APPS : list string :=
  ["vlc.Vlc"; "feh.feh"; "google-chrome"; "Chromium-browser.Chromium-browser"].

Definition check_video_root_path (w : World) : M unit :=
  if Py.truthy (VIDEO_ROOT_PATH w) then ret tt else raise ValueError.

(** ** The session: the queries and commits the module issues *)

(** [session.query(Video).filter(Video.path == p).one()]. *)
Definition query_video_one (p : string) : M Video :=
  fun st =>
    match List.filter (fun v => String.eqb (path v) p) (video_table st) with
    | [] => (Raise NoResultFound, st)
    | [v] => (Ok v, st)
    | _ => (Raise MultipleResultsFound, st)
    end.

(** [session.add(window_log); session.commit()].  The table has no
    constraint a row built by the monitor can break; the commit fails only
    when the engine refuses it. *)
Definition add_commit_window_log (w : World) (l : WindowLog) : M unit :=
  fun st =>
    let n := commit_calls st in
    if commit_ok w n
    then (Ok tt,
      mkState (last st) (stdout st) (video_table st) (window_log_table st ++ [l])
              (now_calls st) (wmctrl_calls st) (lsof_calls st) (S n))
    else (Raise OperationalError,
      mkState (last st) (stdout st) (video_table st) (window_log_table st)
              (now_calls st) (wmctrl_calls st) (lsof_calls st) (S n)).

(** The integer primary key the engine gives a new row: one more than the
    largest in the table. *)
Definition next_video_id (t : list Video) : Z :=
  1 + fold_right Z.max 0 (map video_id t).

Definition path_in_table (p : string) (t : list Video) : bool :=
  existsb (fun v => String.eqb (path v) p) t.

(** [session.add(Video(path=p, size=sz)); session.commit()].  Column [path]
    is declared [unique=True]: a second row with a path of the table is
    refused with an integrity error and the table keeps its rows. *)
Definition add_commit_video (w : World) (p : string) (sz : Z) : M unit :=
  fun st =>
    let n := commit_calls st in
    let t := video_table st in
    if path_in_table p t
    then (Raise IntegrityError,
      mkState (last st) (stdout st) t (window_log_table st)
              (now_calls st) (wmctrl_calls st) (lsof_calls st) (S n))
    else if commit_ok w n
    then (Ok tt,
      mkState (last st) (stdout st) (t ++ [mkVideo (next_video_id t) p sz])
              (window_log_table st)
              (now_calls st) (wmctrl_calls st) (lsof_calls st) (S n))
    else (Raise OperationalError,
      mkState (last st) (stdout st) t (window_log_table st)
              (now_calls st) (wmctrl_calls st) (lsof_calls st) (S n)).

(** ** Dictionaries in insertion order *)

Fixpoint dict_get {V} (k : string) (d : list (string * V)) : option V :=
  match d with
  | [] => None
  | (k', v) :: rest => if String.eqb k' k then Some v else dict_get k rest
  end.

(** [d[k] = v]: in place for a key of [d], at the end for a new one. *)
Fixpoint dict_set {V} (k : string) (v : V) (d : list (string * V))
    : list (string * V) :=
  match d with
  | [] => [(k, v)]
  | (k', v') :: rest =>
      if String.eqb k' k then (k', v) :: rest else (k', v') :: dict_set k v rest
  end.

Definition dict_keys {V} (d : list (string * V)) : list string := map fst d.

(** [d[k].extend(l)] (and [d[k].append(x)] with [l = [x]]). *)
Definition dict_extend (k : string) (l : list string)
    (d : list (string * list string)) : M (list (string * list string)) :=
  match dict_get k d with
  | Some old => ret (dict_set k (old ++ l)%list d)
  | None => raise KeyError
  end.

Fixpoint foldM {A B} (f : B -> A -> M B) (b : B) (l : list A) : M B :=
  match l with
  | [] => ret b
  | x :: rest => let* b' := f b x in foldM f b' rest
  end.

(** ** list_vlc_open_files and list_windows *)

Definition newline : ascii := "010"%char.

(** The list comprehension over the lines of the text read from the pipe. *)
Definition open_files_of (w : World) (full_path : bool) (files : string)
    : list string :=
  map (fun file =>
         if negb full_path
         then Py.replace (VIDEO_ROOT_PATH w) "" (Py.tail file)
         else Py.tail file)
      (List.filter Py.truthy (Py.split_on newline (Py.strip files))).

Definition list_vlc_open_files (w : World) (full_path : bool) : M (list string) :=
  check_video_root_path w ;;;
  let* files := read_lsof w in
  ret (open_files_of w full_path files).

(** The body of the loop over the lines of the pipe. *)
Definition list_windows_line (w : World) (windows : list (string * list string))
    (line : string) : M (list (string * list string)) :=
  let words := Py.split_ws line in
  match words with
  | [] => ret windows
  | _ :: _ =>
      match nth_error words 2 with
      | None => raise IndexError
      | Some app =>
          let windows :=
            if existsb (String.eqb app) (dict_keys windows) then windows
            else dict_set app [] windows in
          let title := Py.join " " (skipn 4 words) in
          if Py.startswith "vlc" app
          then
            let title := "" in
            let* open_files := list_vlc_open_files w false in
            match open_files with
            | _ :: _ => dict_extend app open_files windows
            | [] => dict_extend app [title] windows
            end
          else dict_extend app [title] windows
      end
  end.

Definition pad_titles (value : list string) : list string :=
  match value with
  | [] => [""]
  | _ :: _ => value
  end.

Definition list_windows (w : World) : M (list (string * list string)) :=
  let* lines := read_wmctrl w in
  let* windows :=
    foldM (list_windows_line w) (map (fun app => (app, [])) APPS)
          (Py.split_on newline lines) in
  ret (map (fun kv => (fst kv, pad_titles (snd kv))) windows).

(** ** window_monitor *)

(** [last[app][index]], where [last[app]] is a [defaultdict(tuple)]: reading
    a missing index stores the empty tuple there. *)
Definition last_getitem (app : string) (index : nat) : M info :=
  fun st =>
    match last st !! app with
    | None => (Raise KeyError, st)
    | Some d =>
        match d !! index with
        | Some v => (Ok v, st)
        | None => (Ok None, set_last (fun m => <[app := <[index := None]> d]> m) st)
        end
    end.

(** [last[app][index] = v]. *)
Definition last_setitem (app : string) (index : nat) (v : info) : M unit :=
  fun st =>
    match last st !! app with
    | None => (Raise KeyError, st)
    | Some d => (Ok tt, set_last (fun m => <[app := <[index := v]> d]> m) st)
    end.

(** [if app not in last.keys(): last[app] = defaultdict(tuple)]. *)
Definition ensure_app (app : string) : M unit :=
  fun st =>
    match last st !! app with
    | Some _ => (Ok tt, st)
    | None => (Ok tt, set_last (fun m => <[app := ∅]> m) st)
    end.

(** [last[app][index] and last[app][index][1] == new_title]. *)
Definition same_title (cur : info) (new_title : string) : bool :=
  match cur with
  | Some (_, t) => String.eqb t new_title
  | None => false
  end.

(** The body of the loop over [enumerate(new_titles)]. *)
Definition monitor_slot (w : World) (save_logs : bool) (monitor_start_time : Z)
    (app : string) (index : nat) (new_title : string) : M unit :=
  let* cur := last_getitem app index in
  if same_title cur new_title then ret tt
  else
    let* last_info := last_getitem app index in
    let start_time :=
      match last_info with Some (t, _) => t | None => monitor_start_time end in
    let* end_time := datetime_now w in
    last_setitem app index (Some (end_time, new_title)) ;;;
    (if Py.truthy new_title then print (OpenWindow end_time app new_title)
     else ret tt) ;;;
    let old_title := match last_info with Some (_, t) => t | None => "" end in
    if negb (Py.truthy old_title) then ret tt
    else
      let* video_id :=
        try_except
          (let* video := query_video_one old_title in ret (Some (video_id video)))
          NoResultFound
          (ret None) in
      let window_log := mkWindowLog start_time end_time app old_title video_id in
      print (LogLine window_log) ;;;
      if save_logs then add_commit_window_log w window_log else ret tt.

(** The body of the loop over the items of the snapshot. *)
Definition monitor_app (w : World) (save_logs : bool) (monitor_start_time : Z)
    (item : string * list string) : M unit :=
  let app := fst item in
  let new_titles := snd item in
  ensure_app app ;;;
  for_ (enumerate new_titles)
       (fun it => monitor_slot w save_logs monitor_start_time app (fst it) (snd it)).

(** One turn of [while True]: the sleep, then the snapshot and its items. *)
Definition monitor_poll (w : World) (save_logs : bool) (monitor_start_time : Z)
    : M unit :=
  let* items := list_windows w in
  for_ items (monitor_app w save_logs monitor_start_time).

(** [polls] turns of the loop, then the KeyboardInterrupt that ends it. *)
Fixpoint monitor_loop (w : World) (save_logs : bool) (monitor_start_time : Z)
    (polls : nat) : M unit :=
  match polls with
  | O => ret tt
  | S n =>
      monitor_poll w save_logs monitor_start_time ;;;
      monitor_loop w save_logs monitor_start_time n
  end.

Definition window_monitor (w : World) (save_logs : bool) (polls : nat) : M unit :=
  (fun st => (Ok tt, set_last (fun _ => ∅) st)) ;;;
  let* monitor_start_time := datetime_now w in
  print (Starting monitor_start_time) ;;;
  monitor_loop w save_logs monitor_start_time polls.

(** ** scan_video_files *)

Definition video_extension (file : string) : bool :=
  existsb (String.eqb (Py.lower (Py.splitext_ext file))) EXTENSIONS.

Definition partial_paths (w : World) : list string :=
  flat_map (fun rf =>
              map (fun file =>
                     Py.replace (VIDEO_ROOT_PATH w) "" (Py.path_join (fst rf) file))
                  (List.filter video_extension (snd rf)))
           (os_walk w (VIDEO_ROOT_PATH w)).

(** The body of the loop over the partial paths. *)
Definition scan_file (w : World) (partial_path : string) : M unit :=
  let full_path := Py.path_join (VIDEO_ROOT_PATH w) partial_path in
  match os_stat w full_path with
  | None => raise OSError
  | Some size =>
      if MINIMUM_VIDEO_SIZE <? size then add_commit_video w partial_path size
      else ret tt
  end.

Definition scan_video_files (w : World) : M unit :=
  check_video_root_path w ;;;
  for_ (partial_paths w) (scan_file w).

(** ** Views of the state used by the statements *)

(** The stored (timestamp, title) of a slot, [None] when the slot was never
    observed. *)
Definition history (st : State) (app : string) (index : nat) : info :=
  match last st !! app with
  | Some d => default None (d !! index)
  | None => None
  end.

Definition init_state : State :=
  mkState ∅ [] [] [] O O O O.

(** The constraint [unique=True] of column [path], as a property of a table. *)
Definition unique_paths (t : list Video) : Prop := NoDup (map path t).

(** The slot was never observed: its application has its dictionary (the loop
    over the items creates it before the loop over the titles) and nothing but
    the empty tuple is stored at the index. *)
Definition never_observed (st : State) (app : string) (index : nat) : Prop :=
  exists d, last st !! app = Some d /\ default None (d !! index) = None.

(** The log records reported on the output, in order. *)
Definition reported_logs (out : list Output) : list WindowLog :=
  flat_map (fun o => match o with LogLine l => [l] | _ => [] end) out.

(** A file the scan saves: it can be read and is larger than the minimum. *)
Definition qualifies (w : World) (partial_path : string) : Prop :=
  exists size,
    os_stat w (Py.path_join (VIDEO_ROOT_PATH w) partial_path) = Some size /\
    MINIMUM_VIDEO_SIZE < size.

(** The state after the bookkeeping of a title change: the clock was read
    once, the slot holds the new title, a non-empty one was announced. *)
Definition after_change (w : World) (app : string) (index : nat)
    (new_title : string) (d : gmap nat info) (st : State) : State :=
  let end_time := now w (now_calls st) in
  mkState (<[app := <[index := Some (end_time, new_title)]> d]> (last st))
          (if Py.truthy new_title
           then (stdout st ++ [OpenWindow end_time app new_title])%list
           else stdout st)
          (video_table st) (window_log_table st) (S (now_calls st))
          (wmctrl_calls st) (lsof_calls st) (commit_calls st).

(** The last two statements of the loop body: report, then persist if asked. *)
Definition emit (w : World) (save_logs : bool) (l : WindowLog) (st : State)
    : result unit * State :=
  (if save_logs then add_commit_window_log w l else ret tt)
    (mkState (last st) (stdout st ++ [LogLine l])%list (video_table st)
             (window_log_table st) (now_calls st) (wmctrl_calls st)
             (lsof_calls st) (commit_calls st)).

(** The link of a record: the id of the one row that matches, if any. *)
Definition link_of (rows : list Video) : option Z :=
  match rows with
  | [v] => Some (video_id v)
  | _ => None
  end.

(** ** Computations and the log store *)

(** The state with another log table and another count of commits. *)
Definition with_log (t : list WindowLog) (n : nat) (st : State) : State :=
  mkState (last st) (stdout st) (video_table st) t
          (now_calls st) (wmctrl_calls st) (lsof_calls st) n.

(** A computation that neither reads nor writes the log table and the count
    of commits. *)
Definition log_blind {A} (c : M A) : Prop :=
  forall t n st, c (with_log t n st) = (fst (c st), with_log t n (snd (c st))).

(** Two states that differ at most in the log table and the count of
    commits. *)
Definition same_but_log (s1 s2 : State) : Prop :=
  with_log [] O s1 = with_log [] O s2.

(** [c1] and [c2] do the same from such states: same outcome, and final
    states that again differ at most in the log. *)
Definition same_run {A} (c1 c2 : M A) : Prop :=
  forall s1 s2, same_but_log s1 s2 ->
    fst (c1 s1) = fst (c2 s2) /\
    same_but_log (snd (c1 s1)) (snd (c2 s2)).

(** A refused commit ends the computation: it raises the engine's error and
    no commit follows. *)
Definition stops_at_refused_commit (w : World) {A} (c : M A) : Prop :=
  forall st,
    (commit_calls st <= commit_calls (snd (c st)))%nat /\
    forall k, (commit_calls st <= k < commit_calls (snd (c st)))%nat ->
              commit_ok w k = false ->
              fst (c st) = Raise OperationalError /\
              commit_calls (snd (c st)) = S k.

(** ** Well-formed text of the window list *)

(** A line of [wmctrl -l -x] has the window id, the desktop, the class, the
    host and the title: a line with a word has the class as its third. *)
Definition line_ok (line : string) : bool :=
  match Py.split_ws line with
  | [] => true
  | words => (3 <=? length words)%nat
  end.

(** The class of the window of a line, if the line has one. *)
Definition line_app (line : string) : option string :=
  nth_error (Py.split_ws line) 2.

(** The lines of the text the next snapshot reads. *)
Definition snapshot_lines (w : World) (st : State) : list string :=
  Py.split_on newline (wmctrl w (wmctrl_calls st)).

(** The titles a window line adds to the list of its application. *)
Definition line_titles (w : World) (st : State) (line : string) (app : string)
    : list string :=
  if Py.startswith "vlc" app
  then let open_files := open_files_of w false (lsof w (lsof_calls st)) in
       match open_files with
       | [] => [""]
       | _ :: _ => open_files
       end
  else [Py.join " " (skipn 4 (Py.split_ws line))].

(** The state after a window line: the player was asked for its files if the
    line is one of its windows. *)
Definition after_line (st : State) (app : string) : State :=
  if Py.startswith "vlc" app
  then mkState (last st) (stdout st) (video_table st) (window_log_table st)
               (now_calls st) (wmctrl_calls st) (S (lsof_calls st)) (commit_calls st)
  else st.

(** ** The claims that fail, as the specification states them *)

(** The claim of the specification that the first segment of a slot starts
    at the start of the monitor, on a run of two polls from the initial state.
    A record needs a stored title, only the first poll can have stored one
    before the second, and a poll visits a slot once: every record of such a
    run closes the first title ever observed in its slot. *)
Definition first_segment_starts_at_monitor_start (w : World) : Prop :=
  forall l,
    In l (window_log_table (snd (window_monitor w true 2 init_state))) ->
    start_dt l = now w 0.

(** The claim of the specification that the dry run reports what the
    persisting run reports, on a run of [polls] polls from the initial state. *)
Definition dry_run_reports_the_same (w : World) (polls : nat) : Prop :=
  stdout (snd (window_monitor w false polls init_state))
  = stdout (snd (window_monitor w true polls init_state)).

(** The claim of the specification that a failed write does not end the run,
    on a run of [polls] polls from the initial state: the run does not end
    with the engine's error and takes all its snapshots. *)
Definition survives_failed_writes (w : World) (polls : nat) : Prop :=
  fst (window_monitor w true polls init_state) <> Raise OperationalError /\
  wmctrl_calls (snd (window_monitor w true polls init_state)) = polls.

(** ** Concrete worlds and states used by the examples *)

Definition nl : string := String newline "".

(** The clock gives 100, 110, 120, ...; feh shows one window, titled A at
    the first poll, B at the second and C from the third on; VLC has no
    window; the video root is /v/; [accept] says whether commits succeed. *)
Definition w_feh (accept : bool) : World :=
  mkWorld "/v" (fun n => 100 + 10 * Z.of_nat n)
    (fun n => match n with
              | O => "0x01 0 feh.feh host A"
              | 1%nat => "0x01 0 feh.feh host B"
              | _ => "0x01 0 feh.feh host C"
              end)
    (fun _ => "") (fun _ => accept) (fun _ => []) (fun _ => None).

(** A state in the middle of a run: VLC plays movies/x.mkv since time 150,
    feh shows Doc since 170 and its second slot holds the empty title; the
    catalog has one video. *)
Definition st_mid : State :=
  mkState
    (<["vlc.Vlc" := <[O := Some (150, "movies/x.mkv")]> ∅]>
       (<["feh.feh" := <[1%nat := Some (175, "")]> (<[O := Some (170, "Doc")]> ∅)]> ∅))
    [Starting 100] [mkVideo 7 "movies/x.mkv" 20000000] [] 8 2 1 0.

(** VLC has no window at the first poll and one at the second and the
    third; it has two files open when first asked, none afterwards. *)
Definition w_vlc : World :=
  mkWorld "/v" (fun n => 100 + 10 * Z.of_nat n)
    (fun n => match n with
              | 1%nat | 2%nat => "0x02 0 vlc.Vlc host VLC media player"
              | _ => ""
              end)
    (fun n => match n with
              | O => "n/v/movies/x.mkv" ++ nl ++ "n/v/movies/y.mkv" ++ nl
              | _ => ""
              end)
    (fun _ => true) (fun _ => []) (fun _ => None).

(** A video directory with one video of 20 MB, one of 5 bytes and a text
    file; every commit is accepted. *)
Definition w_scan : World :=
  mkWorld "/v" (fun n => 100 + 10 * Z.of_nat n) (fun _ => "") (fun _ => "")
    (fun _ => true)
    (fun top => if String.eqb top "/v/"
                then [("/v/movies", ["x.mkv"; "notes.txt"; "small.avi"])]
                else [])
    (fun p => if String.eqb p "/v/movies/x.mkv" then Some 20000000
              else if String.eqb p "/v/movies/small.avi" then Some 5
              else None).

(** ** The queries of the module *)

(** A query without an order reads the rows of a table in the order of
    their integer keys, which is the order in which they were added: the
    order of the lists [video_table] and [window_log_table]. *)

(** [path LIKE pattern] as SQLite evaluates it: a percent sign stands for any
    text, an underscore for any one character, and the other characters are
    compared without regard to the case of ASCII letters. *)
Fixpoint like (pattern s : string) : bool :=
  match pattern with
  | EmptyString => match s with EmptyString => true | String _ _ => false end
  | String c pattern' =>
      if Ascii.eqb c "%"
      then (fix from_some_suffix (s : string) : bool :=
              like pattern' s
              || match s with
                 | EmptyString => false
                 | String _ s' => from_some_suffix s'
                 end) s
      else match s with
           | EmptyString => false
           | String d s' =>
               (Ascii.eqb c "_" || Ascii.eqb (Py.lower_char c) (Py.lower_char d))
               && like pattern' s'
           end
  end.

(** The argument [search] of [query_videos_by_path]: nothing, a string or a
    list of strings. *)
Inductive search_arg : Type :=
  | SearchNone
  | SearchStr (s : string)
  | SearchList (l : list string).

(** Truth value of the argument: [None], the empty string and the empty list
    are false. *)
Definition search_truthy (search : search_arg) : bool :=
  match search with
  | SearchNone => false
  | SearchStr s => Py.truthy s
  | SearchList [] => false
  | SearchList (_ :: _) => true
  end.

(** The pattern made from the words of a query. *)
Definition clean_query_of (words : list string) : string :=
  "%" ++ Py.join "%" words ++ "%".

(** ['%{}%'.format('%'.join(query_string.split()))]. *)
Definition clean_query (query_string : string) : string :=
  clean_query_of (Py.split_ws query_string).

(** [query_to_list]: the query [sa_filter] is run on the tables when the
    function asks for all its rows, after the check of the video root. *)
Definition query_to_list (w : World) (sa_filter : State -> list Video)
    : M (list string) :=
  check_video_root_path w ;;;
  (fun st =>
     (Ok (map (fun video => Py.path_join (VIDEO_ROOT_PATH w) (path video))
              (sa_filter st)),
      st)).

Definition query_videos_by_path (w : World) (search : search_arg)
    : M (list string) :=
  let sa_filter :=
    if search_truthy search
    then
      let search :=
        match search with
        | SearchStr s => [s]
        | SearchList l => l
        | SearchNone => []
        end in
      let conditions := map clean_query search in
      fun st =>
        List.filter (fun v => existsb (fun pattern => like pattern (path v)) conditions)
                    (video_table st)
    else fun st => video_table st in
  query_to_list w sa_filter.

(** The rows the outer join keeps for a video: the video has no log row
    whose [video_id] is its own. *)
Definition not_logged (logs : list WindowLog) (v : Video) : bool :=
  negb (existsb (fun l => match log_video_id l with
                          | Some i => Z.eqb i (video_id v)
                          | None => false
                          end) logs).

(** The rows of the outer join of the videos with the log in which the log
    side is null. *)
Definition not_logged_rows (st : State) : list Video :=
  List.filter (not_logged (window_log_table st)) (video_table st).

Definition query_not_logged_videos (w : World) : M (list string) :=
  query_to_list w not_logged_rows.

(** The full path the queries return for a row. *)
Definition full_path_of (w : World) (video : Video) : string :=
  Py.path_join (VIDEO_ROOT_PATH w) (path video).

(** ** The playlist *)

(** [is_vlc_running]: [check_output] raises when [pidof] exits with a status
    other than zero. *)
Definition is_vlc_running (pidof_status : nat) : bool :=
  Nat.eqb pidof_status 0.

(** The argument [videos] of [add_to_playlist]: a string or a list. *)
Inductive videos_arg : Type :=
  | VideoStr (s : string)
  | VideoList (l : list string).

(** What a call of [add_to_playlist] does: the error it logs, the text it
    writes to the pipe of [xargs -0 vlc], the number it prints, and what it
    returns. *)
Record playlist_call : Type := mkPlaylistCall {
  logged_error : bool;
  pipe_text : option string;
  printed_count : option nat;
  returned : bool
}.

Definition NUL : ascii := "000"%char.

(** [[videos] if isinstance(videos, str) else videos]. *)
Definition videos_of (videos : videos_arg) : list string :=
  match videos with
  | VideoStr s => [s]
  | VideoList l => l
  end.

Definition add_to_playlist (pidof_status : nat) (videos : videos_arg)
    : playlist_call :=
  if negb (is_vlc_running pidof_status)
  then mkPlaylistCall true None None false
  else
    let videos := videos_of videos in
    mkPlaylistCall false (Some (Py.join (String NUL "") videos))
                   (Some (length videos)) true.

(** ** Notions used by the further properties *)

(** Does [old] occur in [s]? *)
Fixpoint occurs (old s : string) : bool :=
  String.prefix old s
  || match s with
     | EmptyString => false
     | String _ s' => occurs old s'
     end.

Fixpoint has_char (c : ascii) (s : string) : bool :=
  match s with
  | EmptyString => false
  | String d s' => Ascii.eqb c d || has_char c s'
  end.

(** [s] has the words [words] in it, in this order, with any text before,
    between and after them, and in any case of the ASCII letters. *)
Fixpoint words_in_order (words : list string) (s : string) : Prop :=
  match words with
  | [] => True
  | word :: rest =>
      exists before found after,
        s = before ++ found ++ after /\
        Py.lower found = Py.lower word /\
        words_in_order rest after
  end.

(** What a computation establishes from states where [P] holds: [Q] of its
    outcome and final state. *)
Definition hoare {A} (P : State -> Prop) (c : M A)
    (Q : result A -> State -> Prop) : Prop :=
  forall st, P st -> Q (fst (c st)) (snd (c st)).

(** A postcondition that asks [I] of the state after a normal return and [E]
    of the exception and the state after a raise. *)
Definition outcome {A} (I : State -> Prop) (E : exn -> State -> Prop)
    : result A -> State -> Prop :=
  fun r st => match r with Ok _ => I st | Raise e => E e st end.

(** What one turn of the loop body of the monitor can do to the state. *)
Inductive slot_effect (w : World) (save_logs : bool) (app : string) (index : nat)
    (new_title : string) (st : State) : result unit -> State -> Prop :=
  | slot_no_dict :
      last st !! app = None ->
      slot_effect w save_logs app index new_title st (Raise KeyError) st
  | slot_same t :
      history st app index = Some (t, new_title) ->
      slot_effect w save_logs app index new_title st (Ok tt) st
  | slot_seed d :
      last st !! app = Some d ->
      history st app index = None ->
      slot_effect w save_logs app index new_title st (Ok tt)
                  (after_change w app index new_title d st)
  | slot_from_empty d t :
      last st !! app = Some d ->
      history st app index = Some (t, "") -> new_title <> "" ->
      slot_effect w save_logs app index new_title st (Ok tt)
                  (after_change w app index new_title d st)
  | slot_ambiguous d t old_title :
      last st !! app = Some d ->
      history st app index = Some (t, old_title) ->
      old_title <> "" -> old_title <> new_title ->
      (2 <= length (List.filter (fun v => String.eqb (path v) old_title)
                                (video_table st)))%nat ->
      slot_effect w save_logs app index new_title st (Raise MultipleResultsFound)
                  (after_change w app index new_title d st)
  | slot_emit d t old_title :
      last st !! app = Some d ->
      history st app index = Some (t, old_title) ->
      old_title <> "" -> old_title <> new_title ->
      (length (List.filter (fun v => String.eqb (path v) old_title)
                           (video_table st)) <= 1)%nat ->
      let l := mkWindowLog t (now w (now_calls st)) app old_title
                 (link_of (List.filter (fun v => String.eqb (path v) old_title)
                                       (video_table st))) in
      let st1 := after_change w app index new_title d st in
      slot_effect w save_logs app index new_title st
                  (fst (emit w save_logs l st1)) (snd (emit w save_logs l st1)).

(** The state after some readings of the two pipes. *)
Definition after_pipes (st : State) (n_wmctrl n_lsof : nat) : State :=
  mkState (last st) (stdout st) (video_table st) (window_log_table st)
          (now_calls st) (wmctrl_calls st + n_wmctrl) (lsof_calls st + n_lsof)
          (commit_calls st).

(** The state in which the loop of the monitor starts: an empty history, the
    clock read once, the start announced. *)
Definition monitor_started (w : World) (st : State) : State :=
  mkState ∅ (stdout st ++ [Starting (now w (now_calls st))])%list (video_table st)
          (window_log_table st) (S (now_calls st)) (wmctrl_calls st)
          (lsof_calls st) (commit_calls st).

(** Is the line a window of the application? *)
Definition is_line_of (app : string) (line : string) : bool :=
  match line_app line with
  | Some a => String.eqb a app
  | None => false
  end.

(** The titles of the windows of an application in the lines, in the order
    of the lines: for each, the words after the fourth, joined by a space. *)
Definition window_titles (app : string) (lines : list string) : list string :=
  map (fun line => Py.join " " (skipn 4 (Py.split_ws line)))
      (List.filter (is_line_of app) lines).

(** The list of an application after some more titles: no key is made for
    an application without a list and without a title. *)
Definition extend_titles (old : option (list string)) (titles : list string)
    : option (list string) :=
  match old, titles with
  | None, [] => None
  | _, _ => Some (default [] old ++ titles)%list
  end.

(** A row of the catalog that stands for a file: the file is at the path of
    the row under the video root and has the size of the row, which is above
    the minimum. *)
Definition row_of_file (w : World) (v : Video) : Prop :=
  os_stat w (Py.path_join (VIDEO_ROOT_PATH w) (path v)) = Some (size v) /\
  MINIMUM_VIDEO_SIZE < size v.

(** The clock never goes back. *)
Definition monotone_clock (w : World) : Prop :=
  forall n m, (n <= m)%nat -> now w n <= now w m.

(** ** Further worlds for the examples *)

(** feh shows a window at the first poll; the second line of the second
    poll has its class missing. *)
Definition w_short_line : World :=
  mkWorld "/v" (fun n => 100 + 10 * Z.of_nat n)
    (fun n => match n with
              | O => "0x01 0 feh.feh host A"
              | _ => "0x01 0 feh.feh host A" ++ nl ++ "0x02 0"
              end)
    (fun _ => "") (fun _ => true) (fun _ => []) (fun _ => None).

(** The variable VIDEO_ROOT_PATH is not set and VLC has a window. *)
Definition w_no_root : World :=
  mkWorld "" (fun n => 100 + 10 * Z.of_nat n)
    (fun _ => "0x01 0 feh.feh host A" ++ nl ++ "0x02 0 vlc.Vlc host VLC media player")
    (fun _ => "n/v/movies/x.mkv") (fun _ => true) (fun _ => []) (fun _ => None).

(** A state with two videos in the catalog, the first of them linked by a
    log record. *)
Definition st_catalog : State :=
  mkState ∅ []
    [mkVideo 1 "movies/The Matrix.mkv" 20000000; mkVideo 2 "series/x_files/s01e01.avi" 30000000]
    [mkWindowLog 150 180 "vlc.Vlc" "movies/The Matrix.mkv" (Some 1)] 0 0 0 1.


(** ** The slots of the player in a snapshot *)

(** The text is in ASCII: the white space of [str.split()] and
    [str.strip()] in it is the white space of [Py.isspace]. *)
Definition ascii_text (s : string) : bool :=
  forallb (fun c => (nat_of_ascii c <? 128)%nat) (list_ascii_of_string s).

(** What a window of the player adds to the list of its application when
    the player is asked for its files at the [n]-th reading of its pipe:
    the files, or the empty title when there is none. *)
Definition player_block (w : World) (n : nat) : list string :=
  match open_files_of w false (lsof w n) with
  | [] => [""]
  | _ :: _ => open_files_of w false (lsof w n)
  end.

(** The slots the window lines give an application of the player.  Every
    line of a window whose class starts with vlc asks the player anew, the
    next reading of the pipe being the [n]-th; the lines of the application
    itself add what the player reports then. *)
Fixpoint player_slots (w : World) (n : nat) (app : string) (lines : list string)
    : list string :=
  match lines with
  | [] => []
  | line :: rest =>
      match line_app line with
      | Some a =>
          if Py.startswith "vlc" a
          then ((if String.eqb a app then player_block w n else [])
                ++ player_slots w (S n) app rest)%list
          else player_slots w n app rest
      | None => player_slots w n app rest
      end
  end.

(** The claim of the specification that the snapshot has one slot per file
    the player has open, in the order of the files: whenever the player has a
    window and reports a file, the list of its application in the snapshot is
    the list of the files it reports. *)
Definition one_slot_per_open_file (w : World) (st : State) : Prop :=
  forall items st' app titles,
    list_windows w st = (Ok items, st') ->
    Py.startswith "vlc" app = true ->
    (exists line, In line (snapshot_lines w st) /\ line_app line = Some app) ->
    dict_get app items = Some titles ->
    open_files_of w false (lsof w (lsof_calls st)) <> [] ->
    titles = open_files_of w false (lsof w (lsof_calls st)).

(** VLC has two windows and two files open. *)
Definition w_two_players : World :=
  mkWorld "/v" (fun n => 100 + 10 * Z.of_nat n)
    (fun _ => "0x02 0 vlc.Vlc host VLC media player" ++ nl
              ++ "0x03 0 vlc.Vlc host Playlist")
    (fun _ => "n/v/movies/x.mkv" ++ nl ++ "n/v/movies/y.mkv" ++ nl)
    (fun _ => true) (fun _ => []) (fun _ => None).


(** * Properties *)

Ltac sproj :=
  cbn [last stdout video_table window_log_table now_calls wmctrl_calls
       lsof_calls commit_calls negb exn_eqb same_title fst snd].

Ltac slot_unfold :=
  unfold monitor_slot, bind, last_getitem, last_setitem, datetime_now, print, ret,
    try_except, query_video_one, set_last.

(** ** The string primitives on examples *)

Example split_on_example :
  Py.split_on newline ("a b" ++ nl ++ "c" ++ nl) = ["a b"; "c"; ""].
Proof. reflexivity. Qed.

Example split_ws_example :
  Py.split_ws "  0x01  0 vlc.Vlc  host  My  title " 
  = ["0x01"; "0"; "vlc.Vlc"; "host"; "My"; "title"].
Proof. reflexivity. Qed.

Example join_example :
  Py.join " " (skipn 4 (Py.split_ws "0x01 0 feh.feh host My  title")) = "My title".
Proof. reflexivity. Qed.

Example strip_example : Py.strip (" n/v/a.mkv" ++ nl ++ nl) = "n/v/a.mkv".
Proof. reflexivity. Qed.

Example replace_example : Py.replace "/v/" "" "/v/movies/x.mkv" = "movies/x.mkv".
Proof. reflexivity. Qed.

Example replace_overlap_example : Py.replace "aa" "b" "aaa" = "ba".
Proof. reflexivity. Qed.

Example path_join_examples :
  Py.path_join "/v" "" = "/v/" /\ Py.path_join "" "" = "" /\
  Py.path_join "/v/" "movies/x.mkv" = "/v/movies/x.mkv" /\
  Py.path_join "/v/movies" "x.mkv" = "/v/movies/x.mkv".
Proof. repeat split. Qed.

Example splitext_examples :
  Py.splitext_ext "x.MKV" = ".MKV" /\ Py.splitext_ext ".hidden" = "" /\
  Py.splitext_ext "archive.tar.gz" = ".gz" /\ Py.splitext_ext "noext" = "".
Proof. repeat split. Qed.

Example video_extension_examples :
  video_extension "x.MKV" = true /\ video_extension "notes.txt" = false.
Proof. repeat split. Qed.

(** ** Strings and tables *)

Lemma truthy_true s : s <> "" -> Py.truthy s = true.
Proof.
  intros H. unfold Py.truthy.
  destruct (String.eqb_spec s ""); [contradiction | reflexivity].
Qed.

Lemma truthy_empty : Py.truthy "" = false.
Proof. reflexivity. Qed.

Lemma eqb_false (a b : string) : a <> b -> String.eqb a b = false.
Proof. intros H. destruct (String.eqb_spec a b); [contradiction | reflexivity]. Qed.

Lemma filter_path_absent p t :
  (forall v, In v t -> path v <> p) ->
  List.filter (fun v => String.eqb (path v) p) t = [].
Proof.
  induction t as [|v t IH]; intros H; [reflexivity|].
  cbn [List.filter]. rewrite eqb_false by (apply H; left; reflexivity).
  apply IH. intros v' Hv'. apply H. right. exact Hv'.
Qed.

Lemma filter_path_unique p t v :
  unique_paths t -> In v t -> path v = p ->
  List.filter (fun v => String.eqb (path v) p) t = [v].
Proof.
  unfold unique_paths. induction t as [|x t IH]; intros Hnd Hin Hp; [destruct Hin|].
  cbn [map] in Hnd. apply NoDup_cons in Hnd as [Hx Hnd].
  cbn [List.filter]. destruct Hin as [->|Hin].
  - rewrite Hp, String.eqb_refl. f_equal.
    apply filter_path_absent. intros v' Hv' E. apply Hx.
    rewrite Hp, <- E. apply list_elem_of_In, in_map, Hv'.
  - rewrite eqb_false.
    + apply IH; assumption.
    + intros E. apply Hx. rewrite E, <- Hp.
      apply list_elem_of_In, in_map, Hin.
Qed.

(** ** The loop body of the monitor in closed form *)

Lemma history_Some st app index x :
  history st app index = Some x ->
  exists d, last st !! app = Some d /\ d !! index = Some (Some x).
Proof.
  unfold history. destruct (last st !! app) as [d|] eqn:Hd; [|discriminate].
  destruct (d !! index) as [v|] eqn:Hi; simpl; [|discriminate].
  intros ->. eauto.
Qed.

Lemma history_after_change w app index new_title d st :
  history (after_change w app index new_title d st) app index
  = Some (now w (now_calls st), new_title).
Proof.
  unfold history, after_change. sproj.
  rewrite lookup_insert_eq. cbn. rewrite lookup_insert_eq. reflexivity.
Qed.

Lemma monitor_slot_known w save start app index new_title st d t1 old_title :
  last st !! app = Some d -> d !! index = Some (Some (t1, old_title)) ->
  monitor_slot w save start app index new_title st =
  if String.eqb old_title new_title then (Ok tt, st)
  else
    let st1 := after_change w app index new_title d st in
    if negb (Py.truthy old_title) then (Ok tt, st1)
    else
      let mk := mkWindowLog t1 (now w (now_calls st)) app old_title in
      match List.filter (fun v => String.eqb (path v) old_title) (video_table st) with
      | [] => emit w save (mk None) st1
      | [v] => emit w save (mk (Some (video_id v))) st1
      | _ => (Raise MultipleResultsFound, st1)
      end.
Proof.
  intros Hd Hi. slot_unfold. rewrite Hd, Hi.
  sproj. destruct (String.eqb old_title new_title); [reflexivity|].
  rewrite Hd, Hi. cbn [last]. rewrite Hd.
  unfold after_change, emit.
  destruct (Py.truthy new_title); sproj;
  (destruct (Py.truthy old_title); sproj; [|reflexivity]);
  (destruct (List.filter _ (video_table st)) as [|v [|v' vs]]; sproj; reflexivity).
Qed.

Lemma monitor_slot_fresh w save start app index new_title st d :
  last st !! app = Some d -> default None (d !! index) = None ->
  monitor_slot w save start app index new_title st =
  (Ok tt, after_change w app index new_title d st).
Proof.
  intros Hd Hi. slot_unfold. unfold after_change.
  destruct (d !! index) as [[x|]|] eqn:E; [discriminate| |];
  repeat (progress (sproj; rewrite ?Hd, ?E, ?lookup_insert_eq, ?insert_insert_eq));
  destruct (Py.truthy new_title); reflexivity.
Qed.

Lemma reported_logs_app a b :
  reported_logs (a ++ b) = (reported_logs a ++ reported_logs b)%list.
Proof. unfold reported_logs. apply flat_map_app. Qed.

Lemma reported_logs_after_change w app index new_title d st :
  reported_logs (stdout (after_change w app index new_title d st))
  = reported_logs (stdout st).
Proof.
  unfold after_change. sproj. destruct (Py.truthy new_title); [|reflexivity].
  rewrite reported_logs_app. cbn. apply app_nil_r.
Qed.

(** What [emit] does: the record is reported; it is stored when persistence
    is on and the engine accepts the commit; the only error is the engine's. *)
Lemma emit_spec w save l st :
  exists st',
    emit w save l st
    = (if save && negb (commit_ok w (commit_calls st))
       then Raise OperationalError else Ok tt, st') /\
    last st' = last st /\
    stdout st' = (stdout st ++ [LogLine l])%list /\
    window_log_table st'
    = (if save && commit_ok w (commit_calls st)
       then (window_log_table st ++ [l])%list else window_log_table st).
Proof.
  unfold emit, add_commit_window_log, ret.
  destruct save; sproj; [destruct (commit_ok w (commit_calls st))|];
    cbn [andb negb]; eexists; (split; [reflexivity|]); sproj; auto.
Qed.

Lemma monitor_slot_emits w save start app index A B t1 st :
  history st app index = Some (t1, A) -> A <> B -> A <> "" ->
  (length (List.filter (fun v => String.eqb (path v) A) (video_table st)) <= 1)%nat ->
  let l := mkWindowLog t1 (now w (now_calls st)) app A
             (link_of (List.filter (fun v => String.eqb (path v) A) (video_table st))) in
  exists st',
    monitor_slot w save start app index B st
    = (if save && negb (commit_ok w (commit_calls st))
       then Raise OperationalError else Ok tt, st') /\
    history st' app index = Some (now w (now_calls st), B) /\
    reported_logs (stdout st') = (reported_logs (stdout st) ++ [l])%list /\
    window_log_table st'
    = (if save && commit_ok w (commit_calls st)
       then (window_log_table st ++ [l])%list else window_log_table st).
Proof.
  intros H HAB HA Hlen l. apply history_Some in H as (d & Hd & Hi).
  rewrite (monitor_slot_known _ _ _ _ _ _ _ _ _ _ Hd Hi).
  rewrite (eqb_false _ _ HAB), (truthy_true _ HA). cbn [negb]. cbv zeta.
  set (st1 := after_change w app index B d st).
  assert (Hc : commit_calls st1 = commit_calls st) by reflexivity.
  assert (Ht : window_log_table st1 = window_log_table st) by reflexivity.
  subst l.
  destruct (List.filter _ (video_table st)) as [|v [|v' vs]];
    [| |cbn [length] in Hlen; lia]; cbn [link_of];
    (match goal with |- context [emit w save ?r st1] =>
       destruct (emit_spec w save r st1) as (st' & E & Hl & Ho & Hw) end;
     exists st'; rewrite E, Hc; split; [reflexivity|];
     split; [unfold history; rewrite Hl; apply (history_after_change w app index B d st)|];
     split; [rewrite Ho, reported_logs_app;
             unfold st1; rewrite reported_logs_after_change; reflexivity|];
     rewrite Hw, Hc, Ht; reflexivity).
Qed.

Lemma unique_paths_filter_length p t :
  unique_paths t ->
  (length (List.filter (fun v => String.eqb (path v) p) t) <= 1)%nat.
Proof.
  intros Hu.
  destruct (List.filter (fun v => String.eqb (path v) p) t) as [|v rest] eqn:E;
    [cbn; lia|].
  assert (Hv : In v (List.filter (fun v => String.eqb (path v) p) t))
    by (rewrite E; left; reflexivity).
  apply filter_In in Hv as [Hin Hp]. apply String.eqb_eq in Hp.
  rewrite (filter_path_unique p t v Hu Hin Hp) in E.
  injection E as <-. cbn. lia.
Qed.

(** ** The loop body and the other slots *)

Lemma history_after_change_other w a i new_title d st app index :
  last st !! a = Some d -> (a, i) <> (app, index) ->
  history (after_change w a i new_title d st) app index = history st app index.
Proof.
  intros Hd Hne. unfold history, after_change. sproj.
  destruct (decide (a = app)) as [->|Ha].
  - rewrite lookup_insert_eq, Hd.
    rewrite lookup_insert_ne by congruence. reflexivity.
  - rewrite lookup_insert_ne by exact Ha. reflexivity.
Qed.

Lemma history_emit w save l st app index :
  history (snd (emit w save l st)) app index = history st app index.
Proof.
  destruct (emit_spec w save l st) as (st' & E & Hl & _). rewrite E. cbn [snd].
  unfold history. rewrite Hl. reflexivity.
Qed.

(** The loop body for one slot leaves the history of every other slot,
    whatever its outcome. *)
Lemma monitor_slot_frame w save start a i new_title st app index :
  (a, i) <> (app, index) ->
  history (snd (monitor_slot w save start a i new_title st)) app index
  = history st app index.
Proof.
  intros Hne. destruct (last st !! a) as [d|] eqn:Hd.
  - destruct (d !! i) as [[[t1 old_title]|]|] eqn:Hi.
    + rewrite (monitor_slot_known _ _ _ _ _ _ _ _ _ _ Hd Hi).
      destruct (String.eqb old_title new_title); [reflexivity|]. cbv zeta.
      destruct (negb (Py.truthy old_title));
        [apply history_after_change_other; assumption|].
      destruct (List.filter _ (video_table st)) as [|v [|v' vs]];
        rewrite ?history_emit; apply history_after_change_other; assumption.
    + rewrite (monitor_slot_fresh _ _ _ _ _ _ _ _ Hd) by (rewrite Hi; reflexivity).
      apply history_after_change_other; assumption.
    + rewrite (monitor_slot_fresh _ _ _ _ _ _ _ _ Hd) by (rewrite Hi; reflexivity).
      apply history_after_change_other; assumption.
  - unfold monitor_slot, bind, last_getitem. rewrite Hd. reflexivity.
Qed.

(** A slot with a stored entry keeps one: the loop body, for this slot or for
    another, never removes an entry.  So a slot has no stored entry exactly
    until the first time the body runs for it. *)
Lemma observed_stays_observed w save start a i new_title st app index :
  is_Some (history st app index) ->
  is_Some (history (snd (monitor_slot w save start a i new_title st)) app index).
Proof.
  intros [x H]. destruct (decide ((a, i) = (app, index))) as [[= -> ->]|Hne].
  - destruct x as [t1 old_title].
    destruct (history_Some _ _ _ _ H) as (d & Hd & Hi).
    rewrite (monitor_slot_known _ _ _ _ _ _ _ _ _ _ Hd Hi).
    destruct (String.eqb old_title new_title); [cbn [snd]; rewrite H; eauto|].
    cbv zeta.
    destruct (negb (Py.truthy old_title));
      [cbn [snd]; rewrite history_after_change; eauto|].
    destruct (List.filter _ (video_table st)) as [|v [|v' vs]];
      cbn [snd]; rewrite ?history_emit, history_after_change; eauto.
  - rewrite monitor_slot_frame by exact Hne. rewrite H. eauto.
Qed.

Lemma ensure_app_history a st app index :
  fst (ensure_app a st) = Ok tt /\
  history (snd (ensure_app a st)) app index = history st app index.
Proof.
  unfold ensure_app. destruct (last st !! a) as [d|] eqn:Hd; [auto|].
  split; [reflexivity|]. unfold history, set_last. sproj.
  destruct (decide (a = app)) as [->|Ha].
  - rewrite lookup_insert_eq, Hd. reflexivity.
  - rewrite lookup_insert_ne by exact Ha. reflexivity.
Qed.

(** After the statement that gives an application its dictionary, a slot with
    no stored entry is a slot never observed. *)
Lemma never_observed_after_ensure_app st app index :
  history st app index = None ->
  never_observed (snd (ensure_app app st)) app index.
Proof.
  unfold history, never_observed, ensure_app.
  destruct (last st !! app) as [d|] eqn:Hd; cbn [snd].
  - intros H. exists d. auto.
  - intros _. exists ∅. unfold set_last. sproj. rewrite lookup_insert_eq. auto.
Qed.

(** A loop over slots, each of which is another slot or reports the stored
    title, leaves the stored entry. *)
Lemma quiet_loop w save start a app index t new_title (l : list (nat * string)) :
  (forall i T, In (i, T) l -> (a, i) = (app, index) -> T = new_title) ->
  forall st,
    history st app index = Some (t, new_title) ->
    history (snd (for_ l (fun it => monitor_slot w save start a (fst it) (snd it)) st))
            app index
    = Some (t, new_title).
Proof.
  induction l as [|[i T] l IH]; intros Hq st H; [exact H|].
  cbn [for_]. unfold bind. cbn [fst snd].
  assert (H1 : history (snd (monitor_slot w save start a i T st)) app index
               = Some (t, new_title)).
  { destruct (decide ((a, i) = (app, index))) as [E|Hne].
    - assert (T = new_title) as -> by (apply (Hq i); [left; reflexivity | exact E]).
      injection E as -> ->.
      destruct (history_Some _ _ _ _ H) as (d & Hd & Hi).
      rewrite (monitor_slot_known _ _ _ _ _ _ _ _ _ _ Hd Hi), String.eqb_refl.
      exact H.
    - rewrite monitor_slot_frame by exact Hne. exact H. }
  destruct (monitor_slot w save start a i T st) as [[[]|e] s1]; cbn [snd] in *;
    [|exact H1].
  apply IH; [|exact H1]. intros i' T' Hin. apply Hq. right. exact Hin.
Qed.

Lemma In_enumerate_from {A} (l : list A) i0 i x :
  In (i, x) (enumerate_from i0 l) -> (i0 <= i)%nat /\ nth_error l (i - i0) = Some x.
Proof.
  revert i0. induction l as [|y l IH]; intros i0; cbn [enumerate_from]; [intros []|].
  intros [[= <- <-]|Hin].
  - rewrite Nat.sub_diag. split; [lia | reflexivity].
  - destruct (IH (S i0) Hin) as [Hle Hn]. split; [lia|].
    replace (i - i0)%nat with (S (i - S i0)) by lia. exact Hn.
Qed.

(** A poll in which the slot reports its stored title, whatever the other
    slots do and however the poll ends, leaves the stored entry of the slot. *)
Lemma quiet_poll w save start app index t new_title items :
  (forall titles T, In (app, titles) items -> nth_error titles index = Some T ->
                    T = new_title) ->
  forall st,
    history st app index = Some (t, new_title) ->
    history (snd (for_ items (monitor_app w save start) st)) app index
    = Some (t, new_title).
Proof.
  induction items as [|[a titles] items IH]; intros Hq st H; [exact H|].
  cbn [for_]. unfold bind.
  assert (H1 : history (snd (monitor_app w save start (a, titles) st)) app index
               = Some (t, new_title)).
  { unfold monitor_app, bind. cbn [fst snd].
    destruct (ensure_app_history a st app index) as [Hr Hh].
    destruct (ensure_app a st) as [r s0]. cbn [fst snd] in Hr, Hh. subst r.
    apply quiet_loop; [|rewrite Hh; exact H].
    intros i T Hin [= -> ->]. unfold enumerate in Hin.
    apply In_enumerate_from in Hin as [_ Hn]. rewrite Nat.sub_0_r in Hn.
    apply (Hq titles); [left; reflexivity | exact Hn]. }
  destruct (monitor_app w save start (a, titles) st) as [[[]|e] s1]; cbn [snd] in *;
    [|exact H1].
  apply IH; [|exact H1]. intros titles' T Hin. apply Hq. right. exact Hin.
Qed.

(** ** The claims about one slot *)

(** C2 (debounce).  When a slot reports the title its history already
    holds, the loop body does nothing at all: it returns normally with the
    state it was given, so that no record is reported or stored, the stored
    (timestamp, title) is unchanged, and the clock is not even read; the same
    holds for any number [n] of such repetitions in a row.  And over a whole
    poll in which the slot reports its stored title, whatever the other slots
    do and however the poll ends, the stored (timestamp, title) of the slot is
    left as it is. *)
Theorem debounce w save start app index new_title t st :
  history st app index = Some (t, new_title) ->
  (forall n,
     for_ (repeat new_title n) (monitor_slot w save start app index) st
     = (Ok tt, st)) /\
  (forall items,
     (forall titles T, In (app, titles) items ->
                       nth_error titles index = Some T -> T = new_title) ->
     history (snd (for_ items (monitor_app w save start) st)) app index
     = Some (t, new_title)).
Proof.
  intros H. split.
  - destruct (history_Some _ _ _ _ H) as (d & Hd & Hi).
    induction n as [|n IH]; [reflexivity|].
    cbn [repeat for_]. unfold bind at 1.
    rewrite (monitor_slot_known _ _ _ _ _ _ _ _ _ _ Hd Hi), String.eqb_refl.
    exact IH.
  - intros items Hq. apply quiet_poll; assumption.
Qed.

(** C3 (first-observation suppression).  The first title a slot ever
    reports, whatever it is, produces no log record: the loop body returns
    normally, the log table and the records reported on the output are the
    ones before it, and the history of the slot is seeded with the time of
    the observation and the title. *)
Theorem first_observation_suppression w save start app index new_title st :
  never_observed st app index ->
  exists st',
    monitor_slot w save start app index new_title st = (Ok tt, st') /\
    history st' app index = Some (now w (now_calls st), new_title) /\
    window_log_table st' = window_log_table st /\
    reported_logs (stdout st') = reported_logs (stdout st).
Proof.
  intros (d & Hd & Hi). eexists. split; [apply (monitor_slot_fresh _ _ _ _ _ _ _ _ Hd Hi)|].
  split; [apply history_after_change|].
  split; [reflexivity | apply reported_logs_after_change].
Qed.

(** C4 (empty-title suppression).  A transition away from a stored empty
    title produces no log record, and still overwrites the history of the
    slot with the time of the transition and the new title. *)
Theorem empty_title_suppression w save start app index new_title t st :
  history st app index = Some (t, "") -> new_title <> "" ->
  exists st',
    monitor_slot w save start app index new_title st = (Ok tt, st') /\
    history st' app index = Some (now w (now_calls st), new_title) /\
    window_log_table st' = window_log_table st /\
    reported_logs (stdout st') = reported_logs (stdout st).
Proof.
  intros H Hne. apply history_Some in H as (d & Hd & Hi).
  rewrite (monitor_slot_known _ _ _ _ _ _ _ _ _ _ Hd Hi).
  rewrite (eqb_false "" new_title) by congruence.
  rewrite truthy_empty. cbn [negb].
  eexists. split; [reflexivity|].
  split; [apply history_after_change|].
  split; [reflexivity | apply reported_logs_after_change].
Qed.

Example debounce_witness :
  (forall n,
     for_ (repeat "Doc" n) (monitor_slot (w_feh true) true 100 "feh.feh" 0) st_mid
     = (Ok tt, st_mid)) /\
  (forall items,
     (forall titles T, In ("feh.feh", titles) items ->
                       nth_error titles 0 = Some T -> T = "Doc") ->
     history (snd (for_ items (monitor_app (w_feh true) true 100) st_mid)) "feh.feh" 0
     = Some (170, "Doc")).
Proof. apply (debounce _ _ _ _ _ _ 170). vm_compute. reflexivity. Defined.

Example first_observation_suppression_witness :
  exists st',
    monitor_slot (w_feh true) true 100 "feh.feh" 2 "Third" st_mid = (Ok tt, st') /\
    history st' "feh.feh" 2 = Some (180, "Third") /\
    window_log_table st' = [] /\
    reported_logs (stdout st') = [].
Proof.
  apply (first_observation_suppression (w_feh true) true 100 "feh.feh" 2 "Third" st_mid).
  eexists. split; vm_compute; reflexivity.
Defined.

Example empty_title_suppression_witness :
  exists st',
    monitor_slot (w_feh true) true 100 "feh.feh" 1 "Doc" st_mid = (Ok tt, st') /\
    history st' "feh.feh" 1 = Some (180, "Doc") /\
    window_log_table st' = [] /\
    reported_logs (stdout st') = [].
Proof.
  apply (empty_title_suppression (w_feh true) true 100 "feh.feh" 1 "Doc" 175 st_mid).
  - vm_compute. reflexivity.
  - discriminate.
Defined.

(** C1, as amended (interval of an emitted record).  When the history of a
    slot holds a non-empty title A recorded at t1 and the slot reports a
    different title B, the record for A starts at t1, the stored timestamp,
    and ends at t2, the clock reading of the transition, which also becomes
    the stored timestamp of B.  The start does not depend on the start time of
    the monitor, also when A was the first title observed in the slot.  The
    record is reported, and stored when persistence is on and the engine
    accepts the commit. *)
Theorem interval_of_emitted_record w save start app index A B t1 st :
  history st app index = Some (t1, A) -> A <> B -> A <> "" ->
  unique_paths (video_table st) ->
  let t2 := now w (now_calls st) in
  exists r st' link,
    let l := mkWindowLog t1 t2 app A link in
    monitor_slot w save start app index B st = (r, st') /\
    history st' app index = Some (t2, B) /\
    reported_logs (stdout st') = (reported_logs (stdout st) ++ [l])%list /\
    window_log_table st'
    = (if save && commit_ok w (commit_calls st)
       then (window_log_table st ++ [l])%list else window_log_table st).
Proof.
  intros H HAB HA Hu t2.
  destruct (monitor_slot_emits w save start app index A B t1 st H HAB HA
              (unique_paths_filter_length A _ Hu)) as (st' & E & Hh & Ho & Ht).
  eexists _, st', _. cbv zeta. split; [exact E|].
  split; [exact Hh|]. split; [exact Ho | exact Ht].
Qed.

Example interval_of_emitted_record_witness :
  exists r st' link,
    let l := mkWindowLog 170 180 "feh.feh" "Doc" link in
    monitor_slot (w_feh true) true 100 "feh.feh" 0 "Other" st_mid = (r, st') /\
    history st' "feh.feh" 0 = Some (180, "Other") /\
    reported_logs (stdout st') = [l] /\
    window_log_table st' = [l].
Proof.
  apply (interval_of_emitted_record (w_feh true) true 100 "feh.feh" 0 "Doc" "Other" 170 st_mid).
  - vm_compute. reflexivity.
  - discriminate.
  - discriminate.
  - apply NoDup_singleton.
Defined.

(** C1, as stated, fails: in the world [w_feh] the first title feh ever
    shows, A, is recorded at time 120 and closed at 150, and the record starts
    at 120, not at 100, the start time of the monitor. *)
Lemma interval_start_counterexample :
  ~ first_segment_starts_at_monitor_start (w_feh true).
Proof.
  intros H.
  specialize (H (mkWindowLog 120 150 "feh.feh" "A" None)).
  assert (Hin : In (mkWindowLog 120 150 "feh.feh" "A" None)
                   (window_log_table (snd (window_monitor (w_feh true) true 2 init_state))))
    by (vm_compute; left; reflexivity).
  specialize (H Hin). vm_compute in H. discriminate H.
Qed.

(** C5 (correlation).  When a segment with title A closes: if the catalog,
    whose paths are unique, has a row whose path is A, the record carries the
    id of that row; if no row has path A, the record carries no link, and the
    lookup raises nothing: the record is reported and, with persistence on,
    stored as any other, the only possible error being the engine's refusal of
    the commit. *)
Theorem correlation w save start app index A B t1 st :
  history st app index = Some (t1, A) -> A <> B -> A <> "" ->
  let t2 := now w (now_calls st) in
  let outcome link r st' :=
    let l := mkWindowLog t1 t2 app A link in
    r = (if save && negb (commit_ok w (commit_calls st))
         then Raise OperationalError else Ok tt) /\
    reported_logs (stdout st') = (reported_logs (stdout st) ++ [l])%list /\
    window_log_table st'
    = (if save && commit_ok w (commit_calls st)
       then (window_log_table st ++ [l])%list else window_log_table st) in
  (forall v, unique_paths (video_table st) -> In v (video_table st) -> path v = A ->
     exists r st', monitor_slot w save start app index B st = (r, st') /\
                   outcome (Some (video_id v)) r st') /\
  ((forall v, In v (video_table st) -> path v <> A) ->
     exists r st', monitor_slot w save start app index B st = (r, st') /\
                   outcome None r st').
Proof.
  intros H HAB HA t2 outcome. split.
  - intros v Hu Hin Hp.
    destruct (monitor_slot_emits w save start app index A B t1 st H HAB HA
                (unique_paths_filter_length A _ Hu)) as (st' & E & Hh & Ho & Ht).
    rewrite (filter_path_unique A _ v Hu Hin Hp) in Ho, Ht. cbn [link_of] in Ho, Ht.
    eexists _, st'. split; [exact E|]. unfold outcome. auto.
  - intros Hno.
    assert (Hf := filter_path_absent A _ Hno).
    assert (Hlen : (length (List.filter (fun v => String.eqb (path v) A) (video_table st)) <= 1)%nat)
      by (rewrite Hf; cbn; lia).
    destruct (monitor_slot_emits w save start app index A B t1 st H HAB HA Hlen)
      as (st' & E & Hh & Ho & Ht).
    rewrite Hf in Ho, Ht. cbn [link_of] in Ho, Ht.
    eexists _, st'. split; [exact E|]. unfold outcome. auto.
Qed.

Example correlation_witness :
  (exists r st',
     monitor_slot (w_feh true) true 100 "vlc.Vlc" 0 "" st_mid = (r, st') /\
     r = Ok tt /\
     reported_logs (stdout st')
     = [mkWindowLog 150 180 "vlc.Vlc" "movies/x.mkv" (Some 7)] /\
     window_log_table st'
     = [mkWindowLog 150 180 "vlc.Vlc" "movies/x.mkv" (Some 7)]) /\
  (exists r st',
     monitor_slot (w_feh true) true 100 "feh.feh" 0 "" st_mid = (r, st') /\
     r = Ok tt /\
     reported_logs (stdout st') = [mkWindowLog 170 180 "feh.feh" "Doc" None] /\
     window_log_table st' = [mkWindowLog 170 180 "feh.feh" "Doc" None]).
Proof.
  split.
  - refine (proj1 (correlation (w_feh true) true 100 "vlc.Vlc" 0 "movies/x.mkv" ""
                     150 st_mid _ _ _) (mkVideo 7 "movies/x.mkv" 20000000) _ _ _).
    + vm_compute. reflexivity.
    + discriminate.
    + discriminate.
    + apply NoDup_singleton.
    + left. reflexivity.
    + reflexivity.
  - refine (proj2 (correlation (w_feh true) true 100 "feh.feh" 0 "Doc" ""
                     170 st_mid _ _ _) _).
    + vm_compute. reflexivity.
    + discriminate.
    + discriminate.
    + intros v [<-|[]]. discriminate.
Defined.

(** ** Computations that do not touch the log store *)

Create HintDb blind.

Lemma with_log_id st : with_log (window_log_table st) (commit_calls st) st = st.
Proof. destruct st; reflexivity. Qed.

Lemma with_log_with_log t n t' n' st :
  with_log t n (with_log t' n' st) = with_log t n st.
Proof. reflexivity. Qed.

Lemma blind_ret {A} (a : A) : log_blind (ret a).
Proof. intros t n st. reflexivity. Qed.

Lemma blind_raise {A} e : log_blind (@raise A e).
Proof. intros t n st. reflexivity. Qed.

Lemma blind_bind {A B} (c : M A) (k : A -> M B) :
  log_blind c -> (forall a, log_blind (k a)) -> log_blind (bind c k).
Proof.
  intros Hc Hk t n st. unfold bind. rewrite Hc.
  destruct (c st) as [[a|e] st']; cbn [fst snd]; [apply Hk | reflexivity].
Qed.

Lemma blind_try {A} (c h : M A) e :
  log_blind c -> log_blind h -> log_blind (try_except c e h).
Proof.
  intros Hc Hh t n st. unfold try_except. rewrite Hc.
  destruct (c st) as [[a|e'] st']; cbn [fst snd]; [reflexivity|].
  destruct (exn_eqb e e'); [apply Hh | reflexivity].
Qed.

Lemma blind_if {A} (b : bool) (c1 c2 : M A) :
  log_blind c1 -> log_blind c2 -> log_blind (if b then c1 else c2).
Proof. destruct b; auto. Qed.

Lemma blind_for {A} (l : list A) (body : A -> M unit) :
  (forall x, log_blind (body x)) -> log_blind (for_ l body).
Proof.
  intros Hb. induction l as [|x l IH]; cbn [for_];
    [apply blind_ret | apply blind_bind; auto].
Qed.

Lemma blind_foldM {A B} (f : B -> A -> M B) (l : list A) :
  (forall b x, log_blind (f b x)) -> forall b, log_blind (foldM f b l).
Proof.
  intros Hf. induction l as [|x l IH]; intros b; cbn [foldM];
    [apply blind_ret | apply blind_bind; auto].
Qed.

Lemma blind_print o : log_blind (print o).
Proof. intros t n st. reflexivity. Qed.

Lemma blind_datetime_now w : log_blind (datetime_now w).
Proof. intros t n st. reflexivity. Qed.

Lemma blind_read_wmctrl w : log_blind (read_wmctrl w).
Proof. intros t n st. reflexivity. Qed.

Lemma blind_read_lsof w : log_blind (read_lsof w).
Proof. intros t n st. reflexivity. Qed.

Lemma blind_last_getitem app index : log_blind (last_getitem app index).
Proof.
  intros t n st. unfold last_getitem. cbn [with_log last].
  destruct (last st !! app) as [d|]; [|reflexivity].
  destruct (d !! index); reflexivity.
Qed.

Lemma blind_last_setitem app index v : log_blind (last_setitem app index v).
Proof.
  intros t n st. unfold last_setitem. cbn [with_log last].
  destruct (last st !! app) as [d|]; reflexivity.
Qed.

Lemma blind_ensure_app app : log_blind (ensure_app app).
Proof.
  intros t n st. unfold ensure_app. cbn [with_log last].
  destruct (last st !! app) as [d|]; reflexivity.
Qed.

Lemma blind_query_video_one p : log_blind (query_video_one p).
Proof.
  intros t n st. unfold query_video_one. cbn [with_log video_table].
  destruct (List.filter _ (video_table st)) as [|v [|v' vs]]; reflexivity.
Qed.

Lemma blind_check_video_root_path w : log_blind (check_video_root_path w).
Proof.
  unfold check_video_root_path. apply blind_if; [apply blind_ret | apply blind_raise].
Qed.

Lemma blind_dict_extend k l d : log_blind (dict_extend k l d).
Proof.
  unfold dict_extend. destruct (dict_get k d); [apply blind_ret | apply blind_raise].
Qed.

#[local] Hint Resolve blind_ret blind_raise blind_bind blind_try blind_if blind_for
  blind_foldM blind_print blind_datetime_now blind_read_wmctrl blind_read_lsof
  blind_last_getitem blind_last_setitem blind_ensure_app blind_query_video_one
  blind_check_video_root_path blind_dict_extend : blind.

Lemma blind_list_vlc_open_files w full_path : log_blind (list_vlc_open_files w full_path).
Proof. unfold list_vlc_open_files. auto 6 with blind. Qed.

Lemma blind_list_windows_line w windows line : log_blind (list_windows_line w windows line).
Proof.
  unfold list_windows_line.
  destruct (Py.split_ws line) as [|x words]; [auto with blind|].
  destruct (nth_error (x :: words) 2) as [app|]; [|auto with blind].
  cbv zeta. apply blind_if; [|auto with blind].
  apply blind_bind; [apply blind_list_vlc_open_files|].
  intros [|f fs]; auto with blind.
Qed.

Lemma blind_list_windows w : log_blind (list_windows w).
Proof.
  unfold list_windows.
  apply blind_bind; [auto with blind|]. intros lines.
  apply blind_bind; [|auto with blind].
  apply blind_foldM. intros; apply blind_list_windows_line.
Qed.

Lemma blind_monitor_slot_dry w start app index new_title :
  log_blind (monitor_slot w false start app index new_title).
Proof.
  unfold monitor_slot.
  apply blind_bind; [auto with blind|]. intros cur.
  apply blind_if; [auto with blind|].
  apply blind_bind; [auto with blind|]. intros last_info.
  apply blind_bind; [auto with blind|]. intros end_time.
  apply blind_bind; [auto with blind|]. intros _.
  apply blind_bind; [auto with blind|]. intros _.
  apply blind_if; [auto with blind|].
  apply blind_bind; [auto 6 with blind|]. intros link.
  auto with blind.
Qed.

Lemma blind_monitor_app_dry w start item :
  log_blind (monitor_app w false start item).
Proof.
  unfold monitor_app. apply blind_bind; [auto with blind|]. intros _.
  apply blind_for. intros it. apply blind_monitor_slot_dry.
Qed.

Lemma blind_monitor_poll_dry w start : log_blind (monitor_poll w false start).
Proof.
  unfold monitor_poll. apply blind_bind; [apply blind_list_windows|]. intros items.
  apply blind_for. intros it. apply blind_monitor_app_dry.
Qed.

Lemma blind_monitor_loop_dry w start polls :
  log_blind (monitor_loop w false start polls).
Proof.
  induction polls as [|n IH]; cbn [monitor_loop];
    [apply blind_ret | apply blind_bind; [apply blind_monitor_poll_dry | auto]].
Qed.

Lemma blind_reset_last : log_blind (fun st => (Ok tt, set_last (fun _ => ∅) st)).
Proof. intros t n st. reflexivity. Qed.

Lemma blind_window_monitor_dry w polls : log_blind (window_monitor w false polls).
Proof.
  unfold window_monitor.
  apply blind_bind; [apply blind_reset_last|]. intros _.
  apply blind_bind; [auto with blind|]. intros start.
  apply blind_bind; [auto with blind|]. intros _.
  apply blind_monitor_loop_dry.
Qed.

(** A blind computation leaves the log table and the count of commits. *)
Lemma blind_keeps_log {A} (c : M A) st :
  log_blind c ->
  window_log_table (snd (c st)) = window_log_table st /\
  commit_calls (snd (c st)) = commit_calls st.
Proof.
  intros Hc.
  specialize (Hc (window_log_table st) (commit_calls st) st).
  rewrite with_log_id in Hc.
  rewrite Hc at 1 2. cbn [snd with_log window_log_table commit_calls]. auto.
Qed.

(** ** Persisting and dry runs side by side *)

Lemma same_but_log_with_log t n st : same_but_log (with_log t n st) st.
Proof. reflexivity. Qed.

Lemma same_run_blind {A} (c : M A) : log_blind c -> same_run c c.
Proof.
  intros Hc s1 s2 H.
  rewrite <- (with_log_id s1), <- (with_log_id s2).
  rewrite <- (with_log_with_log _ _ [] O s1), <- (with_log_with_log _ _ [] O s2).
  rewrite H. rewrite !Hc. cbn [fst snd]. split; reflexivity.
Qed.

Lemma same_run_bind {A B} (c1 c2 : M A) (k1 k2 : A -> M B) :
  same_run c1 c2 -> (forall a, same_run (k1 a) (k2 a)) ->
  same_run (bind c1 k1) (bind c2 k2).
Proof.
  intros Hc Hk s1 s2 H. unfold bind.
  destruct (Hc s1 s2 H) as [Hr Hs].
  destruct (c1 s1) as [r1 s1'], (c2 s2) as [r2 s2']. cbn [fst snd] in Hr, Hs.
  subst r2. destruct r1 as [a|e]; [apply Hk; exact Hs | split; [reflexivity | exact Hs]].
Qed.

Lemma same_run_for {A} (l : list A) (b1 b2 : A -> M unit) :
  (forall x, same_run (b1 x) (b2 x)) -> same_run (for_ l b1) (for_ l b2).
Proof.
  intros Hs. induction l as [|x l IH]; cbn [for_].
  - intros s1 s2 H. split; [reflexivity | exact H].
  - apply same_run_bind; auto.
Qed.

Lemma same_run_commit w l :
  (forall n, commit_ok w n = true) ->
  same_run (add_commit_window_log w l) (ret tt).
Proof.
  intros Hok s1 s2 H. unfold add_commit_window_log, ret. rewrite Hok.
  cbn [fst snd]. split; [reflexivity | exact H].
Qed.

Lemma same_run_monitor_slot w start app index new_title :
  (forall n, commit_ok w n = true) ->
  same_run (monitor_slot w true start app index new_title)
           (monitor_slot w false start app index new_title).
Proof.
  intros Hok. unfold monitor_slot.
  apply same_run_bind; [apply same_run_blind; auto with blind|]. intros cur.
  destruct (same_title cur new_title); [apply same_run_blind; auto with blind|].
  apply same_run_bind; [apply same_run_blind; auto with blind|]. intros last_info.
  apply same_run_bind; [apply same_run_blind; auto with blind|]. intros end_time.
  apply same_run_bind; [apply same_run_blind; auto with blind|]. intros _.
  apply same_run_bind; [apply same_run_blind; auto with blind|]. intros _.
  match goal with |- same_run (if ?b then _ else _) _ => destruct b end;
    [apply same_run_blind; auto with blind|].
  apply same_run_bind; [apply same_run_blind; auto 6 with blind|]. intros link.
  apply same_run_bind; [apply same_run_blind; auto with blind|]. intros _.
  apply same_run_commit. exact Hok.
Qed.

Lemma same_run_monitor_loop w start polls :
  (forall n, commit_ok w n = true) ->
  same_run (monitor_loop w true start polls) (monitor_loop w false start polls).
Proof.
  intros Hok. induction polls as [|n IH]; cbn [monitor_loop].
  - apply same_run_blind, blind_ret.
  - apply same_run_bind; [|intros _; exact IH].
    unfold monitor_poll.
    apply same_run_bind; [apply same_run_blind, blind_list_windows|]. intros items.
    apply same_run_for. intros item. unfold monitor_app.
    apply same_run_bind; [apply same_run_blind; auto with blind|]. intros _.
    apply same_run_for. intros it. apply same_run_monitor_slot. exact Hok.
Qed.

Lemma same_run_window_monitor w polls :
  (forall n, commit_ok w n = true) ->
  same_run (window_monitor w true polls) (window_monitor w false polls).
Proof.
  intros Hok. unfold window_monitor.
  apply same_run_bind; [apply same_run_blind, blind_reset_last|]. intros _.
  apply same_run_bind; [apply same_run_blind; auto with blind|]. intros start.
  apply same_run_bind; [apply same_run_blind; auto with blind|]. intros _.
  apply same_run_monitor_loop. exact Hok.
Qed.

(** C6, as amended (dry-run isolation).  From any state, whatever the
    snapshots and the clock, a run with persistence off never touches the log
    store: the table is the one before the run and no commit is issued.  When
    the engine accepts the commits of the persisting run, the two runs end the
    same way, with the same output and the same history. *)
Theorem dry_run_isolation w polls st :
  let wet := window_monitor w true polls st in
  let dry := window_monitor w false polls st in
  (window_log_table (snd dry) = window_log_table st /\
   commit_calls (snd dry) = commit_calls st) /\
  ((forall n, commit_ok w n = true) ->
   fst dry = fst wet /\
   stdout (snd dry) = stdout (snd wet) /\
   last (snd dry) = last (snd wet)).
Proof.
  intros wet dry. split.
  - apply (blind_keeps_log (window_monitor w false polls) st
             (blind_window_monitor_dry w polls)).
  - intros Hok.
    destruct (same_run_window_monitor w polls Hok st st eq_refl) as [Hr Hs].
    fold wet dry in Hr, Hs. unfold same_but_log in Hs.
    split; [symmetry; exact Hr|]. split.
    + change (stdout (with_log [] O (snd dry)) = stdout (with_log [] O (snd wet))).
      rewrite Hs. reflexivity.
    + change (last (with_log [] O (snd dry)) = last (with_log [] O (snd wet))).
      rewrite Hs. reflexivity.
Qed.

Example dry_run_isolation_witness :
  let wet := window_monitor (w_feh true) true 3 init_state in
  let dry := window_monitor (w_feh true) false 3 init_state in
  fst dry = fst wet /\
  stdout (snd dry) = stdout (snd wet) /\
  last (snd dry) = last (snd wet).
Proof.
  apply (dry_run_isolation (w_feh true) 3 init_state). intros n. reflexivity.
Defined.

(** C6, as stated, fails: with an engine that refuses the commits, the
    persisting run of three polls in the world [w_feh] stops at the second
    poll, after it reported the record of title A, while the dry run goes on
    and reports the third poll too. *)
Lemma dry_run_counterexample : ~ dry_run_reports_the_same (w_feh false) 3.
Proof. unfold dry_run_reports_the_same. vm_compute. discriminate. Qed.

(** ** A refused commit *)

Lemma stops_blind w {A} (c : M A) : log_blind c -> stops_at_refused_commit w c.
Proof.
  intros Hc st. destruct (blind_keeps_log c st Hc) as [_ E]. rewrite E.
  split; [lia | intros k Hk; lia].
Qed.

Lemma stops_bind w {A B} (c : M A) (k : A -> M B) :
  stops_at_refused_commit w c -> (forall a, stops_at_refused_commit w (k a)) ->
  stops_at_refused_commit w (bind c k).
Proof.
  intros Hc Hk st. unfold bind. destruct (Hc st) as [Hle Hf].
  destruct (c st) as [[a|e] s1]; cbn [fst snd] in *.
  2:{ split; [assumption|]. intros j Hj Hbad.
      destruct (Hf j Hj Hbad) as [Hr Hs]. injection Hr as ->. auto. }
  destruct (Hk a s1) as [Hle' Hf']. split; [lia|].
  intros j Hj Hbad.
  destruct (Nat.lt_ge_cases j (commit_calls s1)) as [Hlt|Hge].
  - destruct (Hf j (conj (proj1 Hj) Hlt) Hbad) as [Habs _]. discriminate Habs.
  - apply Hf'; [lia | exact Hbad].
Qed.

Lemma stops_for w {A} (l : list A) (body : A -> M unit) :
  (forall x, stops_at_refused_commit w (body x)) ->
  stops_at_refused_commit w (for_ l body).
Proof.
  intros Hb. induction l as [|x l IH]; cbn [for_];
    [apply stops_blind, blind_ret | apply stops_bind; auto].
Qed.

Lemma stops_commit w l : stops_at_refused_commit w (add_commit_window_log w l).
Proof.
  intros st. unfold add_commit_window_log.
  destruct (commit_ok w (commit_calls st)) eqn:E; cbn [fst snd commit_calls];
    (split; [lia|]); intros k Hk Hbad;
    assert (k = commit_calls st) as -> by lia; [congruence | auto].
Qed.

Lemma stops_monitor_slot w save start app index new_title :
  stops_at_refused_commit w (monitor_slot w save start app index new_title).
Proof.
  unfold monitor_slot.
  apply stops_bind; [apply stops_blind; auto with blind|]. intros cur.
  destruct (same_title cur new_title); [apply stops_blind; auto with blind|].
  apply stops_bind; [apply stops_blind; auto with blind|]. intros last_info.
  apply stops_bind; [apply stops_blind; auto with blind|]. intros end_time.
  apply stops_bind; [apply stops_blind; auto with blind|]. intros _.
  apply stops_bind; [apply stops_blind; auto with blind|]. intros _.
  match goal with |- stops_at_refused_commit _ (if ?b then _ else _) => destruct b end;
    [apply stops_blind; auto with blind|].
  apply stops_bind; [apply stops_blind; auto 6 with blind|]. intros link.
  apply stops_bind; [apply stops_blind; auto with blind|]. intros _.
  destruct save; [apply stops_commit | apply stops_blind, blind_ret].
Qed.

Lemma stops_monitor_loop w save start polls :
  stops_at_refused_commit w (monitor_loop w save start polls).
Proof.
  induction polls as [|n IH]; cbn [monitor_loop]; [apply stops_blind, blind_ret|].
  apply stops_bind; [|intros _; exact IH].
  unfold monitor_poll.
  apply stops_bind; [apply stops_blind, blind_list_windows|]. intros items.
  apply stops_for. intros item. unfold monitor_app.
  apply stops_bind; [apply stops_blind; auto with blind|]. intros _.
  apply stops_for. intros it. apply stops_monitor_slot.
Qed.

Lemma stops_window_monitor w save polls :
  stops_at_refused_commit w (window_monitor w save polls).
Proof.
  unfold window_monitor.
  apply stops_bind; [apply stops_blind, blind_reset_last|]. intros _.
  apply stops_bind; [apply stops_blind; auto with blind|]. intros start.
  apply stops_bind; [apply stops_blind; auto with blind|]. intros _.
  apply stops_monitor_loop.
Qed.

(** An exception raised within [polls] turns of the loop ends the loop: with
    more turns allowed, the outcome and the state are the same. *)
Lemma monitor_loop_raised w save start polls more st e :
  fst (monitor_loop w save start polls st) = Raise e ->
  monitor_loop w save start (polls + more) st = monitor_loop w save start polls st.
Proof.
  revert st. induction polls as [|n IH]; intros st H; [discriminate H|].
  cbn [monitor_loop Nat.add] in *. unfold bind in *.
  destruct (monitor_poll w save start st) as [[[]|e'] s1]; [apply IH; exact H | reflexivity].
Qed.

Lemma window_monitor_raised w save polls more st e :
  fst (window_monitor w save polls st) = Raise e ->
  window_monitor w save (polls + more) st = window_monitor w save polls st.
Proof.
  unfold window_monitor, bind, datetime_now, print. sproj.
  apply monitor_loop_raised.
Qed.

(** C8, as amended (a failed write ends the run).  If the engine refuses a
    commit during a run of the monitor, the run ends there with the engine's
    error as its outcome: the error is not swallowed, it leaves
    [window_monitor], whose only handler is for the keyboard interrupt; the
    refused commit is the last one issued; and the run does not go on polling,
    for with any number of further polls allowed it ends in the same state
    with the same outcome. *)
Theorem failed_write_ends_the_run w polls more st k :
  (commit_calls st <= k < commit_calls (snd (window_monitor w true polls st)))%nat ->
  commit_ok w k = false ->
  fst (window_monitor w true polls st) = Raise OperationalError /\
  commit_calls (snd (window_monitor w true polls st)) = S k /\
  window_monitor w true (polls + more) st = window_monitor w true polls st.
Proof.
  intros Hk Hbad.
  destruct (stops_window_monitor w true polls st) as [_ Hf].
  destruct (Hf k Hk Hbad) as [Hr Hc].
  split; [exact Hr|]. split; [exact Hc|].
  apply (window_monitor_raised w true polls more st OperationalError Hr).
Qed.

Example failed_write_ends_the_run_witness :
  fst (window_monitor (w_feh false) true 2 init_state) = Raise OperationalError /\
  commit_calls (snd (window_monitor (w_feh false) true 2 init_state)) = 1%nat /\
  window_monitor (w_feh false) true (2 + 5) init_state
  = window_monitor (w_feh false) true 2 init_state.
Proof.
  apply (failed_write_ends_the_run (w_feh false) 2 5 init_state 0).
  - vm_compute. split; lia.
  - reflexivity.
Defined.

(** C8, as stated, fails: in the world [w_feh] with an engine that refuses
    the commits, a run of three polls ends with the engine's error at the
    second poll, where the record of title A is to be stored, and takes two
    snapshots, not three. *)
Lemma failed_write_counterexample : ~ survives_failed_writes (w_feh false) 3.
Proof.
  intros [H _]. apply H. vm_compute. reflexivity.
Qed.

(** ** Dictionaries in insertion order *)

Lemma dict_get_set_eq {V} k (v : V) d : dict_get k (dict_set k v d) = Some v.
Proof.
  induction d as [|[k' v'] d IH]; cbn [dict_set dict_get].
  - rewrite String.eqb_refl. reflexivity.
  - destruct (String.eqb k' k) eqn:E; cbn [dict_get]; rewrite E; auto.
Qed.

Lemma dict_get_set_ne {V} k k' (v : V) d :
  k <> k' -> dict_get k' (dict_set k v d) = dict_get k' d.
Proof.
  intros Hne. induction d as [|[k0 v0] d IH]; cbn [dict_set dict_get].
  - rewrite eqb_false by exact Hne. reflexivity.
  - destruct (String.eqb_spec k0 k) as [->|Hk]; cbn [dict_get].
    + rewrite eqb_false by exact Hne. reflexivity.
    + destruct (String.eqb k0 k'); auto.
Qed.

Lemma dict_set_set {V} k (v v' : V) d :
  dict_set k v (dict_set k v' d) = dict_set k v d.
Proof.
  induction d as [|[k0 v0] d IH]; cbn [dict_set].
  - rewrite String.eqb_refl. reflexivity.
  - destruct (String.eqb k0 k) eqn:E; cbn [dict_set]; rewrite E; [reflexivity|].
    f_equal. exact IH.
Qed.

Lemma dict_keys_get {V} k (d : list (string * V)) :
  existsb (String.eqb k) (dict_keys d) = true <-> is_Some (dict_get k d).
Proof.
  induction d as [|[k0 v0] d IH]; cbn [dict_keys map existsb dict_get fst].
  - split; [discriminate | intros [x Hx]; discriminate].
  - rewrite (String.eqb_sym k k0). destruct (String.eqb k0 k); cbn [orb].
    + split; eauto.
    + exact IH.
Qed.

(** [d[k]] after [if k not in d.keys(): d[k] = []]. *)
Lemma dict_ensure_get k (d : list (string * list string)) :
  dict_get k (if existsb (String.eqb k) (dict_keys d) then d else dict_set k [] d)
  = Some (default [] (dict_get k d)).
Proof.
  destruct (existsb (String.eqb k) (dict_keys d)) eqn:E.
  - apply dict_keys_get in E as [x Hx]. rewrite Hx. reflexivity.
  - rewrite dict_get_set_eq.
    destruct (dict_get k d) eqn:G; [|reflexivity].
    assert (H : is_Some (dict_get k d)) by eauto.
    apply dict_keys_get in H. congruence.
Qed.

Lemma dict_ensure_set k v (d : list (string * list string)) :
  dict_set k v (if existsb (String.eqb k) (dict_keys d) then d else dict_set k [] d)
  = dict_set k v d.
Proof.
  destruct (existsb (String.eqb k) (dict_keys d)); [reflexivity | apply dict_set_set].
Qed.

Lemma dict_get_pad k (d : list (string * list string)) :
  dict_get k (map (fun kv => (fst kv, pad_titles (snd kv))) d)
  = option_map pad_titles (dict_get k d).
Proof.
  induction d as [|[k0 v0] d IH]; cbn [map dict_get fst snd]; [reflexivity|].
  destruct (String.eqb k0 k); [reflexivity | exact IH].
Qed.

(** ** The snapshot *)

Lemma list_windows_line_app w windows line st app :
  Py.truthy (VIDEO_ROOT_PATH w) = true ->
  Py.split_ws line <> [] -> line_app line = Some app ->
  list_windows_line w windows line st
  = (Ok (dict_set app (default [] (dict_get app windows) ++ line_titles w st line app)%list
                  windows),
     after_line st app).
Proof.
  intros Hroot Hne Happ. unfold list_windows_line, line_app, line_titles, after_line in *.
  destruct (Py.split_ws line) as [|x ws]; [contradiction|].
  rewrite Happ. cbv zeta.
  destruct (Py.startswith "vlc" app).
  - unfold list_vlc_open_files, check_video_root_path. rewrite Hroot.
    unfold bind, ret, read_lsof. sproj.
    destruct (open_files_of w false (lsof w (lsof_calls st))) as [|f fs];
      unfold dict_extend; rewrite dict_ensure_get, dict_ensure_set; reflexivity.
  - unfold dict_extend. rewrite dict_ensure_get, dict_ensure_set. reflexivity.
Qed.

Lemma dict_get_In {V} k (v : V) d : dict_get k d = Some v -> In (k, v) d.
Proof.
  induction d as [|[k0 v0] d IH]; cbn [dict_get]; [discriminate|].
  destruct (String.eqb_spec k0 k) as [->|_].
  - intros [= ->]. left. reflexivity.
  - intros H. right. auto.
Qed.

Lemma dict_keys_set {V} k (v : V) d :
  dict_keys (dict_set k v d)
  = if existsb (String.eqb k) (dict_keys d) then dict_keys d
    else (dict_keys d ++ [k])%list.
Proof.
  unfold dict_keys. induction d as [|[k0 v0] d IH]; cbn [dict_set map existsb fst];
    [reflexivity|].
  rewrite (String.eqb_sym k k0).
  destruct (String.eqb k0 k); cbn [orb map fst]; [reflexivity|].
  rewrite IH. destruct (existsb (String.eqb k) (map fst d)); reflexivity.
Qed.

Lemma existsb_eqb_In k (l : list string) :
  existsb (String.eqb k) l = true <-> In k l.
Proof.
  rewrite existsb_exists. split.
  - intros (x & Hx & E). apply String.eqb_eq in E. subst. exact Hx.
  - intros H. exists k. split; [exact H | apply String.eqb_refl].
Qed.

Lemma dict_set_NoDup {V} k (v : V) d :
  NoDup (dict_keys d) -> NoDup (dict_keys (dict_set k v d)).
Proof.
  intros H. rewrite dict_keys_set.
  destruct (existsb (String.eqb k) (dict_keys d)) eqn:E; [exact H|].
  apply NoDup_app. split; [exact H|]. split; [|apply NoDup_singleton].
  intros x Hx Hk. apply list_elem_of_In in Hx, Hk. destruct Hk as [<-|[]].
  apply existsb_eqb_In in Hx. congruence.
Qed.

Lemma line_ok_app line :
  line_ok line = true -> Py.split_ws line <> [] ->
  exists app, line_app line = Some app.
Proof.
  unfold line_ok, line_app.
  destruct (Py.split_ws line) as [|a [|b [|c ws]]]; intros H Hne;
    try contradiction; try discriminate H.
  exists c. reflexivity.
Qed.

(** One line of well-formed text: the step returns, keeps the keys and their
    uniqueness, and leaves the titles of the other applications. *)
Lemma list_windows_line_ok w windows line st :
  Py.truthy (VIDEO_ROOT_PATH w) = true -> line_ok line = true ->
  exists windows' st',
    list_windows_line w windows line st = (Ok windows', st') /\
    wmctrl_calls st' = wmctrl_calls st /\
    (NoDup (dict_keys windows) -> NoDup (dict_keys windows')) /\
    (forall k, is_Some (dict_get k windows) -> is_Some (dict_get k windows')) /\
    (forall k, line_app line <> Some k -> dict_get k windows' = dict_get k windows).
Proof.
  intros Hroot Hok.
  destruct (Py.split_ws line) as [|x ws] eqn:E.
  - exists windows, st. unfold list_windows_line. rewrite E. auto.
  - assert (Hne : Py.split_ws line <> []) by (rewrite E; discriminate).
    destruct (line_ok_app line Hok Hne) as [app Happ].
    rewrite (list_windows_line_app w windows line st app Hroot Hne Happ).
    eexists _, _. split; [reflexivity|].
    split; [unfold after_line; destruct (Py.startswith "vlc" app); reflexivity|].
    split; [apply dict_set_NoDup|]. split.
    + intros k Hk. destruct (String.eqb_spec app k) as [->|Hne'].
      * rewrite dict_get_set_eq. eauto.
      * rewrite dict_get_set_ne by exact Hne'. exact Hk.
    + intros k Hk. apply dict_get_set_ne. congruence.
Qed.

Lemma list_windows_lines_ok w lines :
  Py.truthy (VIDEO_ROOT_PATH w) = true -> forallb line_ok lines = true ->
  forall windows st,
  exists windows' st',
    foldM (list_windows_line w) windows lines st = (Ok windows', st') /\
    wmctrl_calls st' = wmctrl_calls st /\
    (NoDup (dict_keys windows) -> NoDup (dict_keys windows')) /\
    (forall k, is_Some (dict_get k windows) -> is_Some (dict_get k windows')) /\
    (forall k, (forall line, In line lines -> line_app line <> Some k) ->
               dict_get k windows' = dict_get k windows).
Proof.
  intros Hroot. induction lines as [|line lines IH]; intros Hok windows st.
  - exists windows, st. cbn [foldM]. unfold ret. auto.
  - cbn [forallb] in Hok. apply andb_prop in Hok as [Hl Hls].
    destruct (list_windows_line_ok w windows line st Hroot Hl)
      as (w1 & s1 & E1 & C1 & N1 & K1 & O1).
    destruct (IH Hls w1 s1) as (w2 & s2 & E2 & C2 & N2 & K2 & O2).
    exists w2, s2. cbn [foldM]. unfold bind. rewrite E1.
    split; [exact E2|]. split; [congruence|]. split; [auto|]. split; [auto|].
    intros k Hk. rewrite O2, O1; [reflexivity| |].
    + apply Hk. left. reflexivity.
    + intros l Hl'. apply Hk. right. exact Hl'.
Qed.

Lemma dict_keys_pad (d : list (string * list string)) :
  dict_keys (map (fun kv => (fst kv, pad_titles (snd kv))) d) = dict_keys d.
Proof. unfold dict_keys. rewrite map_map. reflexivity. Qed.

Lemma pad_titles_nonempty l : pad_titles l <> [].
Proof. destruct l; discriminate. Qed.

Lemma dict_get_APPS app :
  In app APPS -> dict_get app (map (fun app => (app, @nil string)) APPS) = Some [].
Proof.
  cbn. intros [<-|[<-|[<-|[<-|[]]]]]; reflexivity.
Qed.

(** The snapshot of well-formed text: a dictionary with unique keys, among
    them every application of [APPS], whose lists of titles are not empty, and
    with the one-title list of the empty title for an application of [APPS]
    that no line names. *)
Lemma list_windows_ok w st :
  Py.truthy (VIDEO_ROOT_PATH w) = true ->
  forallb line_ok (snapshot_lines w st) = true ->
  exists items st',
    list_windows w st = (Ok items, st') /\
    NoDup (dict_keys items) /\
    (forall app titles, In (app, titles) items -> titles <> []) /\
    (forall app, In app APPS -> is_Some (dict_get app items)) /\
    (forall app, In app APPS ->
       (forall line, In line (snapshot_lines w st) -> line_app line <> Some app) ->
       dict_get app items = Some [""]).
Proof.
  intros Hroot Hok. unfold list_windows, bind, read_wmctrl.
  set (st1 := mkState _ _ _ _ _ _ _ _).
  destruct (list_windows_lines_ok w _ Hroot Hok
              (map (fun app => (app, @nil string)) APPS) st1)
    as (ws & s2 & E & _ & N & K & O).
  unfold snapshot_lines in E. rewrite E. unfold ret.
  eexists _, s2. split; [reflexivity|].
  split.
  { rewrite dict_keys_pad. apply N. unfold dict_keys. rewrite map_map. cbn.
    match goal with |- ?G => apply (bool_decide_unpack G) end. vm_compute. exact I. }
  split.
  { intros app titles Hin. apply in_map_iff in Hin as ([k v] & [= <- <-] & _).
    apply pad_titles_nonempty. }
  split.
  { intros app Happ. rewrite dict_get_pad.
    destruct (K app) as [v Hv]; [rewrite dict_get_APPS by exact Happ; eauto|].
    rewrite Hv. cbn. eauto. }
  intros app Happ Hno. rewrite dict_get_pad, (O app Hno), (dict_get_APPS app Happ).
  reflexivity.
Qed.

(** A one-title item whose slot holds the empty title: one transition on
    slot 0, which updates the history and emits nothing. *)
Lemma monitor_app_from_empty w save start app t1 new_title st :
  history st app 0 = Some (t1, "") -> new_title <> "" ->
  exists st',
    monitor_app w save start (app, [new_title]) st = (Ok tt, st') /\
    history st' app 0 = Some (now w (now_calls st), new_title) /\
    window_log_table st' = window_log_table st /\
    reported_logs (stdout st') = reported_logs (stdout st).
Proof.
  intros H Hne. apply history_Some in H as (d & Hd & Hi).
  unfold monitor_app, enumerate. cbn [fst snd enumerate_from for_].
  unfold bind at 1. unfold ensure_app. rewrite Hd.
  unfold bind at 1. rewrite (monitor_slot_known _ _ _ _ _ _ _ _ _ _ Hd Hi).
  rewrite (eqb_false "" new_title) by congruence.
  rewrite truthy_empty. cbn [negb]. unfold ret.
  eexists. split; [reflexivity|].
  split; [apply history_after_change|].
  split; [reflexivity | apply reported_logs_after_change].
Qed.

(** C7 (slot padding).  On well-formed text of the window list, the
    snapshot returns a dictionary in which every tracked application is a
    key, no list of titles is empty, and a tracked application that no line
    names has the one-title list of the empty title.  For the monitor, such an
    application then showing one window is a transition of its slot 0 from the
    empty title: the history of the slot is updated and nothing is emitted. *)
Theorem slot_padding w st :
  Py.truthy (VIDEO_ROOT_PATH w) = true ->
  forallb line_ok (snapshot_lines w st) = true ->
  (exists items st',
     list_windows w st = (Ok items, st') /\
     NoDup (dict_keys items) /\
     (forall app titles, In (app, titles) items -> titles <> []) /\
     (forall app, In app APPS -> is_Some (dict_get app items)) /\
     (forall app, In app APPS ->
        (forall line, In line (snapshot_lines w st) -> line_app line <> Some app) ->
        In (app, [""]) items)) /\
  (forall save start app t1 new_title s,
     history s app 0 = Some (t1, "") -> new_title <> "" ->
     exists s',
       monitor_app w save start (app, [new_title]) s = (Ok tt, s') /\
       history s' app 0 = Some (now w (now_calls s), new_title) /\
       window_log_table s' = window_log_table s /\
       reported_logs (stdout s') = reported_logs (stdout s)).
Proof.
  intros Hroot Hok. split.
  - destruct (list_windows_ok w st Hroot Hok) as (items & st' & E & N & Hne & Hk & Hz).
    exists items, st'. split; [exact E|]. split; [exact N|]. split; [exact Hne|].
    split; [exact Hk|]. intros app Happ Hno. apply dict_get_In. auto.
  - intros save start app t1 new_title s. apply monitor_app_from_empty.
Qed.

Example slot_padding_witness :
  exists items st',
    list_windows (w_feh true) init_state = (Ok items, st') /\
    In ("vlc.Vlc", [""]) items /\
    (forall titles, In ("feh.feh", titles) items -> titles <> []).
Proof.
  destruct (slot_padding (w_feh true) init_state)
    as [(items & st' & E & _ & Hne & _ & Hz) _].
  - reflexivity.
  - reflexivity.
  - exists items, st'. split; [exact E|]. split.
    + apply Hz; [left; reflexivity|].
      intros line [<-|[]]. vm_compute. discriminate.
    + intros titles. apply Hne.
Defined.

(** The scenario of the specification: VLC has no window at the first poll
    and plays a file at the second; slot 0 goes from the empty title to the
    file and nothing is stored.  At the third poll the player has no file
    left, the padded empty title closes the segment, and its record is
    stored. *)
Example padding_scenario :
  history (snd (window_monitor w_vlc true 1 init_state)) "vlc.Vlc" 0 = Some (110, "") /\
  history (snd (window_monitor w_vlc true 2 init_state)) "vlc.Vlc" 0
  = Some (150, "movies/x.mkv") /\
  window_log_table (snd (window_monitor w_vlc true 2 init_state)) = [] /\
  window_log_table (snd (window_monitor w_vlc true 3 init_state))
  = [mkWindowLog 150 170 "vlc.Vlc" "movies/x.mkv" None].
Proof. vm_compute. repeat split. Qed.

Lemma extend_titles_Some l titles : extend_titles (Some l) titles = Some (l ++ titles)%list.
Proof. destruct titles; reflexivity. Qed.

Lemma extend_titles_cons old t titles :
  extend_titles old (t :: titles) = Some (default [] old ++ t :: titles)%list.
Proof. destruct old; reflexivity. Qed.

Lemma extend_titles_nil old : extend_titles old [] = old.
Proof. destruct old; cbn; [rewrite app_nil_r|]; reflexivity. Qed.

Lemma player_block_cons w n : exists t titles, player_block w n = t :: titles.
Proof.
  unfold player_block.
  destruct (open_files_of w false (lsof w n)) as [|f fs]; eauto.
Qed.

Lemma line_titles_player w st line app :
  Py.startswith "vlc" app = true ->
  line_titles w st line app = player_block w (lsof_calls st).
Proof. intros H. unfold line_titles, player_block. rewrite H. reflexivity. Qed.

(** The list of an application of the player after the window lines. *)
Lemma player_slots_lines w app lines :
  Py.truthy (VIDEO_ROOT_PATH w) = true -> forallb line_ok lines = true ->
  Py.startswith "vlc" app = true ->
  forall windows st,
    match fst (foldM (list_windows_line w) windows lines st) with
    | Ok windows' =>
        dict_get app windows'
        = extend_titles (dict_get app windows)
                        (player_slots w (lsof_calls st) app lines)
    | Raise _ => False
    end.
Proof.
  intros Hroot Hok Hvlc. induction lines as [|line lines IH]; intros windows st.
  - cbn [foldM ret fst player_slots]. rewrite extend_titles_nil. reflexivity.
  - cbn [forallb] in Hok. apply andb_prop in Hok as [Hl Hls]. specialize (IH Hls).
    cbn [foldM player_slots]. unfold bind.
    destruct (Py.split_ws line) as [|x ws] eqn:E.
    + assert (E1 : list_windows_line w windows line st = (Ok windows, st)).
      { unfold list_windows_line. rewrite E. reflexivity. }
      rewrite E1. unfold line_app. rewrite E. cbn [nth_error]. apply IH.
    + assert (Hne : Py.split_ws line <> []) by (rewrite E; discriminate).
      destruct (line_ok_app line Hl Hne) as [a Ha].
      rewrite (list_windows_line_app w windows line st a Hroot Hne Ha), Ha.
      specialize (IH (dict_set a
          (default [] (dict_get a windows) ++ line_titles w st line a)%list windows)
          (after_line st a)).
      destruct (fst (foldM _ _ lines _)) as [windows'|]; [|exact IH].
      rewrite IH. unfold after_line.
      destruct (Py.startswith "vlc" a) eqn:Hva.
      * cbn [lsof_calls]. destruct (String.eqb_spec a app) as [->|Hne'].
        -- rewrite dict_get_set_eq, extend_titles_Some, (line_titles_player _ _ _ _ Hvlc).
           destruct (player_block_cons w (lsof_calls st)) as (t & titles & Eb).
           rewrite Eb. cbn [Datatypes.app]. rewrite extend_titles_cons, <- app_assoc.
           reflexivity.
        -- rewrite dict_get_set_ne by exact Hne'. reflexivity.
      * destruct (String.eqb_spec a app) as [->|Hne']; [congruence|].
        rewrite dict_get_set_ne by exact Hne'. reflexivity.
Qed.

Lemma player_slots_none w n app lines :
  (forall l a, In l lines -> line_app l = Some a -> Py.startswith "vlc" a = false) ->
  player_slots w n app lines = [].
Proof.
  induction lines as [|line lines IH]; intros H; [reflexivity|].
  cbn [player_slots]. destruct (line_app line) as [a|] eqn:Ha.
  - rewrite (H line a (or_introl eq_refl) Ha). apply IH.
    intros l b Hl. apply H. right. exact Hl.
  - apply IH. intros l b Hl. apply H. right. exact Hl.
Qed.

Lemma player_slots_one w n app pre line post :
  line_app line = Some app -> Py.startswith "vlc" app = true ->
  (forall l a, In l (pre ++ post)%list -> line_app l = Some a ->
               Py.startswith "vlc" a = false) ->
  player_slots w n app (pre ++ line :: post)%list = player_block w n.
Proof.
  intros Ha Hvlc. induction pre as [|l pre IH]; intros H.
  - cbn [Datatypes.app player_slots]. rewrite Ha, Hvlc, String.eqb_refl.
    rewrite (player_slots_none w (S n) app post H). apply app_nil_r.
  - cbn [Datatypes.app player_slots]. destruct (line_app l) as [a|] eqn:Hl.
    + rewrite (H l a (or_introl eq_refl) Hl). apply IH.
      intros l' b Hl'. apply H. right. exact Hl'.
    + apply IH. intros l' b Hl'. apply H. right. exact Hl'.
Qed.

Lemma player_slots_some w app lines :
  Py.startswith "vlc" app = true ->
  (exists line, In line lines /\ line_app line = Some app) ->
  forall n, player_slots w n app lines <> [].
Proof.
  intros Hvlc (line & Hline & Happ).
  induction lines as [|l ls IH]; [contradiction|].
  intros n. cbn [player_slots]. destruct Hline as [->|Hline].
  - rewrite Happ, Hvlc, String.eqb_refl.
    destruct (player_block_cons w n) as (t & titles & ->). discriminate.
  - destruct (line_app l) as [a|]; [|apply IH, Hline].
    destruct (Py.startswith "vlc" a); [|apply IH, Hline].
    intros E. apply app_eq_nil in E as [_ E]. exact (IH Hline _ E).
Qed.

Lemma default_APPS app :
  default [] (dict_get app (map (fun app => (app, @nil string)) APPS)) = [].
Proof.
  cbn. repeat match goal with |- context [if ?b then _ else _] => destruct b end;
    reflexivity.
Qed.

(** C9 (media-player slots).  For an application whose class starts with
    vlc, with the video root set and text in ASCII, the snapshot of
    well-formed window lines returns, and the list of the application is made
    window by window: each window line of the player asks the player for its
    open files anew and adds them, in the order of the report, in place of the
    title of the window, or adds the one empty title when the player reports
    no file; the title of the window itself is never used.  So with exactly
    one window of the player the snapshot has one slot per open file in file
    order, or the one empty title; with several windows the files are there
    once per window. *)
Theorem media_player_slots_of_snapshot w st app :
  Py.truthy (VIDEO_ROOT_PATH w) = true ->
  ascii_text (wmctrl w (wmctrl_calls st)) = true ->
  (forall n, ascii_text (lsof w n) = true) ->
  forallb line_ok (snapshot_lines w st) = true ->
  Py.startswith "vlc" app = true ->
  In app APPS \/
  (exists line, In line (snapshot_lines w st) /\ line_app line = Some app) ->
  exists items st',
    list_windows w st = (Ok items, st') /\
    dict_get app items
    = Some (pad_titles (player_slots w (lsof_calls st) app (snapshot_lines w st))) /\
    (forall pre line post,
       snapshot_lines w st = (pre ++ line :: post)%list ->
       line_app line = Some app ->
       (forall l a, In l (pre ++ post)%list -> line_app l = Some a ->
                    Py.startswith "vlc" a = false) ->
       dict_get app items
       = Some (match open_files_of w false (lsof w (lsof_calls st)) with
               | [] => [""]
               | _ :: _ => open_files_of w false (lsof w (lsof_calls st))
               end)).
Proof.
  intros Hroot _ _ Hok Hvlc Hin.
  assert (H : exists items st',
             list_windows w st = (Ok items, st') /\
             dict_get app items
             = Some (pad_titles (player_slots w (lsof_calls st) app
                                              (snapshot_lines w st)))).
  { unfold list_windows, bind, read_wmctrl.
    set (st1 := mkState _ _ _ _ _ _ _ _).
    pose proof (player_slots_lines w app (snapshot_lines w st) Hroot Hok Hvlc
                  (map (fun app => (app, @nil string)) APPS) st1) as H.
    unfold snapshot_lines in H at 1.
    destruct (foldM _ _ _ st1) as [[windows|e] s2]; cbn [fst] in H; [|contradiction].
    unfold ret. eexists _, s2. split; [reflexivity|].
    rewrite dict_get_pad, H. subst st1. cbn [lsof_calls].
    destruct Hin as [Happ|(line & Hline & Happ)].
    - rewrite (dict_get_APPS app Happ), extend_titles_Some. reflexivity.
    - destruct (player_slots w (lsof_calls st) app (snapshot_lines w st))
        as [|t titles] eqn:Es.
      + exfalso. revert Es. apply player_slots_some; eauto.
      + rewrite extend_titles_cons, default_APPS. reflexivity. }
  destruct H as (items & st' & E & Hget). exists items, st'.
  split; [exact E|]. split; [exact Hget|].
  intros pre line post Hlines Happ Hothers.
  rewrite Hget, Hlines, (player_slots_one w _ app pre line post Happ Hvlc Hothers).
  unfold player_block.
  destruct (open_files_of w false (lsof w (lsof_calls st))); reflexivity.
Qed.

Example media_player_slots_of_snapshot_witness :
  exists items st',
    list_windows w_vlc (after_pipes init_state 1 0) = (Ok items, st') /\
    dict_get "vlc.Vlc" items = Some ["movies/x.mkv"; "movies/y.mkv"].
Proof.
  destruct (media_player_slots_of_snapshot w_vlc (after_pipes init_state 1 0) "vlc.Vlc")
    as (items & st' & E & Hget & _).
  - reflexivity.
  - reflexivity.
  - intros [|n]; reflexivity.
  - reflexivity.
  - reflexivity.
  - left. left. reflexivity.
  - exists items, st'. split; [exact E|]. rewrite Hget. reflexivity.
Defined.

(** Two windows of the player and two open files: the snapshot has four
    slots, the files once per window, and not one slot per file. *)
Lemma media_player_counterexample :
  ~ one_slot_per_open_file w_two_players init_state.
Proof.
  intros H.
  specialize (H _ _ "vlc.Vlc"
                ["movies/x.mkv"; "movies/y.mkv"; "movies/x.mkv"; "movies/y.mkv"]
                eq_refl eq_refl).
  assert (E : ["movies/x.mkv"; "movies/y.mkv"; "movies/x.mkv"; "movies/y.mkv"]
              = open_files_of w_two_players false
                  (lsof w_two_players (lsof_calls init_state))).
  { apply H.
    - exists "0x02 0 vlc.Vlc host VLC media player". split; [left|]; reflexivity.
    - reflexivity.
    - vm_compute. discriminate. }
  vm_compute in E. discriminate E.
Qed.

(** With no file open, the window of the player gives the empty title, not
    its own. *)
Example media_player_no_file :
  fst (list_windows w_vlc (snd (window_monitor w_vlc true 2 init_state)))
  = Ok [("vlc.Vlc", [""]); ("feh.feh", [""]); ("google-chrome", [""]);
        ("Chromium-browser.Chromium-browser", [""])].
Proof. vm_compute. reflexivity. Qed.

(** ** The scan *)

Lemma path_in_table_app p t t' :
  path_in_table p (t ++ t') = path_in_table p t || path_in_table p t'.
Proof. unfold path_in_table. apply existsb_app. Qed.

(** The loop body on a file that qualifies, by whether its path is in the
    table. *)
Lemma scan_file_qualifies w p size st :
  os_stat w (Py.path_join (VIDEO_ROOT_PATH w) p) = Some size ->
  MINIMUM_VIDEO_SIZE < size ->
  scan_file w p st = add_commit_video w p size st.
Proof.
  intros Hs Hm. unfold scan_file. rewrite Hs.
  apply Z.ltb_lt in Hm. rewrite Hm. reflexivity.
Qed.

Lemma add_commit_video_duplicate w p size st :
  path_in_table p (video_table st) = true ->
  exists st',
    add_commit_video w p size st = (Raise IntegrityError, st') /\
    video_table st' = video_table st /\
    commit_calls st' = S (commit_calls st).
Proof.
  intros H. unfold add_commit_video. rewrite H. eexists. split; [reflexivity|]. auto.
Qed.

(** A step of the scan that returns normally: the file could be read, the
    rows of the table are kept, and the file is in the table if it qualifies. *)
Lemma scan_file_ok w p st st1 :
  scan_file w p st = (Ok tt, st1) ->
  is_Some (os_stat w (Py.path_join (VIDEO_ROOT_PATH w) p)) /\
  (forall q, path_in_table q (video_table st) = true ->
             path_in_table q (video_table st1) = true) /\
  (qualifies w p -> path_in_table p (video_table st1) = true).
Proof.
  unfold scan_file, qualifies.
  destruct (os_stat w (Py.path_join (VIDEO_ROOT_PATH w) p)) as [size|];
    [|discriminate].
  destruct (MINIMUM_VIDEO_SIZE <? size) eqn:Hm.
  - unfold add_commit_video.
    destruct (path_in_table p (video_table st)); [discriminate|].
    destruct (commit_ok w (commit_calls st)); [|discriminate].
    intros [= <-]. sproj. split; [eauto|]. split.
    + intros q Hq. rewrite path_in_table_app, Hq. reflexivity.
    + intros _. rewrite path_in_table_app. unfold path_in_table at 2.
      cbn [existsb path]. rewrite String.eqb_refl. apply orb_true_iff. auto.
  - unfold ret. intros [= <-]. split; [eauto|]. split; [auto|].
    intros (size' & [= <-] & Hlt). apply Z.ltb_lt in Hlt. congruence.
Qed.

Lemma scan_loop_ok w l st st1 :
  for_ l (scan_file w) st = (Ok tt, st1) ->
  (forall p, In p l -> is_Some (os_stat w (Py.path_join (VIDEO_ROOT_PATH w) p))) /\
  (forall q, path_in_table q (video_table st) = true ->
             path_in_table q (video_table st1) = true) /\
  (forall p, In p l -> qualifies w p -> path_in_table p (video_table st1) = true).
Proof.
  revert st. induction l as [|p l IH]; intros st; cbn [for_].
  - unfold ret. intros [= <-]. split; [intros p []|]. split; [auto | intros p []].
  - unfold bind. destruct (scan_file w p st) as [[[]|e] s] eqn:E; [|discriminate].
    intros H. destruct (scan_file_ok w p st s E) as (Hs & Hk & Hq).
    destruct (IH s H) as (Hs' & Hk' & Hq').
    split; [intros q [<-|Hin]; auto|]. split; [auto|].
    intros q [<-|Hin] Hqual; auto.
Qed.

(** The loop over files that can all be read and, when they qualify, are all
    in the table: it stops at the first that qualifies, with an integrity
    error, and the table is the one it started with. *)
Lemma scan_loop_again w l st :
  (forall p, In p l -> is_Some (os_stat w (Py.path_join (VIDEO_ROOT_PATH w) p))) ->
  (forall p, In p l -> qualifies w p -> path_in_table p (video_table st) = true) ->
  (exists p, In p l /\ qualifies w p) ->
  exists st',
    for_ l (scan_file w) st = (Raise IntegrityError, st') /\
    video_table st' = video_table st.
Proof.
  induction l as [|p l IH]; intros Hs Hq (q & Hin & Hqual); [destruct Hin|].
  cbn [for_]. unfold bind.
  destruct (Hs p) as [size Hsize]; [left; reflexivity|].
  destruct (Z.ltb_spec MINIMUM_VIDEO_SIZE size) as [Hlt|Hge].
  - rewrite (scan_file_qualifies w p size st Hsize Hlt).
    destruct (add_commit_video_duplicate w p size st) as (st' & E & Ht & _).
    { apply Hq; [left; reflexivity | exists size; auto]. }
    rewrite E. eauto.
  - assert (E : scan_file w p st = (Ok tt, st)).
    { unfold scan_file. rewrite Hsize.
      destruct (Z.ltb_spec MINIMUM_VIDEO_SIZE size); [lia | reflexivity]. }
    rewrite E. apply IH.
    + intros p' Hp'. apply Hs. right. exact Hp'.
    + intros p' Hp'. apply Hq. right. exact Hp'.
    + destruct Hin as [<-|Hin].
      * destruct Hqual as (size' & Hs' & Hlt). rewrite Hsize in Hs'.
        injection Hs' as <-. lia.
      * eauto.
Qed.

(** The scan keeps the paths of the table unique, however it ends. *)
Lemma path_in_table_false p t :
  path_in_table p t = false -> ~ In p (map path t).
Proof.
  unfold path_in_table. intros H Hin. apply in_map_iff in Hin as (v & <- & Hv).
  assert (E : existsb (fun v0 => String.eqb (path v0) (path v)) t = true).
  { apply existsb_exists. exists v. split; [exact Hv | apply String.eqb_refl]. }
  congruence.
Qed.

Lemma scan_file_unique w p st :
  unique_paths (video_table st) ->
  unique_paths (video_table (snd (scan_file w p st))).
Proof.
  intros Hu. unfold scan_file.
  destruct (os_stat w (Py.path_join (VIDEO_ROOT_PATH w) p)) as [size|]; [|exact Hu].
  destruct (MINIMUM_VIDEO_SIZE <? size); [|exact Hu].
  unfold add_commit_video.
  destruct (path_in_table p (video_table st)) eqn:E; [exact Hu|].
  destruct (commit_ok w (commit_calls st)); [|exact Hu].
  cbn [snd video_table]. unfold unique_paths in *. rewrite map_app. cbn [map path].
  apply NoDup_app. split; [exact Hu|]. split; [|apply NoDup_singleton].
  intros x Hx Hp. apply list_elem_of_In in Hx, Hp. destruct Hp as [<-|[]].
  exact (path_in_table_false p _ E Hx).
Qed.

Lemma scan_keeps_unique_paths w st :
  unique_paths (video_table st) ->
  unique_paths (video_table (snd (scan_video_files w st))).
Proof.
  unfold scan_video_files, bind, check_video_root_path.
  destruct (Py.truthy (VIDEO_ROOT_PATH w)); [|intros H; exact H].
  unfold ret. generalize (partial_paths w). intros l. revert st.
  induction l as [|p l IH]; intros st Hu; [exact Hu|].
  cbn [for_]. unfold bind.
  assert (H1 := scan_file_unique w p st Hu).
  destruct (scan_file w p st) as [[[]|e] s1]; cbn [snd] in *; [apply IH|]; exact H1.
Qed.

(** C10 (the scan is not idempotent).  A file that qualifies and whose
    relative path is already a path of the table is not skipped and its row is
    not updated: the loop body adds it without looking, the store refuses the
    commit with an integrity error, and the table keeps its rows.  So a scan
    that returned normally cannot be repeated: whenever some file qualified,
    the next scan of the same files ends with the integrity error and adds
    nothing. *)
Theorem scan_is_not_idempotent w :
  (forall st p,
     qualifies w p -> path_in_table p (video_table st) = true ->
     exists st',
       scan_file w p st = (Raise IntegrityError, st') /\
       video_table st' = video_table st /\
       commit_calls st' = S (commit_calls st)) /\
  (forall st st1,
     scan_video_files w st = (Ok tt, st1) ->
     (exists p, In p (partial_paths w) /\ qualifies w p) ->
     exists st2,
       scan_video_files w st1 = (Raise IntegrityError, st2) /\
       video_table st2 = video_table st1).
Proof.
  split.
  - intros st p (size & Hs & Hlt) Hin.
    rewrite (scan_file_qualifies w p size st Hs Hlt).
    apply add_commit_video_duplicate. exact Hin.
  - intros st st1. unfold scan_video_files, bind, check_video_root_path.
    destruct (Py.truthy (VIDEO_ROOT_PATH w)); [|discriminate].
    unfold ret. intros H Hex.
    destruct (scan_loop_ok w _ st st1 H) as (Hs & _ & Hq).
    apply scan_loop_again; assumption.
Qed.

Example scan_is_not_idempotent_witness :
  exists st2,
    scan_video_files w_scan (snd (scan_video_files w_scan init_state))
    = (Raise IntegrityError, st2) /\
    video_table st2 = [mkVideo 1 "movies/x.mkv" 20000000].
Proof.
  apply (proj2 (scan_is_not_idempotent w_scan) init_state
           (snd (scan_video_files w_scan init_state))).
  - vm_compute. reflexivity.
  - exists "movies/x.mkv". split; [vm_compute; left; reflexivity|].
    exists 20000000. split; [vm_compute; reflexivity | reflexivity].
Defined.

(** What the first scan of the example directory saves: the large video, not
    the small one and not the text file. *)
Example scan_example :
  scan_video_files w_scan init_state
  = (Ok tt, mkState ∅ [] [mkVideo 1 "movies/x.mkv" 20000000] [] 0 0 0 1).
Proof. vm_compute. reflexivity. Qed.

(** * Further properties *)

(** ** Outcomes of computations *)

Lemma hoare_weaken {A} (P P' : State -> Prop) (c : M A)
    (Q Q' : result A -> State -> Prop) :
  (forall st, P' st -> P st) -> (forall r st, Q r st -> Q' r st) ->
  hoare P c Q -> hoare P' c Q'.
Proof. intros HP HQ H st Hst. apply HQ, H, HP, Hst. Qed.

Lemma hoare_bind {A B} (P : State -> Prop) (c : M A) (Q : result A -> State -> Prop)
    (k : A -> M B) (R : result B -> State -> Prop) :
  hoare P c Q ->
  (forall a, hoare (Q (Ok a)) (k a) R) ->
  (forall e st, Q (Raise e) st -> R (Raise e) st) ->
  hoare P (bind c k) R.
Proof.
  intros Hc Hk He st Hst. unfold bind. specialize (Hc st Hst).
  destruct (c st) as [[a|e] s1]; cbn [fst snd] in *; [apply Hk | apply He]; exact Hc.
Qed.

(** A loop whose invariant may depend on the elements still to come. *)
Lemma hoare_for {A} (I : list A -> State -> Prop) (E : exn -> State -> Prop)
    (body : A -> M unit) (l : list A) :
  (forall x rest, hoare (I (x :: rest)) (body x) (outcome (I rest) E)) ->
  hoare (I l) (for_ l body) (outcome (I []) E).
Proof.
  intros Hb. induction l as [|x l IH]; cbn [for_].
  - intros st Hst. exact Hst.
  - apply (hoare_bind _ _ (outcome (I l) E)); [apply Hb | intros []; exact IH | auto].
Qed.

(** ** What the snapshot does to the state, and how it can fail *)

Lemma after_pipes_zero st : after_pipes st 0 0 = st.
Proof. destruct st. unfold after_pipes. cbn. rewrite !Nat.add_0_r. reflexivity. Qed.

Lemma after_pipes_after_pipes st a b c d :
  after_pipes (after_pipes st a b) c d = after_pipes st (a + c) (b + d).
Proof. unfold after_pipes. cbn. rewrite !Nat.add_assoc. reflexivity. Qed.

(** One line: nothing for a blank line, an index error for a line without
    its third word, a value error for a window of the player when the video
    root is not set, and otherwise the titles of the line added to its
    application. *)
Lemma list_windows_line_cases w windows line st :
  (Py.split_ws line = [] /\
   list_windows_line w windows line st = (Ok windows, st)) \/
  (Py.split_ws line <> [] /\ line_app line = None /\
   list_windows_line w windows line st = (Raise IndexError, st)) \/
  (exists app, line_app line = Some app /\ Py.startswith "vlc" app = true /\
               Py.truthy (VIDEO_ROOT_PATH w) = false /\
               list_windows_line w windows line st = (Raise ValueError, st)) \/
  (exists app, line_app line = Some app /\
               (Py.startswith "vlc" app = true -> Py.truthy (VIDEO_ROOT_PATH w) = true) /\
               list_windows_line w windows line st
               = (Ok (dict_set app
                        (default [] (dict_get app windows) ++ line_titles w st line app)%list
                        windows),
                  after_line st app)).
Proof.
  unfold list_windows_line, line_app, line_titles, after_line.
  destruct (Py.split_ws line) as [|x ws] eqn:Ews; [left; auto|].
  right. destruct (nth_error (x :: ws) 2) as [app|] eqn:Happ.
  - right. cbv zeta. destruct (Py.startswith "vlc" app) eqn:Hvlc.
    + unfold list_vlc_open_files, check_video_root_path.
      destruct (Py.truthy (VIDEO_ROOT_PATH w)) eqn:Hroot.
      * right. exists app. split; [reflexivity|]. split; [auto|].
        rewrite Hvlc. unfold bind, ret, read_lsof. sproj.
        destruct (open_files_of w false (lsof w (lsof_calls st))) as [|f fs];
          unfold dict_extend; rewrite dict_ensure_get, dict_ensure_set; reflexivity.
      * left. exists app. auto.
    + right. exists app. split; [reflexivity|]. rewrite Hvlc.
      split; [discriminate|].
      unfold dict_extend. rewrite dict_ensure_get, dict_ensure_set. reflexivity.
  - left. split; [discriminate|]. auto.
Qed.

Lemma after_line_pipes st app : exists k, after_line st app = after_pipes st 0 k.
Proof.
  unfold after_line. destruct (Py.startswith "vlc" app).
  - exists 1%nat. unfold after_pipes. rewrite Nat.add_0_r, Nat.add_1_r. reflexivity.
  - exists 0%nat. symmetry. apply after_pipes_zero.
Qed.

(** The loop over the lines reads the pipe of the player some times and does
    nothing else to the state; it can fail with an index error or a value
    error only, and it keeps the keys of the dictionary distinct. *)
Lemma list_windows_lines_effect w lines :
  forall windows st,
  exists k,
    snd (foldM (list_windows_line w) windows lines st) = after_pipes st 0 k /\
    match fst (foldM (list_windows_line w) windows lines st) with
    | Ok windows' => NoDup (dict_keys windows) -> NoDup (dict_keys windows')
    | Raise e => e = IndexError \/ e = ValueError
    end.
Proof.
  induction lines as [|line lines IH]; intros windows st; cbn [foldM].
  - exists 0%nat. unfold ret. cbn [fst snd]. rewrite after_pipes_zero. auto.
  - unfold bind.
    destruct (list_windows_line_cases w windows line st)
      as [[_ E]|[(_ & _ & E)|[(app & _ & _ & _ & E)|(app & _ & _ & E)]]]; rewrite E.
    + apply IH.
    + exists 0%nat. cbn [fst snd]. rewrite after_pipes_zero. auto.
    + exists 0%nat. cbn [fst snd]. rewrite after_pipes_zero. auto.
    + destruct (after_line_pipes st app) as [k1 ->].
      destruct (IH (dict_set app
                      (default [] (dict_get app windows) ++ line_titles w st line app)%list
                      windows) (after_pipes st 0 k1)) as (k2 & Hs & Hr).
      exists (k1 + k2)%nat. rewrite Hs, after_pipes_after_pipes. split; [reflexivity|].
      destruct (fst (foldM _ _ _ _)); [|exact Hr].
      intros Hn. apply Hr, dict_set_NoDup, Hn.
Qed.

Lemma APPS_NoDup : NoDup (dict_keys (map (fun app => (app, @nil string)) APPS)).
Proof.
  unfold dict_keys. rewrite map_map. cbn.
  match goal with |- ?G => apply (bool_decide_unpack G) end. vm_compute. exact I.
Qed.

(** The snapshot: what it does to the state, how it can fail, and the shape
    of the dictionary it returns. *)
Lemma list_windows_effect w st :
  exists k,
    snd (list_windows w st) = after_pipes st 1 k /\
    match fst (list_windows w st) with
    | Ok items =>
        NoDup (dict_keys items) /\
        (forall app titles, In (app, titles) items -> titles <> [])
    | Raise e => e = IndexError \/ e = ValueError
    end.
Proof.
  unfold list_windows, bind, read_wmctrl.
  set (st1 := mkState _ _ _ _ _ _ _ _).
  destruct (list_windows_lines_effect w (Py.split_on newline (wmctrl w (wmctrl_calls st)))
              (map (fun app => (app, @nil string)) APPS) st1) as (k & Hs & Hr).
  exists k.
  destruct (foldM _ _ _ st1) as [[windows|e] s2]; cbn [fst snd] in *.
  - unfold ret. cbn [fst snd]. split.
    + rewrite Hs. unfold st1, after_pipes. cbn. f_equal; lia.
    + split; [rewrite dict_keys_pad; apply Hr, APPS_NoDup|].
      intros app titles Hin. apply in_map_iff in Hin as ([a v] & [= <- <-] & _).
      apply pad_titles_nonempty.
  - split; [|exact Hr].
    rewrite Hs. unfold st1, after_pipes. cbn. f_equal; lia.
Qed.

(** ** What the loop body does to the state *)

Lemma history_None_lookup st app index d :
  last st !! app = Some d -> history st app index = None ->
  default None (d !! index) = None.
Proof. unfold history. intros ->. auto. Qed.

Lemma monitor_slot_effect w save start app index new_title st :
  slot_effect w save app index new_title st
    (fst (monitor_slot w save start app index new_title st))
    (snd (monitor_slot w save start app index new_title st)).
Proof.
  destruct (last st !! app) as [d|] eqn:Hd.
  - destruct (history st app index) as [[t old_title]|] eqn:Hh.
    + destruct (history_Some _ _ _ _ Hh) as (d' & Hd' & Hi).
      rewrite Hd in Hd'. injection Hd' as <-.
      rewrite (monitor_slot_known _ _ _ _ _ _ _ _ _ _ Hd Hi).
      destruct (String.eqb_spec old_title new_title) as [->|Hne];
        [apply (slot_same _ _ _ _ _ _ t); exact Hh|].
      cbv zeta. destruct (String.eqb_spec old_title "") as [->|Hold].
      * cbn [Py.truthy negb]. rewrite truthy_empty. cbn [negb fst snd].
        apply (slot_from_empty _ _ _ _ _ _ d t); auto.
      * rewrite (truthy_true _ Hold). cbn [negb].
        destruct (List.filter (fun v => String.eqb (path v) old_title) (video_table st))
          as [|v [|v' vs]] eqn:Hf.
        -- pose proof (slot_emit w save app index new_title st d t old_title
                         Hd Hh Hold Hne) as H.
           rewrite Hf in H. apply H. cbn. lia.
        -- pose proof (slot_emit w save app index new_title st d t old_title
                         Hd Hh Hold Hne) as H.
           rewrite Hf in H. apply H. cbn. lia.
        -- cbn [fst snd]. apply (slot_ambiguous _ _ _ _ _ _ d t old_title); auto.
           rewrite Hf. cbn. lia.
    + rewrite (monitor_slot_fresh _ _ _ _ _ _ _ _ Hd (history_None_lookup _ _ _ _ Hd Hh)).
      apply slot_seed; assumption.
  - unfold monitor_slot, bind, last_getitem. rewrite Hd. apply slot_no_dict. exact Hd.
Qed.

Lemma slot_effect_tracked w save app index new_title st r st' :
  slot_effect w save app index new_title st r st' ->
  last st !! app <> None -> last st' !! app <> None.
Proof.
  intros H Ht. destruct H; try assumption;
    try (unfold after_change; sproj; rewrite lookup_insert_eq; discriminate).
  repeat match goal with x := _ |- _ => subst x end.
  match goal with |- context [emit ?a ?b ?c ?d] =>
    destruct (emit_spec a b c d) as (s & E & Hl & _) end.
  rewrite E. cbn [snd]. rewrite Hl. unfold after_change. sproj.
  rewrite lookup_insert_eq. discriminate.
Qed.

Lemma ensure_app_effect app st :
  fst (ensure_app app st) = Ok tt /\
  last (snd (ensure_app app st)) !! app <> None /\
  (forall b, b <> app -> last (snd (ensure_app app st)) !! b = last st !! b) /\
  (last st !! app <> None -> snd (ensure_app app st) = st) /\
  (last st !! app = None -> last (snd (ensure_app app st)) !! app = Some ∅) /\
  stdout (snd (ensure_app app st)) = stdout st /\
  video_table (snd (ensure_app app st)) = video_table st /\
  window_log_table (snd (ensure_app app st)) = window_log_table st /\
  now_calls (snd (ensure_app app st)) = now_calls st /\
  commit_calls (snd (ensure_app app st)) = commit_calls st.
Proof.
  unfold ensure_app. destruct (last st !! app) as [d|] eqn:Hd; cbn [fst snd].
  - rewrite Hd. repeat split; auto; discriminate.
  - unfold set_last. sproj. rewrite lookup_insert_eq.
    repeat split; auto; try discriminate.
    + intros b Hb. apply lookup_insert_ne. congruence.
    + intros H. contradiction.
Qed.

Lemma window_monitor_started w save polls st :
  window_monitor w save polls st
  = monitor_loop w save (now w (now_calls st)) polls (monitor_started w st).
Proof. reflexivity. Qed.

(** ** A rule for the invariants of a run *)

Section MonitorRule.

Variable w : World.
Variable save : bool.
Variable I : State -> Prop.
Variable E : exn -> State -> Prop.

Hypothesis I_pipes : forall st a b, I st -> I (after_pipes st a b).
Hypothesis E_snapshot :
  forall st a b e, I st -> e = IndexError \/ e = ValueError ->
                   E e (after_pipes st a b).
Hypothesis I_ensure : forall app st, I st -> I (snd (ensure_app app st)).
Hypothesis I_slot :
  forall app index new_title st r st',
    I st -> last st !! app <> None ->
    slot_effect w save app index new_title st r st' ->
    @outcome unit I E r st'.

Lemma monitor_app_rule start item :
  hoare I (monitor_app w save start item) (outcome I E).
Proof.
  unfold monitor_app.
  apply (hoare_bind _ _ (outcome (fun st => I st /\ last st !! fst item <> None) E)).
  - intros st Hst. destruct (ensure_app_effect (fst item) st) as (Hr & Ht & _).
    rewrite Hr. cbn [outcome]. split; [apply I_ensure, Hst | exact Ht].
  - intros [].
    apply (hoare_weaken (fun st => I st /\ last st !! fst item <> None) _ _
             (outcome (fun st => I st /\ last st !! fst item <> None) E));
      [auto | intros [[]|e] st; cbn [outcome]; tauto |].
    apply (hoare_for (fun _ st => I st /\ last st !! fst item <> None)).
    intros it rest st [Hi Ht].
    pose proof (monitor_slot_effect w save start (fst item) (fst it) (snd it) st) as Hs.
    pose proof (I_slot _ _ _ _ _ _ Hi Ht Hs) as Ho.
    pose proof (slot_effect_tracked _ _ _ _ _ _ _ _ Hs Ht) as Ht'.
    destruct (fst (monitor_slot _ _ _ _ _ _ st)) as [[]|e]; cbn [outcome] in *; auto.
  - auto.
Qed.

Lemma monitor_poll_rule start :
  hoare I (monitor_poll w save start) (outcome I E).
Proof.
  unfold monitor_poll.
  apply (hoare_bind _ _ (outcome I E)).
  - intros st Hst. destruct (list_windows_effect w st) as (k & Hs & Hr).
    rewrite Hs. destruct (fst (list_windows w st)) as [items|e]; cbn [outcome].
    + apply I_pipes, Hst.
    + apply E_snapshot; assumption.
  - intros items. apply (hoare_for (fun _ => I)). intros item rest.
    apply monitor_app_rule.
  - auto.
Qed.

Lemma monitor_loop_rule start polls :
  hoare I (monitor_loop w save start polls) (outcome I E).
Proof.
  induction polls as [|n IH]; cbn [monitor_loop].
  - intros st Hst. exact Hst.
  - apply (hoare_bind _ _ (outcome I E));
      [apply monitor_poll_rule | intros []; exact IH | auto].
Qed.

Lemma window_monitor_rule polls st :
  I (monitor_started w st) ->
  @outcome unit I E (fst (window_monitor w save polls st))
                    (snd (window_monitor w save polls st)).
Proof.
  intros H. rewrite window_monitor_started. apply monitor_loop_rule, H.
Qed.

End MonitorRule.

(** ** Invariants of a run of the monitor *)

Lemma emit_effect w save l st :
  fst (emit w save l st)
  = (if save && negb (commit_ok w (commit_calls st))
     then Raise OperationalError else Ok tt) /\
  last (snd (emit w save l st)) = last st /\
  stdout (snd (emit w save l st)) = (stdout st ++ [LogLine l])%list /\
  video_table (snd (emit w save l st)) = video_table st /\
  window_log_table (snd (emit w save l st))
  = (if save && commit_ok w (commit_calls st)
     then (window_log_table st ++ [l])%list else window_log_table st) /\
  now_calls (snd (emit w save l st)) = now_calls st.
Proof.
  unfold emit, add_commit_window_log, ret.
  destruct save; sproj; [destruct (commit_ok w (commit_calls st))|];
    cbn [andb negb fst snd]; sproj; auto 10.
Qed.

Lemma slot_effect_video_table w save app index new_title st r st' :
  slot_effect w save app index new_title st r st' ->
  video_table st' = video_table st.
Proof.
  intros H. destruct H; try reflexivity.
  repeat match goal with x := _ |- _ => subst x end.
  match goal with |- context [emit ?a ?b ?c ?d] =>
    destruct (emit_effect a b c d) as (_ & _ & _ & Hv & _) end.
  rewrite Hv. reflexivity.
Qed.

(** X1.  The lookups of the monitor never end a run.  A run does not end
    with a key error: the dictionary of an application is there before its
    slots are read, and reading a slot that was never stored gives the empty
    tuple.  It does not end with the error of a lookup without a row: that
    one is caught, and the link is null.  And with a catalog of distinct
    paths it does not end with the error of an ambiguous lookup. *)
Theorem lookups_never_end_a_run w save polls st :
  unique_paths (video_table st) ->
  fst (window_monitor w save polls st) <> Raise KeyError /\
  fst (window_monitor w save polls st) <> Raise NoResultFound /\
  fst (window_monitor w save polls st) <> Raise MultipleResultsFound.
Proof.
  intros Hu.
  set (E := fun (e : exn) (_ : State) =>
              e <> KeyError /\ e <> NoResultFound /\ e <> MultipleResultsFound).
  pose proof (window_monitor_rule w save
                (fun s => video_table s = video_table st) E) as R.
  specialize (R ltac:(intros; assumption)).
  specialize (R ltac:(intros s a b e _ [->| ->]; repeat split; discriminate)).
  specialize (R ltac:(intros a s Hs;
                      destruct (ensure_app_effect a s) as (_ & _ & _ & _ & _ & _ & Hv & _);
                      congruence)).
  assert (Hslot : forall app index new_title s r s',
            video_table s = video_table st -> last s !! app <> None ->
            slot_effect w save app index new_title s r s' ->
            @outcome unit (fun s => video_table s = video_table st) E r s').
  { intros app index new_title s r s' Hs Ht Hef.
    pose proof (slot_effect_video_table _ _ _ _ _ _ _ _ Hef) as Hv.
    destruct Hef; cbn [outcome]; try congruence.
    - exfalso.
      pose proof (unique_paths_filter_length old_title _ Hu) as Hlen.
      rewrite <- Hs in Hlen. lia.
    - repeat match goal with
             | x := mkWindowLog _ _ _ _ _ |- _ => subst x
             | x := after_change _ _ _ _ _ _ |- _ => subst x
             end.
      match goal with |- context [emit ?a ?b ?c ?d] =>
        destruct (emit_effect a b c d) as (Hr & _) end.
      rewrite Hr. destruct (save && negb _); cbn [outcome]; [|congruence].
      repeat split; discriminate. }
  specialize (R Hslot polls st eq_refl).
  destruct (fst (window_monitor w save polls st)) as [[]|e]; cbn [outcome] in R.
  - repeat split; discriminate.
  - destruct R as (H1 & H2 & H3). repeat split; congruence.
Qed.

Example lookups_never_end_a_run_witness :
  fst (window_monitor (w_feh false) true 3 st_catalog) <> Raise KeyError /\
  fst (window_monitor (w_feh false) true 3 st_catalog) <> Raise NoResultFound /\
  fst (window_monitor (w_feh false) true 3 st_catalog) <> Raise MultipleResultsFound.
Proof.
  apply (lookups_never_end_a_run (w_feh false) true 3 st_catalog).
  unfold unique_paths. cbn.
  match goal with |- ?G => apply (bool_decide_unpack G) end. vm_compute. exact I.
Defined.

(** X2.  The monitor only reads the catalog: after a run, however it ends,
    the table of the videos is the one before it. *)
Theorem window_monitor_keeps_the_catalog w save polls st :
  video_table (snd (window_monitor w save polls st)) = video_table st.
Proof.
  pose proof (window_monitor_rule w save
    (fun s => video_table s = video_table st)
    (fun _ s => video_table s = video_table st)) as R.
  specialize (R ltac:(intros; assumption) ltac:(intros; assumption)).
  specialize (R ltac:(intros a s Hs;
                      destruct (ensure_app_effect a s) as (_ & _ & _ & _ & _ & _ & Hv & _);
                      congruence)).
  assert (Hslot : forall app index new_title s r s',
            video_table s = video_table st -> last s !! app <> None ->
            slot_effect w save app index new_title s r s' ->
            @outcome unit (fun s => video_table s = video_table st)
              (fun _ s => video_table s = video_table st) r s').
  { intros app index new_title s r s' Hs Ht Hef.
    pose proof (slot_effect_video_table _ _ _ _ _ _ _ _ Hef) as Hv.
    destruct r; cbn [outcome]; congruence. }
  specialize (R Hslot polls st eq_refl).
  destruct (fst (window_monitor w save polls st)); exact R.
Qed.

Lemma reported_logs_started w st :
  reported_logs (stdout (monitor_started w st)) = reported_logs (stdout st).
Proof.
  unfold monitor_started. sproj. rewrite reported_logs_app. cbn. apply app_nil_r.
Qed.

(** X3.  In a persisting run every record stored was reported, in the
    same order, and at most the last record reported is not stored: the log
    table grows by the records the run reports, the last of them left out
    when the run ends between the report of a record and the end of its
    commit. *)
Theorem stored_records_were_reported w polls st :
  exists added rest,
    window_log_table (snd (window_monitor w true polls st))
    = (window_log_table st ++ added)%list /\
    reported_logs (stdout (snd (window_monitor w true polls st)))
    = (reported_logs (stdout st) ++ added ++ rest)%list /\
    (length rest <= 1)%nat.
Proof.
  set (I := fun s => exists added,
              window_log_table s = (window_log_table st ++ added)%list /\
              reported_logs (stdout s) = (reported_logs (stdout st) ++ added)%list).
  set (E := fun (_ : exn) s =>
              exists added rest,
                window_log_table s = (window_log_table st ++ added)%list /\
                reported_logs (stdout s)
                = (reported_logs (stdout st) ++ added ++ rest)%list /\
                (length rest <= 1)%nat).
  assert (HIE : forall e s, I s -> E e s).
  { intros e s (added & Ht & Ho). exists added, []. rewrite app_nil_r. cbn. auto. }
  pose proof (window_monitor_rule w true I E) as R.
  specialize (R ltac:(intros; assumption)).
  specialize (R ltac:(intros s a b e Hs _; apply HIE; exact Hs)).
  specialize (R ltac:(intros a s Hs;
                      destruct (ensure_app_effect a s)
                        as (_ & _ & _ & _ & _ & Ho & _ & Ht & _);
                      unfold I; rewrite Ho, Ht; exact Hs)).
  assert (Hslot : forall app index new_title s r s',
            I s -> last s !! app <> None ->
            slot_effect w true app index new_title s r s' -> @outcome unit I E r s').
  { intros app index new_title s r s' (added & Ht & Ho) Htr Hef.
    assert (Hch : forall d, I (after_change w app index new_title d s)).
    { intros d. exists added. split; [exact Ht|].
      rewrite reported_logs_after_change. exact Ho. }
    destruct Hef; cbn [outcome].
    - contradiction.
    - exists added. auto.
    - apply Hch.
    - apply Hch.
    - apply HIE, Hch.
    - repeat match goal with
             | x := mkWindowLog _ _ _ _ _ |- _ => subst x
             | x := after_change _ _ _ _ _ _ |- _ => subst x
             end.
      match goal with |- context [emit ?a ?b ?c ?d] =>
        destruct (emit_effect a b c d) as (Hr & _ & Hso & _ & Hst & _);
        set (l := c) in * end.
      rewrite Hr.
      change (window_log_table (after_change w app index new_title d s))
        with (window_log_table s) in Hst.
      change (commit_calls (after_change w app index new_title d s))
        with (commit_calls s) in *.
      cbn [andb] in *.
      assert (Hrep : reported_logs (stdout (snd (emit w true l
                        (after_change w app index new_title d s))))
                     = (reported_logs (stdout st) ++ added ++ [l])%list).
      { rewrite Hso, reported_logs_app, reported_logs_after_change, Ho.
        cbn. rewrite <- app_assoc. reflexivity. }
      destruct (commit_ok w (commit_calls s)); cbn [negb outcome].
      + exists (added ++ [l])%list. rewrite Hst, Ht, Hrep, <- app_assoc. auto.
      + exists added, [l]. rewrite Hst, Hrep. cbn. auto. }
  specialize (R Hslot polls st).
  assert (H0 : I (monitor_started w st)).
  { exists []. rewrite reported_logs_started, !app_nil_r. auto. }
  specialize (R H0).
  destruct (fst (window_monitor w true polls st)) as [[]|e]; cbn [outcome] in R.
  - apply (HIE KeyError), R.
  - exact R.
Qed.

(** X4.  With a clock that never goes back, every record a run reports or
    stores has a title that is not empty, starts no earlier than the run and
    ends no earlier than it starts. *)
Theorem records_lie_in_the_run w save polls st l :
  monotone_clock w ->
  In l (reported_logs (stdout (snd (window_monitor w save polls st)))) \/
  In l (window_log_table (snd (window_monitor w save polls st))) ->
  In l (reported_logs (stdout st)) \/ In l (window_log_table st) \/
  (title l <> "" /\ now w (now_calls st) <= start_dt l /\ start_dt l <= end_dt l).
Proof.
  intros Hmono.
  set (P := fun l : WindowLog =>
              In l (reported_logs (stdout st)) \/ In l (window_log_table st) \/
              (title l <> "" /\ now w (now_calls st) <= start_dt l /\
               start_dt l <= end_dt l)).
  set (I := fun s =>
              (now_calls st < now_calls s)%nat /\
              (forall a i t ti, history s a i = Some (t, ti) ->
                 exists k, (now_calls st < k < now_calls s)%nat /\ t = now w k) /\
              (forall l, In l (reported_logs (stdout s)) -> P l) /\
              (forall l, In l (window_log_table s) -> P l)).
  pose proof (window_monitor_rule w save I (fun _ => I)) as R.
  specialize (R ltac:(intros; assumption) ltac:(intros; assumption)).
  specialize (R ltac:(intros a s (Hn & Hh & Ho & Ht);
                      destruct (ensure_app_effect a s)
                        as (_ & _ & _ & _ & _ & Eo & _ & Et & En & _);
                      unfold I; rewrite Eo, Et, En;
                      split; [exact Hn|]; split; [|split; assumption];
                      intros b i t ti Hb;
                      rewrite (proj2 (ensure_app_history a s b i)) in Hb;
                      eauto)).
  assert (Hslot : forall app index new_title s r s',
            I s -> last s !! app <> None ->
            slot_effect w save app index new_title s r s' ->
            @outcome unit I (fun _ => I) r s').
  { intros app index new_title s r s' (Hn & Hh & Ho & Ht) Htr Hef.
    assert (Hch : forall d, last s !! app = Some d ->
                            I (after_change w app index new_title d s)).
    { intros d Hd. split; [cbn; lia|]. split; [|split].
      - intros a i t ti Ha.
        destruct (decide ((app, index) = (a, i))) as [[= <- <-]|Hne].
        + rewrite history_after_change in Ha. injection Ha as <- <-.
          exists (now_calls s). split; [cbn; lia | reflexivity].
        + rewrite (history_after_change_other _ _ _ _ _ _ _ _ Hd Hne) in Ha.
          destruct (Hh _ _ _ _ Ha) as (k & Hk & ->). exists k. split; [cbn; lia | reflexivity].
      - intros l0. rewrite reported_logs_after_change. apply Ho.
      - exact Ht. }
    assert (HI : I s) by (repeat split; assumption).
    destruct Hef; cbn [outcome]; auto; try contradiction.
    repeat match goal with
           | x := mkWindowLog _ _ _ _ _ |- _ => subst x
           | x := after_change _ _ _ _ _ _ |- _ => subst x
           end.
    - match goal with |- context [emit ?a ?b ?c ?d] =>
        destruct (emit_effect a b c d) as (_ & Hl & Hso & _ & Hst & Hnow);
        set (l1 := c) in *; set (s1 := d) in * end.
      destruct (Hch d H) as (Hn1 & Hh1 & Ho1 & Ht1). fold s1 in Hn1, Hh1, Ho1, Ht1.
      assert (Pl : P l1).
      { right. right. unfold l1. cbn [title start_dt end_dt].
        destruct (Hh _ _ _ _ H0) as (k & Hk & ->).
        split; [assumption|]. split; apply Hmono; lia. }
      assert (Hres : I (snd (emit w save l1 s1))).
      { split; [rewrite Hnow; exact Hn1|]. split; [|split].
        - intros a i t1 ti Ha. rewrite history_emit in Ha. rewrite Hnow. eauto.
        - intros l0. rewrite Hso, reported_logs_app. intros Hin.
          apply in_app_or in Hin as [Hin|[<-|[]]]; auto.
        - intros l0. rewrite Hst.
          destruct (save && commit_ok w (commit_calls s1)); [|auto].
          intros Hin. apply in_app_or in Hin as [Hin|[<-|[]]]; auto. }
      destruct (fst (emit w save l1 s1)) as [[]|e]; exact Hres. }
  specialize (R Hslot polls st).
  assert (H0 : I (monitor_started w st)).
  { split; [cbn; lia|]. split; [|split].
    - intros a i t ti Ha. unfold history, monitor_started in Ha. cbn [last] in Ha.
      rewrite lookup_empty in Ha. discriminate.
    - intros l0. rewrite reported_logs_started. intros Hin. left. exact Hin.
    - intros l0 Hin. right. left. exact Hin. }
  specialize (R H0).
  assert (HI : I (snd (window_monitor w save polls st)))
    by (destruct (fst (window_monitor w save polls st)); exact R).
  destruct HI as (_ & _ & Ho & Ht). intros [Hin|Hin]; [apply Ho | apply Ht]; exact Hin.
Qed.

Example records_lie_in_the_run_witness :
  let l := mkWindowLog 120 150 "feh.feh" "A" None in
  In l (reported_logs (stdout init_state)) \/ In l (window_log_table init_state) \/
  (title l <> "" /\ now (w_feh true) (now_calls init_state) <= start_dt l /\
   start_dt l <= end_dt l).
Proof.
  apply (records_lie_in_the_run (w_feh true) true 2 init_state).
  - intros n m H. cbn. lia.
  - right. vm_compute. left. reflexivity.
Defined.

(** ** Slots the snapshot does not report, and the first poll *)

Lemma slots_frame w save start a app index (l : list (nat * string)) :
  (forall i T, In (i, T) l -> (a, i) <> (app, index)) ->
  forall st,
    history (snd (for_ l (fun it => monitor_slot w save start a (fst it) (snd it)) st))
            app index
    = history st app index.
Proof.
  induction l as [|[i T] l IH]; intros Hl st; [reflexivity|].
  cbn [for_]. unfold bind. cbn [fst snd].
  pose proof (monitor_slot_frame w save start a i T st app index
                (Hl i T (or_introl eq_refl))) as Hf.
  destruct (monitor_slot w save start a i T st) as [[[]|e] s1]; cbn [snd] in *;
    [|exact Hf].
  rewrite IH; [exact Hf|]. intros i' T' Hin. apply (Hl i' T'). right. exact Hin.
Qed.

Lemma monitor_app_frame w save start item app index st :
  (fst item = app -> (length (snd item) <= index)%nat) ->
  history (snd (monitor_app w save start item st)) app index = history st app index.
Proof.
  intros Hlen. unfold monitor_app, bind.
  destruct (ensure_app_history (fst item) st app index) as [Hr Hh].
  destruct (ensure_app (fst item) st) as [r s0]. cbn [fst snd] in Hr, Hh. subst r.
  rewrite slots_frame; [exact Hh|].
  intros i T Hin [= Ha ->]. unfold enumerate in Hin.
  apply In_enumerate_from in Hin as [_ Hn]. rewrite Nat.sub_0_r in Hn.
  specialize (Hlen Ha).
  assert (index < length (snd item))%nat by (apply nth_error_Some; congruence).
  lia.
Qed.

(** X5.  A slot the snapshot does not report is left alone: in a poll where
    every list of titles of an application is too short to reach the slot,
    the stored entry of the slot stays, however the poll ends.  The segment of
    a title that was in a slot now out of reach is not closed. *)
Theorem unreported_slot_is_left w save start items app index st :
  (forall titles, In (app, titles) items -> (length titles <= index)%nat) ->
  history (snd (for_ items (monitor_app w save start) st)) app index
  = history st app index.
Proof.
  revert st. induction items as [|item items IH]; intros st Hq; [reflexivity|].
  cbn [for_]. unfold bind.
  assert (H1 : history (snd (monitor_app w save start item st)) app index
               = history st app index).
  { apply monitor_app_frame. intros Ha. apply Hq. left.
    destruct item as [a titles]. cbn [fst snd] in *. subst a. reflexivity. }
  destruct (monitor_app w save start item st) as [[[]|e] s1]; cbn [snd] in *;
    [|exact H1].
  rewrite IH; [exact H1|]. intros titles Hin. apply Hq. right. exact Hin.
Qed.

Example unreported_slot_is_left_witness :
  history (snd (for_ [("feh.feh", [""]); ("vlc.Vlc", ["movies/y.mkv"])]
                     (monitor_app (w_feh true) true 100) st_mid)) "feh.feh" 1
  = Some (175, "").
Proof.
  apply (unreported_slot_is_left (w_feh true) true 100
           [("feh.feh", [""]); ("vlc.Vlc", ["movies/y.mkv"])] "feh.feh" 1 st_mid).
  intros titles [[= <-]|[[=]|[]]]. cbn. lia.
Defined.

Lemma enumerate_from_indices {A} (l : list A) i :
  map fst (enumerate_from i l) = seq i (length l).
Proof.
  revert i. induction l as [|x l IH]; intros i; [reflexivity|].
  cbn [enumerate_from map fst length seq]. rewrite IH. reflexivity.
Qed.

(** The loop body over the titles of an application seen for the first
    time: every slot is seeded and no record is made. *)
Lemma monitor_app_first_time w save start item st :
  last st !! fst item = None ->
  fst (monitor_app w save start item st) = Ok tt /\
  (forall b, b <> fst item ->
             last (snd (monitor_app w save start item st)) !! b = last st !! b) /\
  window_log_table (snd (monitor_app w save start item st)) = window_log_table st /\
  reported_logs (stdout (snd (monitor_app w save start item st)))
  = reported_logs (stdout st) /\
  commit_calls (snd (monitor_app w save start item st)) = commit_calls st.
Proof.
  intros Hnone. unfold monitor_app, bind.
  destruct (ensure_app_effect (fst item) st)
    as (Hr & _ & Hoth & _ & Hnew & Ho & _ & Ht & _ & Hc).
  specialize (Hnew Hnone).
  destruct (ensure_app (fst item) st) as [r s0]. cbn [fst snd] in *. subst r.
  set (a := fst item) in *.
  set (Q := fun s : State =>
              (forall b, b <> a -> last s !! b = last st !! b) /\
              window_log_table s = window_log_table st /\
              reported_logs (stdout s) = reported_logs (stdout st) /\
              commit_calls s = commit_calls st).
  set (J := fun (rem : list (nat * string)) (s : State) =>
              NoDup (map fst rem) /\
              (exists d, last s !! a = Some d /\
                         forall j, In j (map fst rem) -> d !! j = None) /\
              Q s).
  pose proof (hoare_for J (fun _ _ => False)
                (fun it => monitor_slot w save start a (fst it) (snd it))
                (enumerate (snd item))) as H.
  assert (Hbody : forall x rest,
            hoare (J (x :: rest))
                  (monitor_slot w save start a (fst x) (snd x))
                  (outcome (J rest) (fun _ _ => False))).
  { intros [i T] rest s (Hnd & (d & Hd & Hfree) & Hb & Htab & Hrep & Hcom).
    cbn [fst snd map] in *. apply NoDup_cons in Hnd as [Hi Hnd].
    rewrite (monitor_slot_fresh w save start a i T s d Hd)
      by (rewrite (Hfree i (or_introl eq_refl)); reflexivity).
    cbn [fst snd outcome]. split; [exact Hnd|]. split; [|split; [|split; [|split]]].
    - exists (<[i := Some (now w (now_calls s), T)]> d). split.
      + unfold after_change. sproj. apply lookup_insert_eq.
      + intros j Hj. rewrite lookup_insert_ne.
        * apply Hfree. right. exact Hj.
        * intros ->. apply Hi, list_elem_of_In, Hj.
    - intros b Hne. unfold after_change. sproj.
      rewrite lookup_insert_ne by congruence. apply Hb, Hne.
    - exact Htab.
    - rewrite reported_logs_after_change. exact Hrep.
    - exact Hcom. }
  specialize (H Hbody s0).
  assert (H0 : J (enumerate (snd item)) s0).
  { split; [unfold enumerate; rewrite enumerate_from_indices; apply NoDup_seq|].
    split; [exists ∅; split; [exact Hnew | intros; apply lookup_empty]|].
    unfold Q. rewrite Ho. repeat split; auto. }
  specialize (H H0).
  destruct (for_ _ _ s0) as [[[]|e] s1]; cbn [fst snd outcome] in *; [|contradiction].
  destruct H as (_ & _ & Hb & Htab & Hrep & Hcom). auto.
Qed.

(** X6.  The first poll of a run makes no record, whatever the windows:
    every slot it meets is seen for the first time.  After a run of one poll
    the log table and the records reported are the ones before the run, and
    no commit was issued. *)
Theorem first_poll_makes_no_record w save st :
  window_log_table (snd (window_monitor w save 1 st)) = window_log_table st /\
  reported_logs (stdout (snd (window_monitor w save 1 st))) = reported_logs (stdout st) /\
  commit_calls (snd (window_monitor w save 1 st)) = commit_calls st.
Proof.
  rewrite window_monitor_started. cbn [monitor_loop]. unfold bind, ret.
  set (s0 := monitor_started w st).
  set (Q := fun s : State =>
              window_log_table s = window_log_table st /\
              reported_logs (stdout s) = reported_logs (stdout st) /\
              commit_calls s = commit_calls st).
  assert (HQ : Q (snd (monitor_poll w save (now w (now_calls st)) s0))).
  { unfold monitor_poll, bind.
    destruct (list_windows_effect w s0) as (k & Hs & Hr).
    destruct (list_windows w s0) as [[items|e] s1]; cbn [fst snd] in *; subst s1.
    2:{ unfold Q, s0. cbn. rewrite reported_logs_app. cbn. rewrite app_nil_r. auto. }
    destruct Hr as [Hnd _].
    set (I := fun (rem : list (string * list string)) (s : State) =>
                NoDup (dict_keys rem) /\
                (forall a, In a (dict_keys rem) -> last s !! a = None) /\ Q s).
    pose proof (hoare_for I (fun _ s => Q s)
                  (monitor_app w save (now w (now_calls st))) items) as H.
    assert (Hbody : forall x rest,
              hoare (I (x :: rest)) (monitor_app w save (now w (now_calls st)) x)
                    (outcome (I rest) (fun _ s => Q s))).
    { intros x rest s (Hn & Hfree & Htab & Hrep & Hcom).
      cbn [dict_keys map] in Hn, Hfree. apply NoDup_cons in Hn as [Hx Hn].
      destruct (monitor_app_first_time w save (now w (now_calls st)) x s)
        as (Hr & Hb & Ht' & Hr' & Hc'); [apply Hfree; left; reflexivity|].
      rewrite Hr. cbn [outcome]. split; [exact Hn|]. split.
      - intros a Ha. rewrite Hb; [apply Hfree; right; exact Ha|].
        intros ->. apply Hx, list_elem_of_In, Ha.
      - unfold Q. rewrite Ht', Hr', Hc'. auto. }
    specialize (H Hbody (after_pipes s0 1 k)).
    assert (H0 : I items (after_pipes s0 1 k)).
    { split; [exact Hnd|]. split; [intros a _; apply lookup_empty|].
      unfold Q, s0. cbn. rewrite reported_logs_app. cbn. rewrite app_nil_r. auto. }
    specialize (H H0).
    destruct (for_ items _ _) as [[[]|e] s2]; cbn [fst snd outcome] in *;
      [destruct H as (_ & _ & H); exact H | exact H]. }
  destruct (monitor_poll w save (now w (now_calls st)) s0) as [[[]|e] s1];
    cbn [fst snd] in *; exact HQ.
Qed.

(** ** Errors and order in the snapshot *)

Lemma line_not_ok line :
  line_ok line = false -> Py.split_ws line <> [] /\ line_app line = None.
Proof.
  unfold line_ok, line_app.
  destruct (Py.split_ws line) as [|a [|b [|c ws]]]; intros H;
    try discriminate H; split; (discriminate || reflexivity).
Qed.

Lemma snapshot_lines_started w st :
  snapshot_lines w (monitor_started w st) = snapshot_lines w st.
Proof. reflexivity. Qed.

(** An exception of the first snapshot is the outcome of the run. *)
Lemma first_snapshot_raises w save polls st e :
  fst (list_windows w (monitor_started w st)) = Raise e ->
  fst (window_monitor w save (S polls) st) = Raise e.
Proof.
  intros H. rewrite window_monitor_started. cbn [monitor_loop].
  unfold bind at 1. unfold monitor_poll, bind.
  destruct (list_windows w (monitor_started w st)) as [[items|e'] s1];
    cbn [fst] in *; congruence.
Qed.

Lemma list_windows_raises w st e :
  (forall windows s,
      fst (foldM (list_windows_line w) windows (snapshot_lines w st) s) = Raise e) ->
  fst (list_windows w st) = Raise e.
Proof.
  intros H. unfold list_windows, bind, read_wmctrl.
  match goal with |- context [foldM ?f ?a ?l ?s] =>
    specialize (H a s); change l with (snapshot_lines w st);
    destruct (foldM f a (snapshot_lines w st) s) as [[ws|e'] s2] end;
    cbn [fst] in *; congruence.
Qed.

(** X7.  A line of the window list with one or two words ends the
    snapshot, and with it the monitor, with an index error: the class of the
    window is read as the third word without a look at the length. *)
Theorem short_line_ends_the_monitor w save polls st pre bad post :
  Py.truthy (VIDEO_ROOT_PATH w) = true ->
  snapshot_lines w st = (pre ++ bad :: post)%list ->
  forallb line_ok pre = true -> line_ok bad = false ->
  fst (list_windows w st) = Raise IndexError /\
  fst (window_monitor w save (S polls) st) = Raise IndexError.
Proof.
  intros Hroot Hlines Hpre Hbad.
  assert (H : forall st0, snapshot_lines w st0 = snapshot_lines w st ->
                          fst (list_windows w st0) = Raise IndexError).
  { intros st0 E. apply list_windows_raises. rewrite E, Hlines. clear E Hlines.
    induction pre as [|line pre IH]; intros windows s; cbn [app foldM]; unfold bind.
    - destruct (line_not_ok bad Hbad) as [Hne Hnone].
      destruct (list_windows_line_cases w windows bad s)
        as [[E _]|[(_ & _ & E)|[(app & Ha & _)|(app & Ha & _)]]];
        [contradiction | rewrite E; reflexivity | congruence | congruence].
    - cbn [forallb] in Hpre. apply andb_prop in Hpre as [Hl Hpre].
      destruct (list_windows_line_ok w windows line s Hroot Hl) as (w1 & s1 & E & _).
      rewrite E. apply IH. exact Hpre. }
  split; [apply H; reflexivity|].
  apply first_snapshot_raises, H, snapshot_lines_started.
Qed.

Example short_line_ends_the_monitor_witness :
  fst (list_windows w_short_line (snd (window_monitor w_short_line true 1 init_state)))
  = Raise IndexError /\
  fst (window_monitor w_short_line true (S 3)
         (snd (window_monitor w_short_line true 1 init_state)))
  = Raise IndexError.
Proof.
  apply (short_line_ends_the_monitor w_short_line true 3 _
           ["0x01 0 feh.feh host A"] "0x02 0" []); reflexivity.
Defined.

(** X8.  With the variable VIDEO_ROOT_PATH not set, the scan, the list of
    the files of the player and the two queries raise a value error at once:
    no pipe is read, no file is looked at, and the state is the one before. *)
Theorem unset_root_raises w st full_path search :
  env_VIDEO_ROOT_PATH w = "" ->
  scan_video_files w st = (Raise ValueError, st) /\
  list_vlc_open_files w full_path st = (Raise ValueError, st) /\
  query_videos_by_path w search st = (Raise ValueError, st) /\
  query_not_logged_videos w st = (Raise ValueError, st).
Proof.
  intros Henv.
  assert (Hc : check_video_root_path w st = (Raise ValueError, st)).
  { unfold check_video_root_path, VIDEO_ROOT_PATH. rewrite Henv. reflexivity. }
  unfold scan_video_files, list_vlc_open_files, query_videos_by_path,
    query_not_logged_videos, query_to_list, bind.
  rewrite Hc. auto.
Qed.

Example unset_root_raises_witness :
  scan_video_files w_no_root st_catalog = (Raise ValueError, st_catalog) /\
  list_vlc_open_files w_no_root true st_catalog = (Raise ValueError, st_catalog) /\
  query_videos_by_path w_no_root (SearchStr "matrix") st_catalog
  = (Raise ValueError, st_catalog) /\
  query_not_logged_videos w_no_root st_catalog = (Raise ValueError, st_catalog).
Proof. apply (unset_root_raises w_no_root st_catalog true (SearchStr "matrix")). reflexivity. Defined.

(** X9.  With the variable VIDEO_ROOT_PATH not set, a window of the player
    in the window list ends the snapshot, and with it the monitor, with a
    value error. *)
Theorem player_window_without_root w save polls st pre line post player :
  Py.truthy (VIDEO_ROOT_PATH w) = false ->
  snapshot_lines w st = (pre ++ line :: post)%list ->
  forallb line_ok pre = true ->
  line_app line = Some player -> Py.startswith "vlc" player = true ->
  fst (list_windows w st) = Raise ValueError /\
  fst (window_monitor w save (S polls) st) = Raise ValueError.
Proof.
  intros Hroot Hlines Hpre Happ Hvlc.
  assert (H : forall st0, snapshot_lines w st0 = snapshot_lines w st ->
                          fst (list_windows w st0) = Raise ValueError).
  { intros st0 E. apply list_windows_raises. rewrite E, Hlines. clear E Hlines.
    induction pre as [|l pre IH]; intros windows s; cbn [app foldM]; unfold bind.
    - destruct (list_windows_line_cases w windows line s)
        as [[E _]|[(_ & E & _)|[(a & _ & _ & _ & E)|(a & Ha & Hr & _)]]].
      + unfold line_app in Happ. rewrite E in Happ. discriminate.
      + congruence.
      + rewrite E. reflexivity.
      + assert (a = player) as -> by congruence. specialize (Hr Hvlc). congruence.
    - cbn [forallb] in Hpre. apply andb_prop in Hpre as [Hl Hpre].
      destruct (list_windows_line_cases w windows l s)
        as [[_ E]|[(Hne & Hnone & _)|[(a & _ & _ & _ & E)|(a & _ & _ & E)]]].
      + rewrite E. apply IH. exact Hpre.
      + unfold line_ok, line_app in *.
        destruct (Py.split_ws l) as [|x [|y [|z ws]]]; try contradiction;
          discriminate.
      + rewrite E. reflexivity.
      + rewrite E. apply IH. exact Hpre. }
  split; [apply H; reflexivity|].
  apply first_snapshot_raises, H, snapshot_lines_started.
Qed.

Example player_window_without_root_witness :
  fst (list_windows w_no_root init_state) = Raise ValueError /\
  fst (window_monitor w_no_root true (S 2) init_state) = Raise ValueError.
Proof.
  apply (player_window_without_root w_no_root true 2 init_state
           ["0x01 0 feh.feh host A"] "0x02 0 vlc.Vlc host VLC media player" []
           "vlc.Vlc"); reflexivity.
Defined.

Lemma is_line_of_blank app line : Py.split_ws line = [] -> is_line_of app line = false.
Proof. unfold is_line_of, line_app. intros ->. reflexivity. Qed.

Lemma window_titles_cons app line lines :
  window_titles app (line :: lines)
  = if is_line_of app line
    then Py.join " " (skipn 4 (Py.split_ws line)) :: window_titles app lines
    else window_titles app lines.
Proof.
  unfold window_titles. cbn [List.filter]. destruct (is_line_of app line); reflexivity.
Qed.

Lemma window_titles_lines w app lines :
  Py.truthy (VIDEO_ROOT_PATH w) = true -> forallb line_ok lines = true ->
  Py.startswith "vlc" app = false ->
  forall windows st,
    match fst (foldM (list_windows_line w) windows lines st) with
    | Ok windows' =>
        dict_get app windows'
        = extend_titles (dict_get app windows) (window_titles app lines)
    | Raise _ => False
    end.
Proof.
  intros Hroot Hok Hvlc. induction lines as [|line lines IH]; intros windows st.
  - cbn [foldM ret fst]. unfold window_titles. cbn [List.filter map].
    rewrite extend_titles_nil. reflexivity.
  - cbn [forallb] in Hok. apply andb_prop in Hok as [Hl Hls].
    specialize (IH Hls). cbn [foldM]. unfold bind. rewrite window_titles_cons.
    destruct (list_windows_line_cases w windows line st)
      as [[Hb E]|[(Hne & Hnone & _)|[(a & _ & _ & Hr & _)|(a & Ha & _ & E)]]].
    + rewrite E, (is_line_of_blank app line Hb). apply IH.
    + unfold line_ok, line_app in *.
      destruct (Py.split_ws line) as [|x [|y [|z ws]]]; try contradiction; discriminate.
    + congruence.
    + rewrite E. specialize (IH (dict_set a
          (default [] (dict_get a windows) ++ line_titles w st line a)%list windows)
          (after_line st a)).
      destruct (fst (foldM _ _ lines _)) as [windows'|]; [|exact IH].
      rewrite IH. unfold is_line_of. rewrite Ha.
      destruct (String.eqb_spec a app) as [->|Hne].
      * rewrite dict_get_set_eq, extend_titles_Some, extend_titles_cons.
        unfold line_titles. rewrite Hvlc. rewrite <- app_assoc. reflexivity.
      * rewrite dict_get_set_ne by exact Hne. reflexivity.
Qed.

(** X10.  For an application that is not the player, the snapshot of
    well-formed text in ASCII lists the titles of its windows in the order of
    the lines, each title being the words after the fourth joined by one
    space; with no window, the list is the one empty title. *)
Theorem titles_in_window_order w st app :
  Py.truthy (VIDEO_ROOT_PATH w) = true ->
  ascii_text (wmctrl w (wmctrl_calls st)) = true ->
  forallb line_ok (snapshot_lines w st) = true ->
  Py.startswith "vlc" app = false ->
  In app APPS \/ window_titles app (snapshot_lines w st) <> [] ->
  exists items st',
    list_windows w st = (Ok items, st') /\
    dict_get app items = Some (pad_titles (window_titles app (snapshot_lines w st))).
Proof.
  intros Hroot _ Hok Hvlc Hin. unfold list_windows, bind, read_wmctrl.
  set (st1 := mkState _ _ _ _ _ _ _ _).
  pose proof (window_titles_lines w app (snapshot_lines w st) Hroot Hok Hvlc
                (map (fun app => (app, @nil string)) APPS) st1) as H.
  unfold snapshot_lines in H at 1.
  destruct (foldM _ _ _ st1) as [[windows|e] s2]; cbn [fst] in H; [|contradiction].
  unfold ret. eexists _, s2. split; [reflexivity|].
  rewrite dict_get_pad, H.
  destruct Hin as [Happ|Hne].
  - rewrite (dict_get_APPS app Happ), extend_titles_Some. reflexivity.
  - destruct (window_titles app (snapshot_lines w st)) as [|t titles];
      [contradiction|].
    rewrite extend_titles_cons, default_APPS. reflexivity.
Qed.

Example titles_in_window_order_witness :
  exists items st',
    list_windows (w_feh true) init_state = (Ok items, st') /\
    dict_get "feh.feh" items = Some ["A"].
Proof.
  apply (titles_in_window_order (w_feh true) init_state "feh.feh");
    try reflexivity.
  left. vm_compute. auto.
Defined.

(** ** The video root and the paths of the scan *)

(** Appending to a string that starts with a character. *)
Ltac app_cons :=
  repeat match goal with
         | |- context [String.append (String ?c ?a) ?b] =>
             change (String.append (String c a) b) with (String c (String.append a b))
         | |- context [String.append EmptyString ?b] =>
             change (String.append EmptyString b) with b
         end.

Lemma string_app_empty_r (s : string) : s ++ "" = s.
Proof. induction s as [|c s IH]; [reflexivity|]. app_cons. f_equal. exact IH. Qed.

Lemma string_length_app (a b : string) :
  String.length (a ++ b) = (String.length a + String.length b)%nat.
Proof.
  induction a as [|c a IH]; [reflexivity|].
  app_cons. cbn [String.length Nat.add]. f_equal. exact IH.
Qed.

Lemma string_get_app_end (a : string) c rest :
  String.get (String.length a) (a ++ String c rest) = Some c.
Proof.
  induction a as [|d a IH]; [reflexivity|].
  app_cons. cbn [String.length String.get]. exact IH.
Qed.

Lemma endswith_char_app c (s : string) :
  Py.endswith_char c (s ++ String c "") = true.
Proof.
  unfold Py.endswith_char. rewrite string_length_app. cbn [String.length].
  rewrite Nat.add_1_r, string_get_app_end. apply Ascii.eqb_refl.
Qed.

Lemma prefix_app (a b : string) : String.prefix a (a ++ b) = true.
Proof.
  induction a as [|c a IH]; [destruct b; reflexivity|].
  app_cons. cbn [String.prefix].
  destruct (ascii_dec c c); [exact IH | contradiction].
Qed.

Lemma video_root_ends_with_slash w :
  Py.truthy (VIDEO_ROOT_PATH w) = true ->
  Py.endswith_char "/" (VIDEO_ROOT_PATH w) = true.
Proof.
  unfold VIDEO_ROOT_PATH, Py.path_join. cbn [Py.startswith String.prefix].
  destruct (env_VIDEO_ROOT_PATH w) as [|c env]; [discriminate|].
  cbn [String.eqb orb]. intros _.
  destruct (Py.endswith_char "/" (String c env)) eqn:Hend.
  - rewrite string_app_empty_r. exact Hend.
  - change (String c env ++ "/" ++ "") with (String c env ++ String "/" "").
    apply endswith_char_app.
Qed.

(** X11.  The video root is the value of the variable with one separator
    at its end: it is empty exactly when the variable is empty or missing,
    and otherwise it starts with the value, ends with a slash, and is the
    value itself when that already ends with a slash. *)
Theorem video_root_shape w :
  (Py.truthy (VIDEO_ROOT_PATH w) = Py.truthy (env_VIDEO_ROOT_PATH w)) /\
  (env_VIDEO_ROOT_PATH w <> "" ->
   String.prefix (env_VIDEO_ROOT_PATH w) (VIDEO_ROOT_PATH w) = true /\
   Py.endswith_char "/" (VIDEO_ROOT_PATH w) = true /\
   (Py.endswith_char "/" (env_VIDEO_ROOT_PATH w) = true ->
    VIDEO_ROOT_PATH w = env_VIDEO_ROOT_PATH w)).
Proof.
  unfold VIDEO_ROOT_PATH, Py.path_join. cbn [Py.startswith String.prefix].
  destruct (env_VIDEO_ROOT_PATH w) as [|c env] eqn:E.
  - split; [reflexivity | intros H; contradiction].
  - cbn [String.eqb orb].
    destruct (Py.endswith_char "/" (String c env)) eqn:Hend.
    + rewrite string_app_empty_r. split; [reflexivity|]. intros _.
      split; [|split; [exact Hend | reflexivity]].
      rewrite <- (string_app_empty_r (String c env)) at 2. apply prefix_app.
    + split; [reflexivity|]. intros _. split; [apply prefix_app|].
      split; [|discriminate].
      change (String c env ++ "/" ++ "") with (String c env ++ String "/" "").
      apply endswith_char_app.
Qed.

Example video_root_shape_witness :
  String.prefix "/v" (VIDEO_ROOT_PATH w_scan) = true /\
  Py.endswith_char "/" (VIDEO_ROOT_PATH w_scan) = true /\
  (Py.endswith_char "/" "/v" = true -> VIDEO_ROOT_PATH w_scan = "/v").
Proof. apply (proj2 (video_root_shape w_scan)). discriminate. Defined.

Lemma replace_aux_skip old new (a rest : string) :
  Py.replace_aux old new (String.length a) (a ++ rest) = Py.replace_aux old new 0 rest.
Proof.
  induction a as [|c a IH]; [reflexivity|].
  app_cons. cbn [String.length Py.replace_aux]. exact IH.
Qed.

Lemma replace_aux_absent old new (s : string) :
  occurs old s = false -> Py.replace_aux old new 0 s = s.
Proof.
  induction s as [|c s IH]; [reflexivity|].
  cbn [occurs]. intros H. apply orb_false_iff in H as [Hp Ho].
  cbn [Py.replace_aux]. rewrite Hp, (IH Ho). reflexivity.
Qed.

(** Taking a non-empty prefix away from a path in which it does not occur
    again gives the rest of the path. *)
Lemma replace_strips_prefix old (rest : string) :
  old <> "" -> occurs old rest = false -> Py.replace old "" (old ++ rest) = rest.
Proof.
  intros Hne Hocc. unfold Py.replace. rewrite (eqb_false _ _ Hne).
  destruct old as [|c old]; [contradiction|].
  pose proof (prefix_app (String c old) rest) as Hp.
  change (String c old ++ rest) with (String c (old ++ rest)) in *.
  cbn [Py.replace_aux]. rewrite Hp.
  cbn [String.length Nat.pred]. app_cons.
  rewrite replace_aux_skip. apply replace_aux_absent, Hocc.
Qed.

(** The relative path the scan makes of a file of the walk, and the path
    it asks the size of: for a file whose path is the video root followed by
    a relative path in which the root does not occur again, they are that
    relative path and the path of the file. *)
Lemma partial_path_of_file w dir file rel :
  Py.truthy (VIDEO_ROOT_PATH w) = true ->
  Py.path_join dir file = VIDEO_ROOT_PATH w ++ rel ->
  occurs (VIDEO_ROOT_PATH w) rel = false ->
  Py.startswith "/" rel = false ->
  Py.replace (VIDEO_ROOT_PATH w) "" (Py.path_join dir file) = rel /\
  Py.path_join (VIDEO_ROOT_PATH w) rel = Py.path_join dir file.
Proof.
  intros Hroot Hjoin Hocc Hrel.
  assert (Hne : VIDEO_ROOT_PATH w <> "").
  { intros E. rewrite E in Hroot. discriminate. }
  rewrite Hjoin, (replace_strips_prefix _ _ Hne Hocc). split; [reflexivity|].
  unfold Py.path_join at 1. rewrite Hrel.
  rewrite (video_root_ends_with_slash w Hroot), orb_true_r. reflexivity.
Qed.

(** ** What the scan saves *)

Lemma scan_file_appends w p st :
  exists added,
    video_table (snd (scan_file w p st)) = (video_table st ++ added)%list /\
    (forall v, In v added -> path v = p /\ row_of_file w v) /\
    last (snd (scan_file w p st)) = last st /\
    stdout (snd (scan_file w p st)) = stdout st /\
    window_log_table (snd (scan_file w p st)) = window_log_table st.
Proof.
  assert (Hnil : forall s : State,
            video_table s = video_table st -> last s = last st ->
            stdout s = stdout st -> window_log_table s = window_log_table st ->
            exists added,
              video_table s = (video_table st ++ added)%list /\
              (forall v, In v added -> path v = p /\ row_of_file w v) /\
              last s = last st /\ stdout s = stdout st /\
              window_log_table s = window_log_table st).
  { intros s Hv Hl Ho Ht. exists []. rewrite app_nil_r.
    split; [exact Hv|]. split; [intros v []|]. auto. }
  unfold scan_file.
  destruct (os_stat w (Py.path_join (VIDEO_ROOT_PATH w) p)) as [size|] eqn:Hs;
    [|apply Hnil; reflexivity].
  destruct (Z.ltb_spec MINIMUM_VIDEO_SIZE size) as [Hlt|Hge];
    [|apply Hnil; reflexivity].
  unfold add_commit_video.
  destruct (path_in_table p (video_table st)); [apply Hnil; reflexivity|].
  destruct (commit_ok w (commit_calls st)); [|apply Hnil; reflexivity].
  exists [mkVideo (next_video_id (video_table st)) p size]. cbn [snd]. sproj.
  split; [reflexivity|]. split; [|auto].
  intros v [<-|[]]. split; [reflexivity|]. split; [exact Hs | exact Hlt].
Qed.

(** A step of the scan that returns normally on a file that qualifies adds
    the row of the file. *)
Lemma scan_file_adds w p st st1 :
  scan_file w p st = (Ok tt, st1) -> qualifies w p ->
  exists v, video_table st1 = (video_table st ++ [v])%list /\
            path v = p /\ row_of_file w v.
Proof.
  intros H (sz & Hs & Hlt). revert H.
  rewrite (scan_file_qualifies w p sz st Hs Hlt). unfold add_commit_video.
  destruct (path_in_table p (video_table st)); [discriminate|].
  destruct (commit_ok w (commit_calls st)); [|discriminate].
  intros [= <-]. eexists. cbn [video_table]. split; [reflexivity|].
  split; [reflexivity|]. split; [exact Hs | exact Hlt].
Qed.

Lemma scan_loop_adds w l st st1 :
  for_ l (scan_file w) st = (Ok tt, st1) ->
  exists added,
    video_table st1 = (video_table st ++ added)%list /\
    forall p, In p l -> qualifies w p ->
              exists v, In v added /\ path v = p /\ row_of_file w v.
Proof.
  revert st. induction l as [|p l IH]; intros st.
  - cbn [for_]. unfold ret. intros [= <-]. exists []. rewrite app_nil_r.
    split; [reflexivity | intros p []].
  - cbn [for_]. unfold bind.
    destruct (scan_file w p st) as [[[]|e] s1] eqn:E; [|discriminate].
    intros H. destruct (IH s1 H) as (a2 & Ht2 & Hp2).
    destruct (scan_file_appends w p st) as (a1 & Ht1 & _). rewrite E in Ht1.
    cbn [snd] in Ht1. exists (a1 ++ a2)%list. rewrite Ht2, Ht1, <- app_assoc.
    split; [reflexivity|]. intros q [<-|Hin] Hq.
    + destruct (scan_file_adds w p st s1 E Hq) as (v & Hv & Hpath & Hrow).
      rewrite Ht1 in Hv. apply app_inv_head in Hv. subst a1.
      exists v. split; [left; reflexivity | auto].
    + destruct (Hp2 q Hin Hq) as (v & Hv & Hr). exists v.
      split; [apply in_or_app; right; exact Hv | exact Hr].
Qed.

(** X12.  The scan saves the file the walk found under its relative path
    and with its size.  For a file of the walk with a video extension, whose
    path is the video root followed by a relative path in which the root does
    not occur again, and whose size is above the minimum: a scan that returns
    normally has added a row whose path is that relative path and whose size
    is the size of the file. *)
Theorem scan_saves_the_file_found w st st1 dir files file rel sz :
  scan_video_files w st = (Ok tt, st1) ->
  In (dir, files) (os_walk w (VIDEO_ROOT_PATH w)) -> In file files ->
  video_extension file = true ->
  Py.path_join dir file = VIDEO_ROOT_PATH w ++ rel ->
  occurs (VIDEO_ROOT_PATH w) rel = false ->
  Py.startswith "/" rel = false ->
  os_stat w (Py.path_join dir file) = Some sz -> MINIMUM_VIDEO_SIZE < sz ->
  exists added v,
    video_table st1 = (video_table st ++ added)%list /\
    In v added /\ path v = rel /\ size v = sz.
Proof.
  unfold scan_video_files, bind, check_video_root_path.
  destruct (Py.truthy (VIDEO_ROOT_PATH w)) eqn:Hroot; [|discriminate].
  unfold ret. intros H Hwalk Hfile Hext Hjoin Hocc Hrel Hstat Hlt.
  destruct (partial_path_of_file w dir file rel Hroot Hjoin Hocc Hrel) as [Hpart Hfull].
  assert (Hin : In rel (partial_paths w)).
  { unfold partial_paths. apply in_flat_map. exists (dir, files).
    split; [exact Hwalk|]. cbn [fst snd]. rewrite <- Hpart.
    apply (in_map (fun file => Py.replace (VIDEO_ROOT_PATH w) ""
                                          (Py.path_join dir file))).
    apply filter_In. auto. }
  assert (Hq : qualifies w rel).
  { exists sz. rewrite Hfull. auto. }
  destruct (scan_loop_adds w _ st st1 H) as (added & Ht & Hall).
  destruct (Hall rel Hin Hq) as (v & Hv & Hpath & Hs & _).
  exists added, v. split; [exact Ht|]. split; [exact Hv|]. split; [exact Hpath|].
  rewrite Hpath, Hfull, Hstat in Hs. congruence.
Qed.

Example scan_saves_the_file_found_witness :
  exists added v,
    video_table (snd (scan_video_files w_scan init_state))
    = (video_table init_state ++ added)%list /\
    In v added /\ path v = "movies/x.mkv" /\ size v = 20000000.
Proof.
  apply (scan_saves_the_file_found w_scan init_state
           (snd (scan_video_files w_scan init_state))
           "/v/movies" ["x.mkv"; "notes.txt"; "small.avi"] "x.mkv" "movies/x.mkv"
           20000000); try reflexivity.
  - left. reflexivity.
  - left. reflexivity.
Defined.

(** X13.  The scan only adds rows, at the end of the table, each for a file
    of the walk that it could read and that is above the minimum size; it
    leaves the log and the output alone.  This holds however the scan ends:
    what was committed before a failure stays. *)
Theorem scan_appends_files w st :
  exists added,
    video_table (snd (scan_video_files w st)) = (video_table st ++ added)%list /\
    (forall v, In v added -> In (path v) (partial_paths w) /\ row_of_file w v) /\
    window_log_table (snd (scan_video_files w st)) = window_log_table st /\
    stdout (snd (scan_video_files w st)) = stdout st.
Proof.
  unfold scan_video_files, bind, check_video_root_path.
  destruct (Py.truthy (VIDEO_ROOT_PATH w)).
  2:{ exists []. cbn [snd raise]. rewrite app_nil_r.
      split; [reflexivity|]. split; [intros v []|]. auto. }
  unfold ret. generalize (partial_paths w). intros l. revert st.
  induction l as [|p l IH]; intros st.
  - exists []. cbn [for_ ret snd]. rewrite app_nil_r.
    split; [reflexivity|]. split; [intros v []|]. auto.
  - cbn [for_]. unfold bind.
    destruct (scan_file_appends w p st) as (a1 & Ht1 & Hp1 & _ & Ho1 & Hl1).
    destruct (scan_file w p st) as [[[]|e] s1]; cbn [snd] in *.
    + destruct (IH s1) as (a2 & Ht2 & Hp2 & Hl2 & Ho2).
      exists (a1 ++ a2)%list. rewrite Ht2, Ht1, Hl2, Hl1, Ho2, Ho1, <- app_assoc.
      split; [reflexivity|]. split; [|auto].
      intros v Hin. apply in_app_or in Hin as [Hin|Hin].
      * destruct (Hp1 v Hin) as [<- Hr]. split; [left; reflexivity | exact Hr].
      * destruct (Hp2 v Hin) as [Hin' Hr]. split; [right; exact Hin' | exact Hr].
    + exists a1. split; [exact Ht1|]. split; [|auto].
      intros v Hin. destruct (Hp1 v Hin) as [<- Hr]. split; [left; reflexivity | exact Hr].
Qed.

(** X14.  A scan that returns normally has saved every file of the walk
    that qualifies: its relative path is a path of the catalog afterwards. *)
Theorem scan_saves_all_that_qualify w st st1 p :
  scan_video_files w st = (Ok tt, st1) ->
  In p (partial_paths w) -> qualifies w p ->
  exists v, In v (video_table st1) /\ path v = p.
Proof.
  unfold scan_video_files, bind, check_video_root_path.
  destruct (Py.truthy (VIDEO_ROOT_PATH w)); [|discriminate].
  unfold ret. intros H Hin Hq.
  destruct (scan_loop_ok w _ st st1 H) as (_ & _ & Hall).
  specialize (Hall p Hin Hq). unfold path_in_table in Hall.
  apply existsb_exists in Hall as (v & Hv & E). apply String.eqb_eq in E. eauto.
Qed.

Example scan_saves_all_that_qualify_witness :
  exists v, In v (video_table (snd (scan_video_files w_scan init_state))) /\
            path v = "movies/x.mkv".
Proof.
  apply (scan_saves_all_that_qualify w_scan init_state
           (snd (scan_video_files w_scan init_state)) "movies/x.mkv").
  - vm_compute. reflexivity.
  - vm_compute. left. reflexivity.
  - exists 20000000. split; [vm_compute; reflexivity | reflexivity].
Defined.

(** X15.  The scan keeps the paths of the catalog distinct, however it
    ends, so that afterwards no path has more than one row and the lookup of
    the monitor by path cannot be ambiguous. *)
Theorem scan_keeps_lookups_unambiguous w st p :
  unique_paths (video_table st) ->
  unique_paths (video_table (snd (scan_video_files w st))) /\
  (length (List.filter (fun v => String.eqb (path v) p)
                       (video_table (snd (scan_video_files w st)))) <= 1)%nat.
Proof.
  intros Hu. pose proof (scan_keeps_unique_paths w st Hu) as Hu'.
  split; [exact Hu'|]. apply unique_paths_filter_length, Hu'.
Qed.

Example scan_keeps_lookups_unambiguous_witness :
  unique_paths (video_table (snd (scan_video_files w_scan st_catalog))) /\
  (length (List.filter (fun v => String.eqb (path v) "movies/x.mkv")
             (video_table (snd (scan_video_files w_scan st_catalog)))) <= 1)%nat.
Proof.
  apply (scan_keeps_lookups_unambiguous w_scan st_catalog "movies/x.mkv").
  unfold unique_paths. cbn.
  match goal with |- ?G => apply (bool_decide_unpack G) end. vm_compute. exact I.
Defined.

(** ** The queries *)

Lemma query_to_list_ok w sa_filter st :
  Py.truthy (VIDEO_ROOT_PATH w) = true ->
  query_to_list w sa_filter st = (Ok (map (full_path_of w) (sa_filter st)), st).
Proof.
  intros Hroot. unfold query_to_list, bind, check_video_root_path. rewrite Hroot.
  reflexivity.
Qed.

Lemma sublist_List_filter {A} (f : A -> bool) (l : list A) :
  sublist (List.filter f l) l.
Proof.
  induction l as [|x l IH]; cbn [List.filter]; [constructor|].
  destruct (f x); [apply sublist_skip | apply sublist_cons]; exact IH.
Qed.

(** X16.  The videos not yet logged are the rows of the catalog that no
    record of the log links to, in the order of the catalog; the query
    changes nothing. *)
Theorem not_logged_videos_are_the_unlinked w st :
  Py.truthy (VIDEO_ROOT_PATH w) = true ->
  exists rows,
    query_not_logged_videos w st = (Ok (map (full_path_of w) rows), st) /\
    sublist rows (video_table st) /\
    forall v, In v rows <->
              In v (video_table st) /\
              forall l, In l (window_log_table st) ->
                        log_video_id l <> Some (video_id v).
Proof.
  intros Hroot. exists (not_logged_rows st).
  split; [apply query_to_list_ok, Hroot|].
  split; [apply sublist_List_filter|].
  intros v. unfold not_logged_rows. rewrite filter_In. unfold not_logged.
  rewrite negb_true_iff. split; intros [Hin H]; (split; [exact Hin|]).
  - intros l Hl E.
    assert (Hex : existsb (fun l0 => match log_video_id l0 with
                                     | Some i => Z.eqb i (video_id v)
                                     | None => false
                                     end) (window_log_table st) = true).
    { apply existsb_exists. exists l. split; [exact Hl|]. rewrite E. apply Z.eqb_refl. }
    congruence.
  - destruct (existsb _ (window_log_table st)) eqn:E; [|reflexivity].
    apply existsb_exists in E as (l & Hl & El).
    destruct (log_video_id l) as [i|] eqn:Ei; [|discriminate].
    apply Z.eqb_eq in El. subst i. exfalso. exact (H l Hl Ei).
Qed.

Example not_logged_videos_are_the_unlinked_witness :
  exists rows,
    query_not_logged_videos (w_feh true) st_catalog
    = (Ok (map (full_path_of (w_feh true)) rows), st_catalog) /\
    sublist rows (video_table st_catalog) /\
    forall v, In v rows <->
              In v (video_table st_catalog) /\
              forall l, In l (window_log_table st_catalog) ->
                        log_video_id l <> Some (video_id v).
Proof. apply (not_logged_videos_are_the_unlinked (w_feh true) st_catalog). reflexivity. Defined.

(** X17.  Once the monitor has stored the record of a segment whose title
    is the path of a video, the video is no longer among the videos not yet
    logged. *)
Theorem logged_video_leaves_the_list w start app index A B t1 st v :
  history st app index = Some (t1, A) -> A <> B -> A <> "" ->
  unique_paths (video_table st) -> In v (video_table st) -> path v = A ->
  commit_ok w (commit_calls st) = true ->
  ~ In v (not_logged_rows (snd (monitor_slot w true start app index B st))).
Proof.
  intros H HAB HA Hu Hin Hp Hok.
  destruct (monitor_slot_emits w true start app index A B t1 st H HAB HA
              (unique_paths_filter_length A _ Hu)) as (st' & E & _ & _ & Ht).
  rewrite E. cbn [snd].
  rewrite (filter_path_unique A _ v Hu Hin Hp) in Ht. cbn [link_of andb] in Ht.
  rewrite Hok in Ht.
  unfold not_logged_rows. rewrite filter_In. intros [_ Hn].
  unfold not_logged in Hn. apply negb_true_iff in Hn.
  rewrite Ht, existsb_app in Hn. apply orb_false_iff in Hn as [_ Hn].
  cbn in Hn. rewrite Z.eqb_refl in Hn. discriminate.
Qed.

Example logged_video_leaves_the_list_witness :
  ~ In (mkVideo 7 "movies/x.mkv" 20000000)
       (not_logged_rows (snd (monitor_slot (w_feh true) true 100 "vlc.Vlc" 0 "" st_mid))).
Proof.
  apply (logged_video_leaves_the_list (w_feh true) 100 "vlc.Vlc" 0
           "movies/x.mkv" "" 150 st_mid).
  - vm_compute. reflexivity.
  - discriminate.
  - discriminate.
  - apply NoDup_singleton.
  - left. reflexivity.
  - reflexivity.
  - reflexivity.
Defined.

Lemma like_percent pattern s :
  like (String "%" pattern) s
  = like pattern s
    || match s with
       | EmptyString => false
       | String _ s' => like (String "%" pattern) s'
       end.
Proof. destruct s; reflexivity. Qed.

Lemma like_here pattern s :
  like pattern s = true -> like (String "%" pattern) s = true.
Proof. intros H. rewrite like_percent, H. reflexivity. Qed.

Lemma like_same_char c d pattern s :
  Py.lower_char c = Py.lower_char d ->
  like pattern s = true -> like (String c pattern) (String d s) = true.
Proof.
  intros Hcd H. destruct (Ascii.eqb c "%") eqn:E.
  - apply Ascii.eqb_eq in E. subst c. rewrite like_percent.
    apply orb_true_iff. right. rewrite like_percent, H. reflexivity.
  - cbn [like]. rewrite E, Hcd, Ascii.eqb_refl, orb_true_r, H. reflexivity.
Qed.

(** The text of a pattern matches itself, whatever it holds and in any case
    of the letters. *)
Lemma like_literal (word found pattern s : string) :
  Py.lower found = Py.lower word ->
  like pattern s = true -> like (word ++ pattern) (found ++ s) = true.
Proof.
  intros Hl H. revert found Hl.
  induction word as [|c word IH]; intros [|d found] Hl; try discriminate Hl;
    [exact H|].
  cbn [Py.lower] in Hl. injection Hl as Hc Hl.
  app_cons. apply like_same_char; [congruence | apply IH, Hl].
Qed.

Lemma like_skip (before pattern s : string) :
  like (String "%" pattern) s = true ->
  like (String "%" pattern) (before ++ s) = true.
Proof.
  intros H. induction before as [|c before IH]; [exact H|].
  app_cons. rewrite like_percent, IH. apply orb_true_r.
Qed.

Lemma like_any (s : string) : like "%" s = true.
Proof.
  induction s as [|c s IH]; [reflexivity|].
  rewrite like_percent, IH. apply orb_true_r.
Qed.

Lemma like_any_any (s : string) : like "%%" s = true.
Proof. rewrite like_percent, like_any. reflexivity. Qed.

Lemma string_app_assoc (a b c : string) : (a ++ b) ++ c = a ++ b ++ c.
Proof.
  induction a as [|x a IH]; [reflexivity|]. app_cons. f_equal. exact IH.
Qed.

(** A path that has the words of a query in it, in their order, matches the
    pattern made from the query. *)
Lemma like_words words (s : string) :
  words_in_order words s -> like (clean_query_of words) s = true.
Proof.
  unfold clean_query_of. revert s.
  induction words as [|word rest IH]; intros s H.
  - apply like_any_any.
  - destruct H as (before & found & after & -> & Hl & Hrest).
    specialize (IH after Hrest).
    app_cons. apply like_skip, like_here.
    destruct rest as [|word' rest].
    + cbn [Py.join]. apply like_literal; [exact Hl | apply like_any].
    + change (Py.join "%" (word :: word' :: rest))
        with (word ++ "%" ++ Py.join "%" (word' :: rest)).
      rewrite string_app_assoc. apply like_literal; [exact Hl|].
      app_cons. app_cons. exact IH.
Qed.

Lemma search_all_rows st l q :
  In q l -> Py.split_ws q = [] ->
  List.filter (fun v => existsb (fun pattern => like pattern (path v))
                                (map clean_query l)) (video_table st)
  = video_table st.
Proof.
  intros Hq Hw. apply forallb_filter_id. apply forallb_forall. intros v _.
  apply existsb_exists. exists (clean_query q).
  split; [apply in_map, Hq|]. unfold clean_query. rewrite Hw. apply like_any_any.
Qed.

Lemma search_string_is_a_list w st s :
  Py.truthy (VIDEO_ROOT_PATH w) = true ->
  query_videos_by_path w (SearchStr s) st = query_videos_by_path w (SearchList [s]) st.
Proof.
  intros Hroot. unfold query_videos_by_path. rewrite !(query_to_list_ok _ _ _ Hroot).
  cbn [search_truthy]. destruct (Py.truthy s) eqn:E; [reflexivity|].
  assert (s = "") as ->.
  { unfold Py.truthy in E. apply negb_false_iff, String.eqb_eq in E. exact E. }
  rewrite (search_all_rows st [""] ""); [reflexivity | left; reflexivity | reflexivity].
Qed.

(** X18.  A search that is nothing, the empty string or the empty list
    returns all the videos of the catalog with their full paths, in the order
    of the catalog; so does a search with a query that has no word in it.
    A string is searched as the list of that one string. *)
Theorem search_without_words_lists_all w st search :
  Py.truthy (VIDEO_ROOT_PATH w) = true ->
  (search_truthy search = false \/
   (exists s, search = SearchStr s /\ Py.split_ws s = []) \/
   (exists l q, search = SearchList l /\ In q l /\ Py.split_ws q = [])) ->
  query_videos_by_path w search st = (Ok (map (full_path_of w) (video_table st)), st) /\
  forall s, query_videos_by_path w (SearchStr s) st
            = query_videos_by_path w (SearchList [s]) st.
Proof.
  intros Hroot H. split; [|intros s; apply search_string_is_a_list, Hroot].
  unfold query_videos_by_path.
  rewrite (query_to_list_ok _ _ _ Hroot).
  destruct (search_truthy search) eqn:Ht.
  - f_equal. f_equal. f_equal.
    destruct H as [H|[(s & -> & Hs)|(l & q & -> & Hq & Hw)]]; [discriminate | |].
    + apply (search_all_rows st [s] s); [left; reflexivity | exact Hs].
    + apply (search_all_rows st l q); assumption.
  - reflexivity.
Qed.

Example search_without_words_lists_all_witness :
  query_videos_by_path (w_feh true) (SearchList ["matrix"; "  "]) st_catalog
  = (Ok ["/v/movies/The Matrix.mkv"; "/v/series/x_files/s01e01.avi"], st_catalog).
Proof.
  apply (search_without_words_lists_all (w_feh true) st_catalog
           (SearchList ["matrix"; "  "])).
  - reflexivity.
  - right. right. exists ["matrix"; "  "], "  ". split; [reflexivity|].
    split; [right; left; reflexivity | reflexivity].
Defined.

(** X19.  A search returns every video whose path has the words of one of
    its queries in it, in their order, whatever is between them and whatever
    the case of the letters; and it returns paths of videos of the catalog
    only, in the order of the catalog. *)
Theorem search_finds_words_in_order w st queries :
  Py.truthy (VIDEO_ROOT_PATH w) = true -> queries <> [] ->
  exists rows,
    query_videos_by_path w (SearchList queries) st
    = (Ok (map (full_path_of w) rows), st) /\
    sublist rows (video_table st) /\
    forall v q, In v (video_table st) -> In q queries ->
                words_in_order (Py.split_ws q) (path v) -> In v rows.
Proof.
  intros Hroot Hne. unfold query_videos_by_path.
  destruct queries as [|q0 queries]; [contradiction|]. cbn [search_truthy].
  rewrite (query_to_list_ok _ _ _ Hroot).
  eexists. split; [reflexivity|]. split; [apply sublist_List_filter|].
  intros v q Hv Hq Hw. apply filter_In. split; [exact Hv|].
  apply existsb_exists. exists (clean_query q). split; [apply in_map, Hq|].
  apply (like_words _ _ Hw).
Qed.

Example search_finds_words_in_order_witness :
  exists rows,
    query_videos_by_path (w_feh true) (SearchList ["the mkv"]) st_catalog
    = (Ok (map (full_path_of (w_feh true)) rows), st_catalog) /\
    In (mkVideo 1 "movies/The Matrix.mkv" 20000000) rows.
Proof.
  destruct (search_finds_words_in_order (w_feh true) st_catalog ["the mkv"])
    as (rows & E & _ & H); [reflexivity | discriminate |].
  exists rows. split; [exact E|].
  apply (H _ "the mkv"); [left; reflexivity | left; reflexivity |].
  exists "movies/", "The", " Matrix.mkv". split; [reflexivity|]. split; [reflexivity|].
  exists " Matrix.", "mkv", "". split; [reflexivity|]. split; [reflexivity | exact I].
Defined.

(** ** The playlist *)

Lemma split_on_no_sep sep (x : string) :
  has_char sep x = false -> Py.split_on sep x = [x].
Proof.
  induction x as [|c x IH]; [reflexivity|].
  cbn [has_char]. intros H. apply orb_false_iff in H as [Hc Hx].
  cbn [Py.split_on]. rewrite Ascii.eqb_sym, Hc, (IH Hx). reflexivity.
Qed.

Lemma split_on_app_sep sep (x rest : string) :
  has_char sep x = false ->
  Py.split_on sep (x ++ String sep rest) = x :: Py.split_on sep rest.
Proof.
  induction x as [|c x IH]; intros H.
  - app_cons. cbn [Py.split_on]. rewrite Ascii.eqb_refl. reflexivity.
  - cbn [has_char] in H. apply orb_false_iff in H as [Hc Hx].
    app_cons. cbn [Py.split_on]. rewrite Ascii.eqb_sym, Hc, (IH Hx). reflexivity.
Qed.

(** Splitting what was joined gives the list back, when the list is not
    empty and the separator is in none of its strings. *)
Lemma split_on_join sep (l : list string) :
  l <> [] -> (forall x, In x l -> has_char sep x = false) ->
  Py.split_on sep (Py.join (String sep "") l) = l.
Proof.
  induction l as [|x l IH]; intros Hne Hl; [contradiction|].
  destruct l as [|y l].
  - cbn [Py.join]. apply split_on_no_sep, Hl. left. reflexivity.
  - change (Py.join (String sep "") (x :: y :: l))
      with (x ++ String sep "" ++ Py.join (String sep "") (y :: l)).
    app_cons. rewrite split_on_app_sep by (apply Hl; left; reflexivity).
    f_equal. apply IH; [discriminate|]. intros z Hz. apply Hl. right. exact Hz.
Qed.

(** X20.  When the player does not run, nothing is written to the pipe, an
    error is logged and the call returns false.  When it runs, the call
    returns true, prints the number of the videos, and writes them joined by
    the null character: for a list that is not empty and has the null
    character in none of its paths, what is read between the null characters
    of the text is the list itself, a single string being a list of one. *)
Theorem playlist_receives_the_videos pidof_status videos :
  (pidof_status <> O ->
   add_to_playlist pidof_status videos = mkPlaylistCall true None None false) /\
  (pidof_status = O ->
   videos_of videos <> [] ->
   (forall x, In x (videos_of videos) -> has_char NUL x = false) ->
   exists text,
     add_to_playlist pidof_status videos
     = mkPlaylistCall false (Some text) (Some (length (videos_of videos))) true /\
     Py.split_on NUL text = videos_of videos).
Proof.
  unfold add_to_playlist, is_vlc_running. split.
  - intros H. destruct pidof_status; [contradiction | reflexivity].
  - intros -> Hne Hnul. cbn [Nat.eqb negb]. eexists. split; [reflexivity|].
    apply split_on_join; assumption.
Qed.

Example playlist_receives_the_videos_witness :
  exists text,
    add_to_playlist 0 (VideoList ["a b.mkv"; "c.mkv"])
    = mkPlaylistCall false (Some text) (Some 2%nat) true /\
    Py.split_on NUL text = ["a b.mkv"; "c.mkv"].
Proof.
  apply (proj2 (playlist_receives_the_videos 0 (VideoList ["a b.mkv"; "c.mkv"])));
    [reflexivity | discriminate |].
  intros x [<-|[<-|[]]]; reflexivity.
Defined.
